(** * The CUDA device layer of the DAGuE/PaRSEC runtime (dev_cuda.c)

    A shallow embedding of the device bring-up, kernel resolution, handle
    registration, device selection, stream pipeline and device-memory
    management routines of [dague/devices/cuda/dev_cuda.c], and the
    properties of them that the specification states.

    Conventions
    - C [int]s are [Z]; pointers are indices into explicit stores, with
      [option] for a possibly-NULL pointer.
    - Calls into the CUDA driver, the dynamic linker and other collaborators
      are oracles: their results are inputs of the model.
    - An uninitialised C local is an extra argument of the model (its
      indeterminate initial value). *)

From Stdlib Require Import ZArith Lia Bool SpecFloat.
From stdpp Require Import base option list gmap strings pretty.

Local Open Scope Z_scope.

(** ** Device bring-up: [dague_gpu_init] *)

Module Init.

(** [dague_cuda_lookup_device_cudacores]: cores per SM, [None] standing for
    the [DAGUE_ERROR] return (with [*cuda_cores] left unwritten). *)
Definition dague_cuda_lookup_device_cudacores (major minor : Z) : option Z :=
  if major =? 1 then Some 8
  else if (major =? 2) && (minor =? 0) then Some 32
  else if (major =? 2) && (minor =? 1) then Some 48
  else if major =? 3 then Some 192
  else None.

(** What the driver answers for one device index during the bring-up loop.
    The property fields hold whatever [cudaGetDeviceProperties] left in
    [prop], also when the call failed. *)
Record cuda_device_query := {
  set_device_ok : bool;      (* cudaSetDevice(i) == cudaSuccess *)
  get_props_ok : bool;       (* cudaGetDeviceProperties(&prop, i) == cudaSuccess *)
  prop_major : Z;
  prop_minor : Z;
  memory_reserve_ok : bool   (* dague_cuda_memory_reserve(...) == DAGUE_SUCCESS *)
}.

(** The part of a [gpu_device_t] handed to [dague_devices_add]. *)
Record gpu_device := {
  cuda_index : Z;
  major : Z;
  minor : Z;
  cuda_cores : Z
}.

Section Bringup.

(** [DAGUE_CUDA_CHECK_ERROR(str, status, CODE)] is defined in dev_cuda.h,
    which is not part of the sources at hand.  [CODE] runs when the status is
    not [cudaSuccess]; whether a [continue] in [CODE] reaches the enclosing
    [for] loop depends on how the macro wraps it, so that is a parameter. *)
Variable check_error_continue_skips : bool.

(** One iteration of [for( i = 0; i < ndevices; i++ )]: [inl devs] when the
    loop goes on, [inr rc] for a [return rc] out of the whole function. *)
Definition init_device (cuda_mask i : Z) (q : cuda_device_query)
    (added : list gpu_device) : list gpu_device + Z :=
  if Z.land (Z.shiftl 1 i) cuda_mask =? 0 then inl added
  else if negb (set_device_ok q) && check_error_continue_skips then inl added
  else if negb (get_props_ok q) && check_error_continue_skips then inl added
  else
    match dague_cuda_lookup_device_cudacores (prop_major q) (prop_minor q) with
    | None => inr (-1)
    | Some cores =>
        if negb (memory_reserve_ok q) then inl added
        else inl (added ++ [{| cuda_index := i; major := prop_major q;
                               minor := prop_minor q; cuda_cores := cores |}])
    end.

Fixpoint init_loop (cuda_mask i : Z) (qs : list cuda_device_query)
    (added : list gpu_device) : list gpu_device * Z :=
  match qs with
  | [] => (added, 0)
  | q :: qs' =>
      match init_device cuda_mask i q added with
      | inr rc => (added, rc)
      | inl added' => init_loop cuda_mask (i + 1) qs' added'
      end
  end.

(** [dague_gpu_init]: [use_cuda] and [use_cuda_index] are the value and the
    handle of the [device_cuda_enabled] parameter, [count_ok] tells whether
    [cudaGetDeviceCount] succeeded, and [queries] lists the driver's answers
    for the device indices 0, 1, ... it reported.  The result is the list of
    devices registered with [dague_devices_add] and the return code. *)
Definition dague_gpu_init (use_cuda use_cuda_index cuda_mask : Z)
    (count_ok : bool) (queries : list cuda_device_query)
    : list gpu_device * Z :=
  if use_cuda =? 0 then ([], -1)
  else if negb count_ok then ([], -1)
  else
    let ndevices := Z.of_nat (length queries) in
    let ndevices :=
      if (use_cuda <? ndevices) && (0 <? use_cuda_index) then use_cuda
      else ndevices in
    if ndevices =? 0 then ([], -1)
    else init_loop cuda_mask 0 (take (Z.to_nat ndevices) queries) [].

(** The number of devices the bring-up loop visits. *)
Definition ndevices_used (use_cuda use_cuda_index : Z)
    (queries : list cuda_device_query) : Z :=
  let ndevices := Z.of_nat (length queries) in
  if (use_cuda <? ndevices) && (0 <? use_cuda_index) then use_cuda
  else ndevices.

End Bringup.

End Init.

(** ** Kernel resolution: [cuda_solve_handle_dependencies] *)

Module Resolve.

Definition cuda_legal_compute_capabilitites : list Z :=
  [10; 11; 12; 13; 20; 21; 30; 35].

(** [printf]'s [%d] and [%2d] (right-justified in a field of two). *)
Definition fmt_d (z : Z) : string := pretty z.

Definition fmt_2d (z : Z) : string :=
  let s := pretty z in
  if (String.length s <? 2)%nat then " " +:+ s else s.

Section Lookup.

(** [sizeof(int)] of the platform. *)
Variable sizeof_int : Z.
(** What the memory that follows the table holds, read as [int]s: the value
    of [cuda_legal_compute_capabilitites[i]] for an [i] past its last entry. *)
Variable beyond : Z -> Z.

(** The collaborators: [stat] on a target ([None] when it fails, otherwise
    whether it is a directory), [dlopen]/[dlsym] on a library, and on the
    process itself ([dlopen(NULL, ...)]). *)
Variable stat_isdir : string -> option bool.
Variable dlopen : string -> bool.
Variable dlsym : string -> string -> option Z.
Variable dlopen_self : bool.
Variable dlsym_self : string -> option Z.
(** [dague_argv_split(str, ';')]. *)
Variable dague_argv_split : string -> list string.

(** [cuda_legal_compute_capabilitites[i]]. *)
Definition table_read (i : Z) : Z :=
  match cuda_legal_compute_capabilitites !! Z.to_nat i with
  | Some c => c
  | None => beyond i
  end.

(** [for( i = 0, index = -1; i < (int)sizeof(table); i++ )]: [n] iterations
    are left and [i] is the current index.  Returns [index] and the indices
    at which the table was read. *)
Fixpoint find_capability (capability : Z) (n : nat) (i : Z) : Z * list Z :=
  match n with
  | O => (-1, [])
  | S n' =>
      if table_read i =? capability then (i, [i])
      else
        let '(index, reads) := find_capability capability n' (i + 1) in
        (index, i :: reads)
  end.

(** [sizeof(cuda_legal_compute_capabilitites)]: eight [int]s. *)
Definition sizeof_table : Z := 8 * sizeof_int.

(** The loop over the search targets for one symbol name. *)
Fixpoint search_targets (capability : Z) (function_name : string)
    (targets : list string) : option Z :=
  match targets with
  | [] => None
  | target :: rest =>
      match stat_isdir target with
      | None => search_targets capability function_name rest
      | Some isdir =>
          let library_name :=
            if isdir then
              if capability =? 0
              then target +:+ "/libdplasma_cores_cuda.so"
              else target +:+ "/libdplasma_cucores_sm" +:+ fmt_d capability +:+ ".so"
            else target in
          if dlopen library_name then
            match dlsym library_name function_name with
            | Some fn => Some fn
            | None => search_targets capability function_name rest
            end
          else search_targets capability function_name rest
      end
  end.

(** One pass from the label [retry_lesser_sm_version] with [index = n - 1]:
    the symbol name tried, then the libraries, then the process itself. *)
Definition try_index (fname : string) (targets : list string) (n : nat)
    : string * option Z :=
  let capability := match n with O => 0 | S n' => table_read (Z.of_nat n') end in
  let function_name :=
    match n with
    | O => fname
    | S _ => fname +:+ "_SM" +:+ fmt_2d capability
    end in
  let fn :=
    match search_targets capability function_name targets with
    | Some fn => Some fn
    | None => if dlopen_self then dlsym_self function_name else None
    end in
  (function_name, fn).

(** The [goto retry_lesser_sm_version] loop, [index] going from [n - 1] down
    to [-1].  Returns the symbol found and the names tried, in order. *)
Fixpoint retry_lesser_sm_version (fname : string) (targets : list string)
    (n : nat) : option Z * list string :=
  let '(function_name, fn) := try_index fname targets n in
  match fn with
  | Some f => (Some f, [function_name])
  | None =>
      match n with
      | O => (None, [function_name])
      | S n' =>
          let '(r, tried) := retry_lesser_sm_version fname targets n' in
          (r, function_name :: tried)
      end
  end.

Record resolution := {
  resolved : option Z;        (* the returned function pointer *)
  table_reads : list Z;       (* indices read by the locating loop *)
  names_tried : list string   (* symbol names looked up, in order *)
}.

(** [cuda_solve_handle_dependencies]: [env] is [getenv("DAGUE_CUCORES_LIB")]
    and [cuda_lib_path] the configured default. *)
Definition cuda_solve_handle_dependencies (major minor : Z) (fname : string)
    (env cuda_lib_path : option string) : resolution :=
  let capability := major * 10 + minor in
  let '(index, reads) := find_capability capability (Z.to_nat sizeof_table) 0 in
  if index =? -1 then
    {| resolved := None; table_reads := reads; names_tried := [] |}
  else
    let argv :=
      match env with
      | Some e => dague_argv_split e
      | None =>
          match cuda_lib_path with
          | Some p => dague_argv_split p
          | None => []
          end
      end in
    let '(fn, tried) := retry_lesser_sm_version fname argv (Z.to_nat (index + 1)) in
    {| resolved := fn; table_reads := reads; names_tried := tried |}.

End Lookup.

End Resolve.

(** ** Handle registration: [dague_cuda_handle_register] *)

Module HandleRegister.

Inductive dague_rc := DAGUE_SUCCESS | DAGUE_ERR_NOT_FOUND.

(** One entry of a function's [incarnations] array ([__dague_chore_t]); the
    array ends with an entry whose [hook] is NULL. *)
Record chore := {
  hook : bool;            (* hook != NULL *)
  type : Z;
  dyld : option string;
  dyld_fn : option Z
}.

Record dague_handle := {
  functions_array : list (list chore);
  devices_mask : Z
}.

Section Register.

(** [cuda_solve_handle_dependencies(gpu_device, name)] for the device being
    registered. *)
Variable solve : string -> option Z.

(** [chores[cuda_index].dyld_fn = v]; [None] when the store falls outside
    the array. *)
Definition set_dyld_fn (chores : list chore) (cuda_index : Z) (v : option Z)
    : option (list chore) :=
  match chores !! Z.to_nat cuda_index with
  | Some c =>
      Some (<[Z.to_nat cuda_index :=
                {| hook := hook c; type := type c; dyld := dyld c; dyld_fn := v |}]>
              chores)
  | None => None
  end.

(** The loop [for( dev_mask = j = 0; NULL != chores[j].hook; j++ )]: [todo]
    is what is left of the array from index [j] on (its [hook], [type] and
    [dyld] fields are never written), [chores] the array being updated.  The
    local [dev_mask] is never read and is left out. *)
Fixpoint register_chores (device_type cuda_index : Z) (todo chores : list chore)
    (rc : dague_rc) : option (list chore * dague_rc) :=
  match todo with
  | [] => Some (chores, rc)
  | c :: rest =>
      if negb (hook c) then Some (chores, rc)
      else if type c =? device_type then
        match dyld c with
        | None =>
            chores' ← set_dyld_fn chores cuda_index None;
            register_chores device_type cuda_index rest chores' DAGUE_SUCCESS
        | Some name =>
            match solve name with
            | Some devf =>
                chores' ← set_dyld_fn chores cuda_index (Some devf);
                register_chores device_type cuda_index rest chores' DAGUE_SUCCESS
            | None => register_chores device_type cuda_index rest chores rc
            end
        end
      else register_chores device_type cuda_index rest chores rc
  end.

(** The loop over [handle->functions_array]. *)
Fixpoint register_functions (device_type cuda_index : Z)
    (functions : list (list chore)) (rc : dague_rc)
    : option (list (list chore) * dague_rc) :=
  match functions with
  | [] => Some ([], rc)
  | chores :: rest =>
      '(chores', rc') ← register_chores device_type cuda_index chores chores rc;
      '(rest', rc'') ← register_functions device_type cuda_index rest rc';
      Some (chores' :: rest', rc'')
  end.

(** [dague_cuda_handle_register]: [device_type], [device_index] and
    [cuda_index] are the fields of the device.  [None] when a store to
    [chores[cuda_index]] is out of the incarnations array. *)
Definition dague_cuda_handle_register (device_type device_index cuda_index : Z)
    (handle : dague_handle) : option (dague_handle * dague_rc) :=
  '(functions', rc) ← register_functions device_type cuda_index
                        (functions_array handle) DAGUE_ERR_NOT_FOUND;
  let mask' :=
    match rc with
    | DAGUE_SUCCESS => devices_mask handle
    | DAGUE_ERR_NOT_FOUND => Z.land (devices_mask handle) (Z.lnot device_index)
    end in
  Some ({| functions_array := functions'; devices_mask := mask' |}, rc).

End Register.

End HandleRegister.

(** ** Floating-point arithmetic of the load accounting *)

(** The load and weight vectors are arrays of C [float]; the cost ratio is a
    [double].  The operations the code applies to them form an interface, so
    that the selector is stated once and read either with IEEE-754 numbers or
    with any other arithmetic. *)
Class CFloat := {
  flt : Type;                       (* float *)
  dbl : Type;                       (* double *)
  to_dbl : flt -> dbl;              (* promotion of a float operand *)
  to_flt : dbl -> flt;              (* conversion on assignment to a float *)
  dbl_add : dbl -> dbl -> dbl;
  dbl_mul : dbl -> dbl -> dbl;
  flt_sub : flt -> flt -> flt;
  flt_gt : flt -> flt -> bool       (* a > b *)
}.

(** IEEE-754 binary32 and binary64, round to nearest even. *)
Module IEEE.

Definition round32 (x : spec_float) : spec_float :=
  match x with
  | S754_finite s m e => binary_normalize 24 128 (cond_Zopp s (Zpos m)) e s
  | _ => x
  end.

Definition round64 (x : spec_float) : spec_float :=
  match x with
  | S754_finite s m e => binary_normalize 53 1024 (cond_Zopp s (Zpos m)) e s
  | _ => x
  end.

Definition float_of_Z (z : Z) : spec_float := binary_normalize 24 128 z 0 false.
Definition double_of_Z (z : Z) : spec_float := binary_normalize 53 1024 z 0 false.

#[export] Instance ieee754 : CFloat := {|
  flt := spec_float;
  dbl := spec_float;
  to_dbl := round64;
  to_flt := round32;
  dbl_add := SFadd 53 1024;
  dbl_mul := SFmul 53 1024;
  flt_sub := SFsub 24 128;
  flt_gt := fun a b => SFltb b a
|}.

End IEEE.

(** Exact arithmetic on integers, as a second reading. *)
Definition exact_arith : CFloat := {|
  flt := Z;
  dbl := Z;
  to_dbl := fun x => x;
  to_flt := fun x => x;
  dbl_add := Z.add;
  dbl_mul := Z.mul;
  flt_sub := Z.sub;
  flt_gt := Z.gtb
|}.

(** ** Device selection and load accounting *)

Module Selector.

Record dague_flow := {
  flow_index : Z;
  flow_flags : Z
}.

(** What [dague_gpu_get_best_device] reads of its task. *)
Record task_view := {
  nb_flows : nat;                    (* this_task->function->nb_flows *)
  out : list (option dague_flow);    (* this_task->function->out[] *)
  owner_device : Z -> Z;             (* this_task->data[k].data_in->original->owner_device *)
  devices_mask : Z                   (* this_task->dague_handle->devices_mask *)
}.

Section Select.

Context {F : CFloat}.

(** The flag of a write access; its value is in a header that is not among
    the sources. *)
Variable FLOW_ACCESS_WRITE : Z.

(** [a[k] = v] on an array indexed by device. *)
Definition array_set (a : Z -> flt) (k : Z) (v : flt) : Z -> flt :=
  fun i => if i =? k then v else a i.

(** Step one: the loop over the output flows.  [dev_index] is the current
    value of the local, which the loop only writes at a WRITE output flow. *)
Fixpoint find_write_owner (owner : Z -> Z) (outs : list (option dague_flow))
    (dev_index : Z) : Z :=
  match outs with
  | [] => dev_index
  | None :: rest => find_write_owner owner rest dev_index
  | Some f :: rest =>
      if Z.land (flow_flags f) FLOW_ACCESS_WRITE =? 0
      then find_write_owner owner rest dev_index
      else
        let dev_index' := owner (flow_index f) in
        if 1 <? dev_index' then dev_index'
        else find_write_owner owner rest dev_index'
  end.

(** [dague_device_load[v] + ratio * dague_device_sweight[v]], stored in a
    [float]. *)
Definition weight_of (load sweight : Z -> flt) (ratio : dbl) (v : Z) : flt :=
  to_flt (dbl_add (to_dbl (load v)) (dbl_mul ratio (to_dbl (sweight v)))).

(** The body of the loop over the devices 2, 3, ...: [acc] is
    [(best_index, best_weight)]. *)
Definition best_step (mask : Z) (load sweight : Z -> flt) (ratio : dbl)
    (acc : Z * flt) (dev_index : Z) : Z * flt :=
  if Z.land mask (Z.shiftl 1 dev_index) =? 0 then acc
  else
    let weight := weight_of load sweight ratio dev_index in
    if flt_gt (snd acc) weight then (dev_index, weight) else acc.

Definition best_device (mask devices_enabled : Z) (load sweight : Z -> flt)
    (ratio : dbl) : Z * flt :=
  fold_left (best_step mask load sweight ratio)
            (seqZ 2 (devices_enabled - 2))
            (0, weight_of load sweight ratio 0).

(** [dague_gpu_get_best_device].  [dev_index0] is the indeterminate initial
    value of the local [dev_index]; [devices_enabled] is
    [dague_devices_enabled()]; [sweight] and [load] are the global arrays
    [dague_device_sweight] and [dague_device_load].  Returns the device and
    the new [dague_device_load]. *)
Definition dague_gpu_get_best_device (dev_index0 : Z) (this_task : task_view)
    (ratio : dbl) (devices_enabled : Z) (sweight load : Z -> flt)
    : Z * (Z -> flt) :=
  let dev_index :=
    find_write_owner (owner_device this_task)
                     (take (nb_flows this_task) (out this_task)) dev_index0 in
  if dev_index <=? 1 then
    let best_index :=
      fst (best_device (devices_mask this_task) devices_enabled load sweight ratio) in
    (best_index,
     array_set load best_index
       (to_flt (dbl_add (to_dbl (load best_index))
                        (dbl_mul ratio (to_dbl (sweight best_index))))))
  else (dev_index, load).

(** The load accounting of [dague_gpu_kernel_scheduler] at [complete_task]:
    [dague_device_load[device_index] -= dague_device_sweight[device_index]]. *)
Definition complete_task_load (device_index : Z) (sweight load : Z -> flt)
    : Z -> flt :=
  array_set load device_index
    (flt_sub (load device_index) (sweight device_index)).

(** The specification's reading of step one: the owners of the data of the
    WRITE output flows, in flow order. *)
Definition write_owners (owner : Z -> Z) (outs : list (option dague_flow))
    : list Z :=
  omap (fun o =>
          match o with
          | Some f =>
              if Z.land (flow_flags f) FLOW_ACCESS_WRITE =? 0 then None
              else Some (owner (flow_index f))
          | None => None
          end)
       outs.

(** The specification's reading of step two: the devices the minimum is
    taken over, the host and the devices from 2 on whose bit is set in the
    handle's mask. *)
Definition candidates (mask devices_enabled : Z) : list Z :=
  0 :: filter (fun v => Z.land mask (Z.shiftl 1 v) <> 0)
              (seqZ 2 (devices_enabled - 2)).

(** [acc] is a device of [seen] with its weight, none of [seen] weighs
    less, and those of [seen] with a lower index weigh more: the arg-min
    with ties going to the lowest index. *)
Definition argmin_of (load sweight : Z -> flt) (ratio : dbl) (seen : list Z)
    (acc : Z * flt) : Prop :=
  acc.2 = weight_of load sweight ratio acc.1
  /\ acc.1 ∈ seen
  /\ (forall v, v ∈ seen -> flt_gt acc.2 (weight_of load sweight ratio v) = false)
  /\ (forall v, v ∈ seen -> v < acc.1 ->
        flt_gt (weight_of load sweight ratio v) acc.2 = true).

End Select.

End Selector.

(** ** Intrusive lists (list.h, list_item.h) *)

(** The list implementation is not among the sources.  A [dague_list_t] is
    modelled by the sequence of its items from the head; an item that is in
    no list is a ring of its own ([DAGUE_LIST_ITEM_SINGLETON]), which the
    assertions of [dague_gpu_kernel_pop] on [list_next] and [list_prev]
    spell out. *)
Module DagueList.

(** Modelled from the spec: [dague_ulist_fifo_push], "push_fifo (append
    tail)". *)
Definition dague_ulist_fifo_push (l : list Z) (item : Z) : list Z := l ++ [item].

(** Modelled from the spec: [dague_ulist_lifo_push], "push_lifo (prepend
    head)". *)
Definition dague_ulist_lifo_push (l : list Z) (item : Z) : list Z := item :: l.

(** Modelled from the spec: [dague_ulist_fifo_pop], "pop_fifo (remove
    head)"; [None] for the NULL returned on an empty list. *)
Definition dague_ulist_fifo_pop (l : list Z) : option (Z * list Z) :=
  match l with
  | [] => None
  | item :: rest => Some (item, rest)
  end.

(** Modelled from the spec: [dague_list_item_ring_chop], "chop (remove a
    specific item given direct pointer)", on the list that holds the item. *)
Definition dague_list_item_ring_chop (l : list Z) (item : Z) : list Z :=
  filter (fun x => x ≠ item) l.

End DagueList.

(** ** The stream pipeline: [progress_stream] *)

Module Stream.

Import DagueList.

(** The answers of [cudaEventQuery] that the code tells apart. *)
Inductive cudaError := cudaSuccess | cudaErrorNotReady | cudaErrorOther.

(** [dague_gpu_exec_stream_t]: the ring of [max_events] task slots with its
    two cursors and the pending FIFO.  [recorded] logs the slots on which
    [cudaEventRecord] was called, oldest first.  Tasks are named by the
    address of their [dague_gpu_context_t]. *)
Record exec_stream := {
  max_events : Z;
  tasks : list (option Z);
  start : Z;
  end_ : Z;
  fifo_pending : list Z;
  recorded : list Z
}.

Definition set_fifo_pending (s : exec_stream) (l : list Z) : exec_stream :=
  {| max_events := max_events s; tasks := tasks s; start := start s;
     end_ := end_ s; fifo_pending := l; recorded := recorded s |}.

(** [exec_stream->tasks[i]]. *)
Definition ring_get (s : exec_stream) (i : Z) : option Z :=
  default None (tasks s !! Z.to_nat i).

(** [cudaEventRecord(events[start], cuda_stream); tasks[start] = task;
    start = (start + 1) % max_events]. *)
Definition record_and_store (s : exec_stream) (task : Z) : exec_stream :=
  {| max_events := max_events s;
     tasks := <[Z.to_nat (start s) := Some task]> (tasks s);
     start := Z.rem (start s + 1) (max_events s);
     end_ := end_ s;
     fifo_pending := fifo_pending s;
     recorded := recorded s ++ [start s] |}.

(** [tasks[end] = NULL; end = (end + 1) % max_events]. *)
Definition release_slot (s : exec_stream) : exec_stream :=
  {| max_events := max_events s;
     tasks := <[Z.to_nat (end_ s) := None]> (tasks s);
     start := start s;
     end_ := Z.rem (end_ s + 1) (max_events s);
     fifo_pending := fifo_pending s;
     recorded := recorded s |}.

Section Pipeline.

(** The rest of the device, which the launch functions read and write. *)
Context {dev : Type}.

(** [advance_task_function_t]: a launch returns its code and the new device
    state.  It is also handed the stream, of which it uses the CUDA stream
    handle only. *)
Definition advance_task_function : Type := dev -> Z -> Z * dev.

(** Whether [DAGUE_GPU_USE_PRIORITIES] is set, and [dague_ulist_push_sorted]
    with [dague_execution_context_priority_comparator]; both are defined
    outside the sources at hand. *)
Variable DAGUE_GPU_USE_PRIORITIES : bool.
Variable dague_ulist_push_sorted : list Z -> Z -> list Z.
(** [task->submit]. *)
Variable submit : Z -> advance_task_function.
(** The check made when a task completes on the stage-in stream: the new
    device state and whether all its data was found transferred. *)
Variable stage_in_completed : dev -> Z -> dev * bool.

Definition DAGUE_FIFO_PUSH (fifo : list Z) (elem : Z) : list Z :=
  if DAGUE_GPU_USE_PRIORITIES then dague_ulist_push_sorted fifo elem
  else dague_ulist_fifo_push fifo elem.

(** State at the label [check_completion] after a pass from [grab_a_task]. *)
Record grabbed := {
  g_fct : option advance_task_function;   (* progress_fct *)
  g_dev : dev;
  g_stream : exec_stream;
  g_saved_rc : Z
}.

(** From the label [grab_a_task] to the label [check_completion], with the
    local [task] NULL on entry.  [inl] is the [return -1] of a critical
    launch failure. *)
Definition grab_a_task (progress_fct : option advance_task_function)
    (d : dev) (s : exec_stream) (saved_rc : Z)
    : (Z * dev * exec_stream) + grabbed :=
  match ring_get s (start s), dague_ulist_fifo_pop (fifo_pending s) with
  | None, Some (task, rest) =>
      let fct := match progress_fct with Some f => f | None => submit task end in
      let '(rc, d') := fct d task in
      let s' := set_fifo_pending s rest in
      if rc <? 0 then
        if rc =? -1 then inl (-1, d', s')
        else inr {| g_fct := Some fct; g_dev := d';
                    g_stream := set_fifo_pending s' (DAGUE_FIFO_PUSH rest task);
                    g_saved_rc := rc |}
      else inr {| g_fct := Some fct; g_dev := d';
                  g_stream := record_and_store s' task;
                  g_saved_rc := saved_rc |}
  | _, _ => inr {| g_fct := progress_fct; g_dev := d; g_stream := s;
                   g_saved_rc := saved_rc |}
  end.

Record progress_result := {
  rc : Z;                    (* the returned code *)
  out_task : option Z;       (* *out_task *)
  dev_after : dev;
  stream_after : exec_stream
}.

(** [progress_stream].  [is_push_stream] tells whether the stream is
    [exec_stream[0]] of its device and [query] is what [cudaEventQuery]
    answers for the event at [end], if it is asked. *)
Definition progress_stream (is_push_stream : bool) (query : cudaError)
    (progress_fct : option advance_task_function) (task : option Z)
    (d : dev) (s : exec_stream) : progress_result :=
  let s0 :=
    match task with
    | Some t => set_fifo_pending s (DAGUE_FIFO_PUSH (fifo_pending s) t)
    | None => s
    end in
  match grab_a_task progress_fct d s0 0 with
  | inl (r, d1, s1) =>
      {| rc := r; out_task := None; dev_after := d1; stream_after := s1 |}
  | inr g =>
      let s1 := g_stream g in
      match ring_get s1 (end_ s1) with
      | None =>
          {| rc := g_saved_rc g; out_task := None;
             dev_after := g_dev g; stream_after := s1 |}
      | Some gtask =>
          match query with
          | cudaSuccess =>
              let '(d2, ready) :=
                if is_push_stream then stage_in_completed (g_dev g) gtask
                else (g_dev g, true) in
              if negb ready then
                {| rc := g_saved_rc g; out_task := None;
                   dev_after := d2; stream_after := s1 |}
              else
                match grab_a_task (g_fct g) d2 (release_slot s1) (g_saved_rc g) with
                | inl (r, d3, s3) =>
                    {| rc := r; out_task := Some gtask;
                       dev_after := d3; stream_after := s3 |}
                | inr g' =>
                    {| rc := g_saved_rc g'; out_task := Some gtask;
                       dev_after := g_dev g'; stream_after := g_stream g' |}
                end
          | cudaErrorNotReady =>
              {| rc := g_saved_rc g; out_task := None;
                 dev_after := g_dev g; stream_after := s1 |}
          | cudaErrorOther =>
              {| rc := -1; out_task := None;
                 dev_after := g_dev g; stream_after := s1 |}
          end
      end
  end.

End Pipeline.

End Stream.

(** ** Device memory: replicas, the two LRU lists, staging *)

Module Memory.

Import DagueList.

Inductive coherency :=
  DATA_COHERENCY_INVALID | DATA_COHERENCY_OWNED | DATA_COHERENCY_SHARED.

Inductive transfer_status :=
  DATA_STATUS_NOT_TRANSFER | DATA_STATUS_UNDER_TRANSFER | DATA_STATUS_COMPLETE_TRANSFER.

#[export] Instance coherency_eq_dec : EqDecision coherency.
Proof. solve_decision. Defined.

#[export] Instance transfer_status_eq_dec : EqDecision transfer_status.
Proof. solve_decision. Defined.

(** [dague_data_copy_t] (also [dague_gpu_data_copy_t]): a replica. *)
Record dague_data_copy := {
  original : option Z;             (* the dague_data_t it mirrors *)
  device_index : Z;
  device_private : option Z;       (* its storage *)
  version : Z;
  coherency_state : coherency;
  data_transfer_status : transfer_status;
  readers : Z;
  push_task : option Z             (* the execution context staging it in *)
}.

(** [dague_data_t]: a datum; [device_copies] maps a device index to the
    replica on that device, index 0 being the host. *)
Record dague_data := {
  device_copies : gmap Z Z;
  owner_device : Z;
  nb_elts : Z
}.

Record dague_data_pair := {
  data_in : option Z;
  data_out : option Z
}.

Inductive gpu_task_type := GPU_TASK_TYPE_KERNEL | GPU_TASK_TYPE_D2HTRANSFER.

(** [dague_gpu_context_t] with the fields of its execution context that the
    device layer uses.  [function_out] is [ec->function->out[]]: [None] when
    [ec->function] is NULL, otherwise, by index, whether the entry points to
    a flow (is not NULL). *)
Record dague_gpu_context := {
  ec : Z;                          (* the execution context *)
  nb_flows : nat;                  (* ec->function->nb_flows *)
  flow : list Z;                   (* flow[i]->flow_flags *)
  data : list dague_data_pair;     (* ec->data[] *)
  pushout : list bool;
  task_type : gpu_task_type;
  priority : Z;                    (* ec->priority *)
  function_out : option (list bool)
}.

Definition set_data (t : dague_gpu_context) (v : list dague_data_pair)
    : dague_gpu_context :=
  {| ec := ec t; nb_flows := nb_flows t; flow := flow t; data := v;
     pushout := pushout t; task_type := task_type t; priority := priority t;
     function_out := function_out t |}.

(** [ec->data[i].data_out = v] and [ec->data[i].data_in = v]. *)
Definition set_data_out (t : dague_gpu_context) (i : nat) (v : option Z)
    : dague_gpu_context :=
  set_data t (alter (fun dp => {| data_in := data_in dp; data_out := v |}) i (data t)).

Definition set_data_in (t : dague_gpu_context) (i : nat) (v : option Z)
    : dague_gpu_context :=
  set_data t (alter (fun dp => {| data_in := v; data_out := data_out dp |}) i (data t)).

Inductive memcpy_kind := cudaMemcpyHostToDevice | cudaMemcpyDeviceToHost.

(** The arguments of one [cudaMemcpyAsync]. *)
Record memcpy := {
  dst : option Z;
  src : option Z;
  count : Z;
  kind : memcpy_kind
}.

Inductive warning :=
  | warn_no_space (missing total : Z)
  | warn_write_with_readers
  | warn_memcpy_to_device
  | warn_memcpy_from_device.

Section Device.

(** The zone allocator (zone_malloc.c) is not among the sources: its state
    and its two operations are parameters. *)
Context {zone : Type}.
Variable zone_malloc : zone -> Z -> option (Z * zone).
Variable zone_free : zone -> Z -> zone.

(** [gpu_device->super.device_index]. *)
Variable dev : Z.

(** The flow access flags, from a header that is not among the sources. *)
Variable FLOW_ACCESS_READ : Z.
Variable FLOW_ACCESS_WRITE : Z.

(** [DAGUE_GPU_W2R_NB_MOVE_OUT], from dev_cuda.h. *)
Variable DAGUE_GPU_W2R_NB_MOVE_OUT : Z.

(** Whether the driver accepts a [cudaMemcpyAsync]. *)
Variable cudaMemcpyAsync : memcpy -> bool.

(** The device, the replicas and data it works on, and what it emitted. *)
Record gpu_world := {
  copies : gmap Z dague_data_copy;   (* every dague_data_copy_t, by address *)
  datas : gmap Z dague_data;   (* every dague_data_t, by address *)
  next_obj : Z;   (* the address OBJ_NEW hands out next *)
  gpu_mem_lru : list Z;   (* gpu_device->gpu_mem_lru *)
  gpu_mem_owned_lru : list Z;   (* gpu_device->gpu_mem_owned_lru *)
  memory : zone;   (* gpu_device->memory *)
  required_data_in : Z;
  transferred_data_in : Z;
  required_data_out : Z;
  transferred_data_out : Z;
  memcpys : list memcpy;   (* the cudaMemcpyAsync calls issued, oldest first *)
  warnings : list warning   (* the dague_warning calls, oldest first *)
}.

Definition set_copies (w : gpu_world) (v : gmap Z dague_data_copy) : gpu_world :=
  {| copies := v; datas := datas w; next_obj := next_obj w; gpu_mem_lru :=
  gpu_mem_lru w; gpu_mem_owned_lru := gpu_mem_owned_lru w; memory := memory w;
  required_data_in := required_data_in w; transferred_data_in :=
  transferred_data_in w; required_data_out := required_data_out w;
  transferred_data_out := transferred_data_out w; memcpys := memcpys w;
  warnings := warnings w |}.

Definition set_datas (w : gpu_world) (v : gmap Z dague_data) : gpu_world :=
  {| copies := copies w; datas := v; next_obj := next_obj w; gpu_mem_lru :=
  gpu_mem_lru w; gpu_mem_owned_lru := gpu_mem_owned_lru w; memory := memory w;
  required_data_in := required_data_in w; transferred_data_in :=
  transferred_data_in w; required_data_out := required_data_out w;
  transferred_data_out := transferred_data_out w; memcpys := memcpys w;
  warnings := warnings w |}.

Definition set_next_obj (w : gpu_world) (v : Z) : gpu_world :=
  {| copies := copies w; datas := datas w; next_obj := v; gpu_mem_lru :=
  gpu_mem_lru w; gpu_mem_owned_lru := gpu_mem_owned_lru w; memory := memory w;
  required_data_in := required_data_in w; transferred_data_in :=
  transferred_data_in w; required_data_out := required_data_out w;
  transferred_data_out := transferred_data_out w; memcpys := memcpys w;
  warnings := warnings w |}.

Definition set_gpu_mem_lru (w : gpu_world) (v : list Z) : gpu_world :=
  {| copies := copies w; datas := datas w; next_obj := next_obj w; gpu_mem_lru
  := v; gpu_mem_owned_lru := gpu_mem_owned_lru w; memory := memory w;
  required_data_in := required_data_in w; transferred_data_in :=
  transferred_data_in w; required_data_out := required_data_out w;
  transferred_data_out := transferred_data_out w; memcpys := memcpys w;
  warnings := warnings w |}.

Definition set_gpu_mem_owned_lru (w : gpu_world) (v : list Z) : gpu_world :=
  {| copies := copies w; datas := datas w; next_obj := next_obj w; gpu_mem_lru
  := gpu_mem_lru w; gpu_mem_owned_lru := v; memory := memory w;
  required_data_in := required_data_in w; transferred_data_in :=
  transferred_data_in w; required_data_out := required_data_out w;
  transferred_data_out := transferred_data_out w; memcpys := memcpys w;
  warnings := warnings w |}.

Definition set_memory (w : gpu_world) (v : zone) : gpu_world :=
  {| copies := copies w; datas := datas w; next_obj := next_obj w; gpu_mem_lru
  := gpu_mem_lru w; gpu_mem_owned_lru := gpu_mem_owned_lru w; memory := v;
  required_data_in := required_data_in w; transferred_data_in :=
  transferred_data_in w; required_data_out := required_data_out w;
  transferred_data_out := transferred_data_out w; memcpys := memcpys w;
  warnings := warnings w |}.

Definition set_required_data_in (w : gpu_world) (v : Z) : gpu_world :=
  {| copies := copies w; datas := datas w; next_obj := next_obj w; gpu_mem_lru
  := gpu_mem_lru w; gpu_mem_owned_lru := gpu_mem_owned_lru w; memory := memory
  w; required_data_in := v; transferred_data_in := transferred_data_in w;
  required_data_out := required_data_out w; transferred_data_out :=
  transferred_data_out w; memcpys := memcpys w; warnings := warnings w |}.

Definition set_transferred_data_in (w : gpu_world) (v : Z) : gpu_world :=
  {| copies := copies w; datas := datas w; next_obj := next_obj w; gpu_mem_lru
  := gpu_mem_lru w; gpu_mem_owned_lru := gpu_mem_owned_lru w; memory := memory
  w; required_data_in := required_data_in w; transferred_data_in := v;
  required_data_out := required_data_out w; transferred_data_out :=
  transferred_data_out w; memcpys := memcpys w; warnings := warnings w |}.

Definition set_required_data_out (w : gpu_world) (v : Z) : gpu_world :=
  {| copies := copies w; datas := datas w; next_obj := next_obj w; gpu_mem_lru
  := gpu_mem_lru w; gpu_mem_owned_lru := gpu_mem_owned_lru w; memory := memory
  w; required_data_in := required_data_in w; transferred_data_in :=
  transferred_data_in w; required_data_out := v; transferred_data_out :=
  transferred_data_out w; memcpys := memcpys w; warnings := warnings w |}.

Definition set_transferred_data_out (w : gpu_world) (v : Z) : gpu_world :=
  {| copies := copies w; datas := datas w; next_obj := next_obj w; gpu_mem_lru
  := gpu_mem_lru w; gpu_mem_owned_lru := gpu_mem_owned_lru w; memory := memory
  w; required_data_in := required_data_in w; transferred_data_in :=
  transferred_data_in w; required_data_out := required_data_out w;
  transferred_data_out := v; memcpys := memcpys w; warnings := warnings w |}.

Definition set_memcpys (w : gpu_world) (v : list memcpy) : gpu_world :=
  {| copies := copies w; datas := datas w; next_obj := next_obj w; gpu_mem_lru
  := gpu_mem_lru w; gpu_mem_owned_lru := gpu_mem_owned_lru w; memory := memory
  w; required_data_in := required_data_in w; transferred_data_in :=
  transferred_data_in w; required_data_out := required_data_out w;
  transferred_data_out := transferred_data_out w; memcpys := v; warnings :=
  warnings w |}.

Definition set_warnings (w : gpu_world) (v : list warning) : gpu_world :=
  {| copies := copies w; datas := datas w; next_obj := next_obj w; gpu_mem_lru
  := gpu_mem_lru w; gpu_mem_owned_lru := gpu_mem_owned_lru w; memory := memory
  w; required_data_in := required_data_in w; transferred_data_in :=
  transferred_data_in w; required_data_out := required_data_out w;
  transferred_data_out := transferred_data_out w; memcpys := memcpys w;
  warnings := v |}.

(** Reading through a possibly-NULL replica pointer; a pointer that names
    no object reads as NULL or 0. *)
Definition copy_original (w : gpu_world) (c : option Z) : option Z :=
  c ≫= fun c => copies w !! c ≫= original.

Definition copy_private (w : gpu_world) (c : option Z) : option Z :=
  c ≫= fun c => copies w !! c ≫= device_private.

Definition copy_readers (w : gpu_world) (c : option Z) : Z :=
  default 0 (c ≫= fun c => readers <$> copies w !! c).

Definition copy_version (w : gpu_world) (c : option Z) : Z :=
  default 0 (c ≫= fun c => version <$> copies w !! c).

Definition data_nb_elts (w : gpu_world) (m : option Z) : Z :=
  default 0 (m ≫= fun m => nb_elts <$> datas w !! m).

(** Modelled from the spec: [DAGUE_DATA_GET_COPY], "get_copy(datum,
    device) -> replica or nil"; the macro is not among the sources. *)
Definition DAGUE_DATA_GET_COPY (w : gpu_world) (m : option Z) (device : Z)
    : option Z :=
  m ≫= fun m => datas w !! m ≫= fun d => device_copies d !! device.

(** In-place update of one replica. *)
Definition update_copy (w : gpu_world) (c : Z)
    (f : dague_data_copy -> dague_data_copy) : gpu_world :=
  set_copies w (alter f c (copies w)).

Definition with_original (v : option Z) (device : Z) (c : dague_data_copy)
    : dague_data_copy :=
  {| original := v; device_index := device;
     device_private := device_private c; version := version c;
     coherency_state := coherency_state c;
     data_transfer_status := data_transfer_status c;
     readers := readers c; push_task := push_task c |}.

Definition with_readers (v : Z) (c : dague_data_copy) : dague_data_copy :=
  {| original := original c; device_index := device_index c;
     device_private := device_private c; version := version c;
     coherency_state := coherency_state c;
     data_transfer_status := data_transfer_status c;
     readers := v; push_task := push_task c |}.

Definition with_coherency (v : coherency) (c : dague_data_copy) : dague_data_copy :=
  {| original := original c; device_index := device_index c;
     device_private := device_private c; version := version c;
     coherency_state := v;
     data_transfer_status := data_transfer_status c;
     readers := readers c; push_task := push_task c |}.

Definition with_version (v : Z) (c : dague_data_copy) : dague_data_copy :=
  {| original := original c; device_index := device_index c;
     device_private := device_private c; version := v;
     coherency_state := coherency_state c;
     data_transfer_status := data_transfer_status c;
     readers := readers c; push_task := push_task c |}.

Definition with_private (v : option Z) (c : dague_data_copy) : dague_data_copy :=
  {| original := original c; device_index := device_index c;
     device_private := v; version := version c;
     coherency_state := coherency_state c;
     data_transfer_status := data_transfer_status c;
     readers := readers c; push_task := push_task c |}.

Definition with_transfer (v : transfer_status) (task : option Z)
    (c : dague_data_copy) : dague_data_copy :=
  {| original := original c; device_index := device_index c;
     device_private := device_private c; version := version c;
     coherency_state := coherency_state c;
     data_transfer_status := v;
     readers := readers c; push_task := task |}.

Definition with_device_copies (v : gmap Z Z) (d : dague_data) : dague_data :=
  {| device_copies := v; owner_device := owner_device d; nb_elts := nb_elts d |}.

(** Modelled from the spec: [dague_data_copy_attach], "attach(datum,
    replica, device)": the replica becomes the datum's replica on the device
    and refers back to the datum. *)
Definition dague_data_copy_attach (w : gpu_world) (m : option Z) (c : Z)
    (device : Z) : gpu_world :=
  match m with
  | None => w
  | Some m' =>
      update_copy
        (set_datas w (alter (fun d => with_device_copies
                                         (<[device := c]> (device_copies d)) d)
                            m' (datas w)))
        c (with_original (Some m') device)
  end.

(** Modelled from the spec: [dague_data_copy_detach], "detach(datum,
    replica, device)": when the datum's replica on the device is this one,
    the slot is emptied and the back-reference dropped. *)
Definition dague_data_copy_detach (w : gpu_world) (m : option Z) (c : Z)
    (device : Z) : gpu_world :=
  match m with
  | None => w
  | Some m' =>
      if bool_decide (DAGUE_DATA_GET_COPY w (Some m') device = Some c) then
        update_copy
          (set_datas w (alter (fun d => with_device_copies
                                           (delete device (device_copies d)) d)
                              m' (datas w)))
          c (fun x => with_original None (device_index x) x)
      else w
  end.

(** [OBJ_NEW(dague_data_copy_t)]: a replica that is attached to nothing, at
    an address never used before. *)
Definition new_copy : dague_data_copy :=
  {| original := None; device_index := 0; device_private := None;
     version := 0; coherency_state := DATA_COHERENCY_INVALID;
     data_transfer_status := DATA_STATUS_NOT_TRANSFER;
     readers := 0; push_task := None |}.

Definition OBJ_NEW (w : gpu_world) : Z * gpu_world :=
  (next_obj w,
   set_next_obj (set_copies w (<[next_obj w := new_copy]> (copies w)))
                (next_obj w + 1)).

(** [OBJ_RELEASE] of the last reference to a replica. *)
Definition OBJ_RELEASE (w : gpu_world) (c : Z) : gpu_world :=
  set_copies w (delete c (copies w)).

Definition warn (w : gpu_world) (m : warning) : gpu_world :=
  set_warnings w (warnings w ++ [m]).

(** [gpu_task->flow[i]->flow_flags]. *)
Definition flow_flags_at (t : dague_gpu_context) (i : nat) : Z :=
  default 0 (flow t !! i).

(** [this_task->data[i].data_in->original]. *)
Definition task_master (w : gpu_world) (t : dague_gpu_context) (i : nat)
    : option Z :=
  data t !! i ≫= fun dp => copy_original w (data_in dp).

(** [dague_data_transfer_ownership_to_copy] (data.c) is not among the
    sources: it returns the device to copy from, or -1, and updates the
    registry. *)
Variable dague_data_transfer_ownership_to_copy :
  gpu_world -> option Z -> Z -> Z -> Z * gpu_world.

(** *** [dague_gpu_data_reserve_device_space] *)

(** The loop [for( j = 0; j < nb_flows; j++ )] that checks whether
    [oldmaster] is the datum of one of the task's own flows. *)
Definition is_task_data (w : gpu_world) (t : dague_gpu_context)
    (oldmaster : option Z) : bool :=
  existsb (fun dp =>
             match data_in dp with
             | None => false
             | Some c => bool_decide (copy_original w (Some c) = oldmaster)
             end)
          (take (nb_flows t) (data t)).

(** [zone_free(gpu_device->memory, ptr)]. *)
Definition free_private (w : gpu_world) (ptr : option Z) : gpu_world :=
  match ptr with
  | Some a => set_memory w (zone_free (memory w) a)
  | None => w
  end.

(** From the label [find_another_data] until [zone_malloc] succeeds or the
    list is empty: [lru] is what is left of [gpu_mem_lru].  Returns the
    block obtained, or [None] when the list ran out, and the new state. *)
Fixpoint find_another_data (t : dague_gpu_context) (size : Z) (lru : list Z)
    (w : gpu_world) : gpu_world * option Z :=
  match lru with
  | [] => (set_gpu_mem_lru w [], None)
  | lru_gpu_elem :: rest =>
      if bool_decide (copy_readers w (Some lru_gpu_elem) ≠ 0)
      then find_another_data t size rest w
      else
        let oldmaster := copy_original w (Some lru_gpu_elem) in
        if is_task_data w t oldmaster then find_another_data t size rest w
        else
          let w1 := dague_data_copy_detach w oldmaster lru_gpu_elem dev in
          let w2 := free_private w1 (copy_private w1 (Some lru_gpu_elem)) in
          let w3 := OBJ_RELEASE w2 lru_gpu_elem in
          match zone_malloc (memory w3) size with
          | Some (p, z) => (set_gpu_mem_lru (set_memory w3 z) rest, Some p)
          | None => find_another_data t size rest w3
          end
  end.

(** The label [malloc_data]: [zone_malloc], and the eviction loop when it
    fails. *)
Definition malloc_data (t : dague_gpu_context) (size : Z) (w : gpu_world)
    : gpu_world * option Z :=
  match zone_malloc (memory w) size with
  | Some (p, z) => (set_memory w z, Some p)
  | None => find_another_data t size (gpu_mem_lru w) w
  end.

(** The loop that pushes [temp_loc[j]], [j < i], at the head of the list. *)
Definition push_back_temp_loc (temp_loc : list (option Z)) (i : nat)
    (lru : list Z) : list Z :=
  fold_left (fun l o => match o with
                        | Some c => dague_ulist_lifo_push l c
                        | None => l
                        end)
            (take i temp_loc) lru.

(** What the replica of a new allocation is set to before it is attached. *)
Definition fresh_replica (p : Z) (c : dague_data_copy) : dague_data_copy :=
  with_version 0 (with_coherency DATA_COHERENCY_INVALID (with_private (Some p) c)).

(** One iteration of the loop over the flows: [inl] to go on, [inr] for the
    [return -2]. *)
Definition reserve_flow (i : nat)
    (st : gpu_world * dague_gpu_context * list (option Z))
    : gpu_world * dague_gpu_context * list (option Z)
      + gpu_world * dague_gpu_context :=
  let '(w, t, temp_loc) := st in
  if flow_flags_at t i =? 0 then inl st
  else
    let temp_loc := <[i := None]> temp_loc in
    let master := task_master w t i in
    let gpu_elem := DAGUE_DATA_GET_COPY w master dev in
    let t := set_data_out t i gpu_elem in
    match gpu_elem with
    | Some _ => inl (w, t, temp_loc)
    | None =>
        let '(n, w) := OBJ_NEW w in
        let '(w, p) := malloc_data t (data_nb_elts w master) w in
        match p with
        | None =>
            let w := warn w (warn_no_space (Z.of_nat (nb_flows t) - Z.of_nat i)
                                           (Z.of_nat (nb_flows t))) in
            let w := set_gpu_mem_lru w
                       (push_back_temp_loc temp_loc i (gpu_mem_lru w)) in
            inr (OBJ_RELEASE w n, t)
        | Some p =>
            let w := update_copy w n (fresh_replica p) in
            let w := dague_data_copy_attach w master n dev in
            let t := set_data_out t i (Some n) in
            let temp_loc := <[i := Some n]> temp_loc in
            inl (set_gpu_mem_lru w (dague_ulist_fifo_push (gpu_mem_lru w) n),
                 t, temp_loc)
        end
    end.

Fixpoint reserve_loop (flows : list nat)
    (st : gpu_world * dague_gpu_context * list (option Z))
    : Z * gpu_world * dague_gpu_context :=
  match flows with
  | [] => (0, st.1.1, st.1.2)
  | i :: rest =>
      match reserve_flow i st with
      | inl st' => reserve_loop rest st'
      | inr (w, t) => (-2, w, t)
      end
  end.

(** [dague_gpu_data_reserve_device_space], compiled for the zone allocator
    ([DAGUE_GPU_CUDA_ALLOC_PER_TILE] not set).  [temp_loc0] is the
    indeterminate initial content of the local array [temp_loc]. *)
Definition dague_gpu_data_reserve_device_space (temp_loc0 : list (option Z))
    (w : gpu_world) (t : dague_gpu_context) : Z * gpu_world * dague_gpu_context :=
  reserve_loop (seq 0 (nb_flows t)) (w, t, temp_loc0).

(** *** [dague_gpu_data_stage_in] *)

(** [dague_list_item_ring_chop(item); DAGUE_LIST_ITEM_SINGLETON(item)], on
    whichever of the two LRU lists holds the replica. *)
Definition chop_replica (w : gpu_world) (c : option Z) : gpu_world :=
  match c with
  | Some c =>
      set_gpu_mem_owned_lru
        (set_gpu_mem_lru w (dague_list_item_ring_chop (gpu_mem_lru w) c))
        (dague_list_item_ring_chop (gpu_mem_owned_lru w) c)
  | None => w
  end.

Definition issue_memcpy (w : gpu_world) (m : memcpy) : gpu_world :=
  set_memcpys w (memcpys w ++ [m]).

(** [dague_gpu_data_stage_in] on [task_data = &ec->data[i]] with the access
    flags [type]. *)
Definition dague_gpu_data_stage_in (type : Z) (i : nat)
    (t : dague_gpu_context) (w : gpu_world) : Z * gpu_world * dague_gpu_context :=
  let in_elem := data t !! i ≫= data_in in
  let original := copy_original w in_elem in
  let gpu_elem := data t !! i ≫= data_out in
  let writes := negb (Z.land FLOW_ACCESS_WRITE type =? 0) in
  if writes && (0 <? copy_readers w gpu_elem) then
    (-86, warn w warn_write_with_readers, t)
  else
    let w := if writes then chop_replica w gpu_elem else w in
    let host := DAGUE_DATA_GET_COPY w original 0 in
    let '(t, in_elem) :=
      if negb (bool_decide (in_elem = host))
         && (copy_version w in_elem =? copy_version w host)
      then (set_data_in t i host, host)
      else (t, in_elem) in
    let '(transfer_from, w) :=
      dague_data_transfer_ownership_to_copy w original dev (type `mod` 256) in
    let w := set_required_data_in w (required_data_in w + data_nb_elts w original) in
    if transfer_from =? -1 then (0, w, t)
    else
      let m := {| dst := copy_private w gpu_elem; src := copy_private w in_elem;
                  count := data_nb_elts w original;
                  kind := cudaMemcpyHostToDevice |} in
      let w := issue_memcpy w m in
      if cudaMemcpyAsync m then
        let w := set_transferred_data_in w
                   (transferred_data_in w + data_nb_elts w original) in
        let v := copy_version w in_elem in
        let w := match gpu_elem with
                 | Some g =>
                     update_copy w g
                       (fun c => with_transfer DATA_STATUS_UNDER_TRANSFER
                                   (Some (ec t)) (with_version v c))
                 | None => w
                 end in
        (1, w, t)
      else (-1, warn w warn_memcpy_to_device, t).

(** *** [dague_gpu_kernel_push] *)

Fixpoint stage_in_loop (flows : list nat) (ret : Z) (w : gpu_world)
    (t : dague_gpu_context) : Z * gpu_world * dague_gpu_context :=
  match flows with
  | [] => (ret, w, t)
  | i :: rest =>
      if flow_flags_at t i =? 0 then stage_in_loop rest ret w t
      else
        let '(ret', w', t') := dague_gpu_data_stage_in (flow_flags_at t i) i t w in
        if ret' <? 0 then (ret', w', t')
        else stage_in_loop rest ret' w' t'
  end.

Definition dague_gpu_kernel_push (temp_loc0 : list (option Z)) (w : gpu_world)
    (t : dague_gpu_context) : Z * gpu_world * dague_gpu_context :=
  let '(ret, w, t) := dague_gpu_data_reserve_device_space temp_loc0 w t in
  if ret <? 0 then (ret, w, t)
  else stage_in_loop (seq 0 (nb_flows t)) ret w t.

(** The check of [progress_stream] on a task that completes on the stage-in
    stream: the loop over its flows, [false] when some data is not
    transferred yet. *)
Fixpoint stage_in_completed_loop (flows : list nat) (t : dague_gpu_context)
    (w : gpu_world) : gpu_world * bool :=
  match flows with
  | [] => (w, true)
  | i :: rest =>
      if flow_flags_at t i =? 0 then stage_in_completed_loop rest t w
      else
        match data t !! i ≫= data_out with
        | Some c =>
            match copies w !! c with
            | Some cp =>
                if bool_decide (push_task cp = Some (ec t)) then
                  stage_in_completed_loop rest t
                    (update_copy w c
                       (fun x => with_transfer DATA_STATUS_COMPLETE_TRANSFER
                                   (push_task x) x))
                else if bool_decide (data_transfer_status cp
                                     = DATA_STATUS_COMPLETE_TRANSFER)
                then stage_in_completed_loop rest t w
                else (w, false)
            | None => (w, false)
            end
        | None => (w, false)
        end
  end.

(** *** [dague_gpu_kernel_pop] *)

(** The copy of a replica back into the host replica of its datum. *)
Definition d2h_memcpy (w : gpu_world) (gpu_copy : Z) : memcpy :=
  let original := copy_original w (Some gpu_copy) in
  {| dst := copy_private w (DAGUE_DATA_GET_COPY w original 0);
     src := copy_private w (Some gpu_copy);
     count := data_nb_elts w original;
     kind := cudaMemcpyDeviceToHost |}.

(** Whether [this_task->function->out[i]->name], which the warning about a
    rejected copy prints, can be read: [ec->function] and its [out[i]] are
    not NULL. *)
Definition out_name_readable (t : dague_gpu_context) (i : nat) : bool :=
  match function_out t with
  | Some outs => default false (outs !! i)
  | None => false
  end.

(** The block run when the driver rejects the copy of flow [i]: the
    warning, which reads [this_task->function->out[i]->name], then
    [return_code = -2; goto release_and_return_error].  [None] stands for
    the dereference of a NULL pointer. *)
Definition copy_rejected (w : gpu_world) (t : dague_gpu_context) (i : nat)
    : option (Z * gpu_world * dague_gpu_context) :=
  if out_name_readable t i then Some (-2, warn w warn_memcpy_from_device, t)
  else None.

(** Whether the copy back can read [gpu_copy->original] and
    [original->device_copies[0]]: neither is NULL. *)
Definition d2h_readable (w : gpu_world) (gpu_copy : Z) : bool :=
  match DAGUE_DATA_GET_COPY w (copy_original w (Some gpu_copy)) 0 with
  | Some _ => true
  | None => false
  end.

(** The loop over the flows of a kernel task, [how_many] copies issued so
    far.  [None] stands for the dereference of a NULL pointer:
    [gpu_copy->original] is read through on every path, and the host
    replica when the copy back is issued. *)
Fixpoint pop_loop (flows : list nat) (how_many : Z) (w : gpu_world)
    (t : dague_gpu_context) : option (Z * gpu_world * dague_gpu_context) :=
  match flows with
  | [] => Some (how_many, w, t)
  | i :: rest =>
      match data t !! i ≫= data_out with
      | None => pop_loop rest how_many w t
      | Some gpu_copy =>
          let flags := flow_flags_at t i in
          let original := copy_original w (Some gpu_copy) in
          let reads := negb (Z.land flags FLOW_ACCESS_READ =? 0) in
          let writes := negb (Z.land flags FLOW_ACCESS_WRITE =? 0) in
          if bool_decide (original = None) then None
          else
          let t := if writes then t
                   else set_data_out t i (DAGUE_DATA_GET_COPY w original 0) in
          let w := if reads
                   then update_copy w gpu_copy
                          (fun c => with_readers (readers c - 1) c)
                   else w in
          if reads && (copy_readers w (Some gpu_copy) =? 0) && negb writes then
            let w := chop_replica w (Some gpu_copy) in
            pop_loop rest how_many
              (set_gpu_mem_lru w (dague_ulist_fifo_push (gpu_mem_lru w) gpu_copy)) t
          else if writes then
            let w := set_required_data_out w
                       (required_data_out w + data_nb_elts w original) in
            if default false (pushout t !! i) then
              if d2h_readable w gpu_copy then
                let m := d2h_memcpy w gpu_copy in
                let w := issue_memcpy w m in
                if cudaMemcpyAsync m then
                  pop_loop rest (how_many + 1)
                    (set_transferred_data_out w
                       (transferred_data_out w + data_nb_elts w original)) t
                else copy_rejected w t i
              else None
            else pop_loop rest how_many w t
          else pop_loop rest how_many w t
      end
  end.

(** [dague_gpu_kernel_pop]: a write-back task copies the replica of its
    first data slot ([for( i = 0; i < 1; i++ )]); it reads through
    [data[0].data_out], its [original] and the host replica unchecked.
    [None] stands for the dereference of a NULL pointer. *)
Definition dague_gpu_kernel_pop (w : gpu_world) (t : dague_gpu_context)
    : option (Z * gpu_world * dague_gpu_context) :=
  match task_type t with
  | GPU_TASK_TYPE_D2HTRANSFER =>
      match data t !! 0%nat ≫= data_out with
      | Some gpu_copy =>
          if d2h_readable w gpu_copy then
            let m := d2h_memcpy w gpu_copy in
            let w := issue_memcpy w m in
            if cudaMemcpyAsync m then Some (0, w, t)
            else copy_rejected w t 0
          else None
      | None => None
      end
  | GPU_TASK_TYPE_KERNEL => pop_loop (seq 0 (nb_flows t)) 0 w t
  end.

(** *** Write-back tasks: [dague_gpu_create_W2R_task], [dague_gpu_W2R_task_fini] *)

(** Where the local [item] points while [gpu_mem_owned_lru] is walked: into
    the list, with the items from it to the end, or at an item that was
    chopped out and is a ring of its own, whose [list_next] is itself. *)
Inductive cursor :=
  | in_list (rest : list Z)
  | chopped (item : Z).

(** [original->device_copies[0]->readers] for the datum of a replica. *)
Definition host_readers (w : gpu_world) (gpu_copy : Z) : Z :=
  copy_readers w (DAGUE_DATA_GET_COPY w (copy_original w (Some gpu_copy)) 0).

(** The [while( nb_cleaned < DAGUE_GPU_W2R_NB_MOVE_OUT )] loop, at most
    [fuel] iterations of it; [None] when they do not reach its exit.
    [slots] is [ec->data]. *)
Fixpoint w2r_collect (fuel : nat) (item : cursor) (nb_cleaned : nat)
    (slots : list dague_data_pair) (w : gpu_world)
    : option (gpu_world * list dague_data_pair * nat) :=
  match fuel with
  | O => None
  | S fuel' =>
      if DAGUE_GPU_W2R_NB_MOVE_OUT <=? Z.of_nat nb_cleaned
      then Some (w, slots, nb_cleaned)
      else
        match item with
        | in_list [] => Some (w, slots, nb_cleaned)
        | in_list (gpu_copy :: rest) =>
            if negb (copy_readers w (Some gpu_copy) =? 0)
               || negb (host_readers w gpu_copy =? 0)
            then w2r_collect fuel' (in_list rest) nb_cleaned slots w
            else
              let w := chop_replica w (Some gpu_copy) in
              let w := update_copy w gpu_copy
                         (fun c => with_readers (readers c + 1) c) in
              w2r_collect fuel' (chopped gpu_copy) (S nb_cleaned)
                (alter (fun dp => {| data_in := data_in dp;
                                     data_out := Some gpu_copy |})
                       nb_cleaned slots) w
        | chopped gpu_copy =>
            if negb (copy_readers w (Some gpu_copy) =? 0)
               || negb (host_readers w gpu_copy =? 0)
            then w2r_collect fuel' (chopped gpu_copy) nb_cleaned slots w
            else
              let w := chop_replica w (Some gpu_copy) in
              let w := update_copy w gpu_copy
                         (fun c => with_readers (readers c + 1) c) in
              w2r_collect fuel' (chopped gpu_copy) (S nb_cleaned)
                (alter (fun dp => {| data_in := data_in dp;
                                     data_out := Some gpu_copy |})
                       nb_cleaned slots) w
        end
  end.

(** [INT32_MAX]. *)
Definition INT32_MAX : Z := 2147483647.

(** [dague_gpu_create_W2R_task].  [mempool_ec] is the execution context that
    [dague_thread_mempool_allocate] hands out, with the content of its
    [data] array as the previous user left it.  [None] when [fuel]
    iterations of the walk are not enough; otherwise the new state and the
    task, if one is made. *)
Definition dague_gpu_create_W2R_task (fuel : nat)
    (mempool_ec : Z * list dague_data_pair) (w : gpu_world)
    : option (gpu_world * option dague_gpu_context) :=
  match w2r_collect fuel (in_list (gpu_mem_owned_lru w)) 0 mempool_ec.2 w with
  | None => None
  | Some (w', slots, nb_cleaned) =>
      match nb_cleaned with
      | O => Some (w', None)
      | S _ =>
          Some (w', Some {| ec := mempool_ec.1; nb_flows := 0; flow := [];
                            data := slots; pushout := [];
                            task_type := GPU_TASK_TYPE_D2HTRANSFER;
                            priority := INT32_MAX;
                            function_out := None |})
      end
  end.

(** The loop of [dague_gpu_W2R_task_fini] over the first
    [DAGUE_GPU_W2R_NB_MOVE_OUT] data slots, up to the first empty one. *)
Fixpoint w2r_fini_loop (slots : list dague_data_pair) (w : gpu_world)
    : gpu_world :=
  match slots with
  | [] => w
  | dp :: rest =>
      match data_out dp with
      | None => w
      | Some gpu_copy =>
          let w := update_copy w gpu_copy (with_coherency DATA_COHERENCY_SHARED) in
          let cpu_copy := DAGUE_DATA_GET_COPY w (copy_original w (Some gpu_copy)) 0 in
          let v := copy_version w (Some gpu_copy) in
          let w := match cpu_copy with
                   | Some c =>
                       update_copy w c
                         (fun x => with_version v
                                     (with_coherency DATA_COHERENCY_SHARED x))
                   | None => w
                   end in
          let w := set_gpu_mem_lru w
                     (dague_ulist_fifo_push (gpu_mem_lru w) gpu_copy) in
          let w := update_copy w gpu_copy
                     (fun c => with_readers (readers c - 1) c) in
          w2r_fini_loop rest w
      end
  end.

Definition dague_gpu_W2R_task_fini (w : gpu_world) (w2r_task : dague_gpu_context)
    : gpu_world :=
  w2r_fini_loop (take (Z.to_nat DAGUE_GPU_W2R_NB_MOVE_OUT) (data w2r_task)) w.

(** A replica as the owned list is meant to hold them: a live replica of a
    datum that has a host replica, other than itself. *)
Definition owned_replica_wf (w : gpu_world) (c : Z) : Prop :=
  exists cp m dm h hp,
    copies w !! c = Some cp /\ original cp = Some m
    /\ datas w !! m = Some dm /\ device_copies dm !! 0 = Some h
    /\ copies w !! h = Some hp /\ h <> c.

(** The state after a replica is taken out of its list and given one more
    reader. *)
Definition pin_replica (w : gpu_world) (c : Z) : gpu_world :=
  update_copy (chop_replica w (Some c)) c (fun x => with_readers (readers x + 1) x).

(** *** What a reservation relies on and maintains *)

(** The replicas that the flows of a task come in with. *)
Definition task_inputs (t : dague_gpu_context) : list Z :=
  omap data_in (take (nb_flows t) (data t)).

(** A well-formed call: the addresses in use are below the next one that
    [OBJ_NEW] hands out, and every flow that is not a CTL flow comes in with
    a live replica of a datum of the registry. *)
Definition reserve_wf (w : gpu_world) (t : dague_gpu_context) : Prop :=
  (forall c, is_Some (copies w !! c) -> c < next_obj w)
  /\ (forall m c, DAGUE_DATA_GET_COPY w (Some m) dev = Some c -> c < next_obj w)
  /\ (forall c, c ∈ task_inputs t -> c < next_obj w)
  /\ (forall i c, (data t !! i ≫= data_out) = Some c -> c < next_obj w)
  /\ (forall i, (i < nb_flows t)%nat -> flow_flags_at t i <> 0 ->
        exists m, task_master w t i = Some m /\ is_Some (datas w !! m)).

(** [w'] is [w] after replicas that belong to none of the data of
    [inputs] were evicted: no object is new, the replicas of [inputs] and
    the data they mirror are as they were, and the other data lost at most
    their replica on the device. *)
Definition evicted_from (inputs : list Z) (w w' : gpu_world) : Prop :=
  next_obj w' = next_obj w
  /\ (forall c, is_Some (copies w' !! c) -> is_Some (copies w !! c))
  /\ (forall c, c ∈ inputs -> copies w' !! c = copies w !! c)
  /\ (forall c m, c ∈ inputs -> copy_original w (Some c) = Some m ->
        datas w' !! m = datas w !! m)
  /\ (forall m, is_Some (datas w' !! m) <-> is_Some (datas w !! m))
  /\ (forall m c, DAGUE_DATA_GET_COPY w' (Some m) dev = Some c ->
        DAGUE_DATA_GET_COPY w (Some m) dev = Some c).

(** The state of the loop over the flows when the flows below [k] are
    done, for a call that started from [w] and [t]. *)
Definition reserve_inv (w : gpu_world) (t : dague_gpu_context) (k : nat)
    (st : gpu_world * dague_gpu_context * list (option Z)) : Prop :=
  let '(wi, ti, temp_loc) := st in
  nb_flows ti = nb_flows t /\ flow ti = flow t
  /\ data_in <$> data ti = data_in <$> data t
  /\ (forall j, (k <= j)%nat -> data ti !! j = data t !! j)
  /\ next_obj w <= next_obj wi
  /\ (forall c, is_Some (copies wi !! c) -> c < next_obj wi)
  /\ (forall m c, DAGUE_DATA_GET_COPY wi (Some m) dev = Some c -> c < next_obj wi)
  /\ (forall c, c ∈ task_inputs t -> copies wi !! c = copies w !! c)
  /\ (forall m, is_Some (datas wi !! m) <-> is_Some (datas w !! m))
  /\ (forall j, (j < k)%nat -> (j < nb_flows t)%nat -> flow_flags_at t j <> 0 ->
        exists c, (data ti !! j ≫= data_out) = Some c
                  /\ DAGUE_DATA_GET_COPY wi (task_master w t j) dev = Some c)
  /\ (forall m c, DAGUE_DATA_GET_COPY wi (Some m) dev = Some c ->
        next_obj w <= c ->
        exists j, (j < k)%nat /\ temp_loc !! j = Some (Some c))
  /\ (nb_flows t <= length temp_loc)%nat.

(** What a call that returns -2 leaves: every replica made in this call for
    a flow is in the free list, and is still the replica of the datum of
    that flow on the device. *)
Definition pushed_back (w : gpu_world) (t : dague_gpu_context)
    (w' : gpu_world) (t' : dague_gpu_context) : Prop :=
  forall i c,
    (i < nb_flows t)%nat -> flow_flags_at t i <> 0 ->
    (data t' !! i ≫= data_out) = Some c ->
    next_obj w <= c ->
    c ∈ gpu_mem_lru w'
    /\ DAGUE_DATA_GET_COPY w' (task_master w t i) dev = Some c.

(** What the loop over the flows keeps, besides [reserve_inv], when the
    flows below [k] are done: the entries of [temp_loc] (those of CTL flows
    are never written), the replicas of the task's data (those the data had
    at the start are kept, the new ones hold a block), the items of the free
    list, and the fate of the replicas that could be evicted. *)
Definition reserve_kept (temp_loc0 : list (option Z)) (w : gpu_world)
    (t : dague_gpu_context) (k : nat)
    (st : gpu_world * dague_gpu_context * list (option Z)) : Prop :=
  let '(wi, ti, temp_loc) := st in
  (forall j, (k <= j)%nat -> temp_loc !! j = temp_loc0 !! j)
  /\ (forall j, (j < k)%nat -> flow_flags_at t j = 0 ->
        temp_loc !! j = temp_loc0 !! j)
  /\ (forall j c, (j < k)%nat -> flow_flags_at t j <> 0 ->
        temp_loc !! j = Some (Some c) ->
        next_obj w <= c /\ (data ti !! j ≫= data_out) = Some c)
  /\ (forall j c, (j < nb_flows t)%nat ->
        DAGUE_DATA_GET_COPY w (task_master w t j) dev = Some c ->
        DAGUE_DATA_GET_COPY wi (task_master w t j) dev = Some c)
  /\ (forall m c, DAGUE_DATA_GET_COPY wi (Some m) dev = Some c ->
        c < next_obj w ->
        DAGUE_DATA_GET_COPY w (Some m) dev = Some c)
  /\ (forall m c, DAGUE_DATA_GET_COPY wi (Some m) dev = Some c ->
        next_obj w <= c ->
        is_Some (copy_private wi (Some c))
        /\ copy_original wi (Some c) = Some m
        /\ is_task_data w t (Some m) = true)
  /\ (forall c, c ∈ gpu_mem_lru wi -> c < next_obj wi)
  /\ (forall v, is_Some (copies w !! v) -> v ∈ gpu_mem_lru w ->
        copy_readers w (Some v) = 0 ->
        is_task_data w t (copy_original w (Some v)) = false ->
        (v ∈ gpu_mem_lru wi /\ copies wi !! v = copies w !! v)
        \/ (copies wi !! v = None
            /\ DAGUE_DATA_GET_COPY wi (copy_original w (Some v)) dev <> Some v)).

(** What a call that gives up at the flow [k] leaves. *)
Definition reserve_gave_up (temp_loc0 : list (option Z)) (w : gpu_world)
    (t : dague_gpu_context) (k : nat) (w' : gpu_world)
    (t' : dague_gpu_context) : Prop :=
  (k < nb_flows t)%nat /\ flow_flags_at t k <> 0
  /\ (data t' !! k ≫= data_out) = None
  /\ DAGUE_DATA_GET_COPY w' (task_master w t k) dev = None
  /\ zone_malloc (memory w') (data_nb_elts w' (task_master w t k)) = None
  /\ (forall c, c ∈ gpu_mem_lru w' ->
        (exists j, (j < k)%nat /\ flow_flags_at t j <> 0
                   /\ (data t' !! j ≫= data_out) = Some c /\ next_obj w <= c)
        \/ (exists j, (j < k)%nat /\ flow_flags_at t j = 0
                      /\ temp_loc0 !! j = Some (Some c)))
  /\ (forall j c, (j < k)%nat -> flow_flags_at t j = 0 ->
        temp_loc0 !! j = Some (Some c) -> c ∈ gpu_mem_lru w')
  /\ (forall j, (j < k)%nat -> flow_flags_at t j <> 0 ->
        exists c,
          (data t' !! j ≫= data_out) = Some c
          /\ DAGUE_DATA_GET_COPY w' (task_master w t j) dev = Some c
          /\ (forall c0, DAGUE_DATA_GET_COPY w (task_master w t j) dev = Some c0 ->
                c = c0)
          /\ (DAGUE_DATA_GET_COPY w (task_master w t j) dev = None ->
                next_obj w <= c /\ c ∈ gpu_mem_lru w'
                /\ is_Some (copy_private w' (Some c))
                /\ copy_original w' (Some c) = task_master w t j))
  /\ (forall j, (k < j)%nat -> data t' !! j = data t !! j)
  /\ (forall v, is_Some (copies w !! v) -> v ∈ gpu_mem_lru w ->
        copy_readers w (Some v) = 0 ->
        is_task_data w t (copy_original w (Some v)) = false ->
        copies w' !! v = None
        /\ DAGUE_DATA_GET_COPY w' (copy_original w (Some v)) dev <> Some v).

(** *** The launch functions, as [progress_stream] calls them *)

(** The device as the stream pipeline sees it: the memory state and the
    task objects, by address. *)
Definition device_state : Type := gpu_world * gmap Z dague_gpu_context.

(** Running a launch function on the task object at an address.  A launch
    on an address that holds no task is a critical failure. *)
Definition on_task
    (f : gpu_world -> dague_gpu_context -> Z * gpu_world * dague_gpu_context)
    : device_state -> Z -> Z * device_state :=
  fun d task =>
    match d.2 !! task with
    | Some t =>
        let '(r, w', t') := f d.1 t in
        (r, (w', <[task := t']> d.2))
    | None => (-1, d)
    end.

Definition push_fct (temp_loc0 : list (option Z))
    : device_state -> Z -> Z * device_state :=
  on_task (dague_gpu_kernel_push temp_loc0).

(** The stage-out launch; [None] when [dague_gpu_kernel_pop] dereferences
    a NULL pointer. *)
Definition pop_fct (d : device_state) (task : Z) : option (Z * device_state) :=
  match d.2 !! task with
  | Some t =>
      '(r, w', t') ← dague_gpu_kernel_pop d.1 t;
      Some (r, (w', <[task := t']> d.2))
  | None => Some (-1, d)
  end.

Definition stage_in_completed (d : device_state) (task : Z)
    : device_state * bool :=
  match d.2 !! task with
  | Some t =>
      let '(w', ready) := stage_in_completed_loop (seq 0 (nb_flows t)) t d.1 in
      ((w', d.2), ready)
  | None => (d, false)
  end.

End Device.

End Memory.

(** ** A slab allocator to run the model on *)

(** Modelled from the spec: the zone allocator, "fixed-slab suballocator
    carving one large device allocation into equal-size blocks", for
    requests of at most one block: the state is the list of the free blocks,
    [alloc] takes the first one and [free] gives a block back. *)
Module Slab.

Definition zone_malloc (free : list Z) (size : Z) : option (Z * list Z) :=
  match free with
  | [] => None
  | block :: rest => Some (block, rest)
  end.

Definition zone_free (free : list Z) (block : Z) : list Z := block :: free.

End Slab.

(** ** Concrete states *)

(** Small device states on which the model is run: device 2, the slab
    allocator, READ = 1 and WRITE = 2 as access flags, a driver that accepts
    every copy, and a registry that always asks for a copy from the host. *)
Module Scenario.

Import Memory.

Definition replica (datum device : Z) (storage : Z) (state : coherency)
    (status : transfer_status) (nreaders : Z) : dague_data_copy :=
  {| original := Some datum; device_index := device;
     device_private := Some storage; version := 1;
     coherency_state := state; data_transfer_status := status;
     readers := nreaders; push_task := None |}.

Definition host_replica (datum storage : Z) : dague_data_copy :=
  replica datum 0 storage DATA_COHERENCY_SHARED DATA_STATUS_NOT_TRANSFER 0.

Definition datum (replicas : gmap Z Z) (owner : Z) : dague_data :=
  {| device_copies := replicas; owner_device := owner; nb_elts := 32 |}.

Definition world (cs : gmap Z dague_data_copy) (ds : gmap Z dague_data)
    (next : Z) (lru owned free : list Z) : @gpu_world (list Z) :=
  {| copies := cs; datas := ds; next_obj := next;
     gpu_mem_lru := lru; gpu_mem_owned_lru := owned; memory := free;
     required_data_in := 0; transferred_data_in := 0;
     required_data_out := 0; transferred_data_out := 0;
     memcpys := []; warnings := [] |}.

Definition kernel_task (context : Z) (flags : list Z) (inputs : list Z)
    : dague_gpu_context :=
  {| ec := context; nb_flows := length flags; flow := flags;
     data := (fun c => {| data_in := Some c; data_out := None |}) <$> inputs;
     pushout := (fun _ => true) <$> flags;
     task_type := GPU_TASK_TYPE_KERNEL; priority := 0;
     function_out := Some ((fun _ => true) <$> flags) |}.

Definition always_from_host (w : @gpu_world (list Z)) (m : option Z)
    (device type : Z) : Z * @gpu_world (list Z) := (0, w).

Definition reserve :=
  dague_gpu_data_reserve_device_space Slab.zone_malloc Slab.zone_free 2.

Definition kernel_push :=
  dague_gpu_kernel_push Slab.zone_malloc Slab.zone_free 2 2 (fun _ => true)
    always_from_host.

Definition push_fct :=
  Memory.push_fct Slab.zone_malloc Slab.zone_free 2 2 (fun _ => true)
    always_from_host.

Definition idle_stream : Stream.exec_stream :=
  {| Stream.max_events := 4; Stream.tasks := [None; None; None; None];
     Stream.start := 0; Stream.end_ := 0;
     Stream.fifo_pending := []; Stream.recorded := [] |}.

(** Datum 100 has its host replica 10 and, on the device, replica 20,
    which a task is reading. *)
Definition read_world : @gpu_world (list Z) :=
  world {[ 10 := host_replica 100 1000;
           20 := replica 100 2 5000 DATA_COHERENCY_SHARED
                   DATA_STATUS_COMPLETE_TRANSFER 1 ]}
        {[ 100 := datum {[ 0 := 10; 2 := 20 ]} 0 ]}
        21 [] [] [].

(** A task, at address 1, with one READ|WRITE flow on datum 100. *)
Definition writer : dague_gpu_context := kernel_task 7 [3] [10].

(** Two dirty replicas, 20 and 21, of the data 100 and 101, in the owned
    list, with no reader on either side. *)
Definition dirty_world : @gpu_world (list Z) :=
  world {[ 10 := replica 100 0 1000 DATA_COHERENCY_INVALID
                   DATA_STATUS_NOT_TRANSFER 0;
           11 := replica 101 0 1100 DATA_COHERENCY_INVALID
                   DATA_STATUS_NOT_TRANSFER 0;
           20 := with_version 2
                   (replica 100 2 5000 DATA_COHERENCY_OWNED
                      DATA_STATUS_COMPLETE_TRANSFER 0);
           21 := with_version 2
                   (replica 101 2 5100 DATA_COHERENCY_OWNED
                      DATA_STATUS_COMPLETE_TRANSFER 0) ]}
        {[ 100 := datum {[ 0 := 10; 2 := 20 ]} 2;
           101 := datum {[ 0 := 11; 2 := 21 ]} 2 ]}
        22 [] [20; 21] [].

(** A pool of one free block, an empty free list, and the data 100 and 101
    on the host only. *)
Definition one_block_world : @gpu_world (list Z) :=
  world {[ 10 := host_replica 100 1000; 11 := host_replica 101 1100 ]}
        {[ 100 := datum {[ 0 := 10 ]} 0; 101 := datum {[ 0 := 11 ]} 0 ]}
        20 [] [] [5000].

(** A task that reads the data 100 and 101. *)
Definition two_inputs : dague_gpu_context := kernel_task 7 [1; 1] [10; 11].

(** A full pool: replica 20 of datum 100 has a reader, replica 21 of datum
    101 has none, both are in the free list, and datum 102 is on the host
    only. *)
Definition full_world : @gpu_world (list Z) :=
  world {[ 10 := host_replica 100 1000; 11 := host_replica 101 1100;
           12 := host_replica 102 1200;
           20 := replica 100 2 5000 DATA_COHERENCY_SHARED
                   DATA_STATUS_COMPLETE_TRANSFER 1;
           21 := replica 101 2 5100 DATA_COHERENCY_SHARED
                   DATA_STATUS_COMPLETE_TRANSFER 0 ]}
        {[ 100 := datum {[ 0 := 10; 2 := 20 ]} 0;
           101 := datum {[ 0 := 11; 2 := 21 ]} 0;
           102 := datum {[ 0 := 12 ]} 0 ]}
        22 [20; 21] [] [].

(** A task that reads datum 102. *)
Definition one_input : dague_gpu_context := kernel_task 7 [1] [12].

End Scenario.

(** ** Sorting the pending tasks: [dague_gpu_sort_pending_list] *)

Module PendingSort.

Import DagueList Memory.

(** The fields of the intrusive ring (list.h and list_item.h are not among
    the sources), read on the sequence of the items of a list.  Modelled
    from the spec: "Intrusive doubly-linked rings with a sentinel".  The
    sentinel ([ghost_element]) is [None]. *)

(** [list->ghost_element.list_next]. *)
Definition ghost_next (l : list Z) : option Z := head l.

(** [item->list_next] for an item of the list. *)
Fixpoint item_next (l : list Z) (item : Z) : option Z :=
  match l with
  | [] => None
  | x :: rest => if bool_decide (x = item) then head rest else item_next rest item
  end.

(** [item->list_prev] for an item of the list; [prev] is what comes before
    [l]. *)
Fixpoint item_prev_from (prev : option Z) (l : list Z) (item : Z) : option Z :=
  match l with
  | [] => None
  | x :: rest =>
      if bool_decide (x = item) then prev else item_prev_from (Some x) rest item
  end.

Definition item_prev (l : list Z) (item : Z) : option Z :=
  item_prev_from None l item.

(** [dague_list_nolock_add_after(list, position, new)]. *)
Fixpoint add_after_item (l : list Z) (position new : Z) : list Z :=
  match l with
  | [] => []
  | x :: rest =>
      if bool_decide (x = position) then x :: new :: rest
      else x :: add_after_item rest position new
  end.

Definition dague_list_nolock_add_after (l : list Z) (position : option Z)
    (new : Z) : list Z :=
  match position with
  | None => new :: l
  | Some x => add_after_item l x new
  end.

(** Modelled from the spec: [dague_list_nolock_contains], "contains". *)
Definition dague_list_nolock_contains (l : list Z) (item : Z) : bool :=
  bool_decide (item ∈ l).

Definition dague_list_nolock_is_empty (l : list Z) : bool :=
  match l with [] => true | _ => false end.

Section CheckSpace.

Context {zone : Type}.
Variable dev : Z.
Variable FLOW_ACCESS_READ : Z.

(** The loop of [dague_gpu_check_space_needed] over the flows. *)
Fixpoint space_loop (flows : list nat) (w : @gpu_world zone)
    (t : dague_gpu_context) (space_needed : Z) : Z :=
  match flows with
  | [] => space_needed
  | i :: rest =>
      if flow_flags_at t i =? 0 then space_loop rest w t space_needed
      else
        match DAGUE_DATA_GET_COPY w (task_master w t i) dev with
        | Some _ => space_loop rest w t space_needed
        | None =>
            if negb (Z.land (flow_flags_at t i) FLOW_ACCESS_READ =? 0)
            then space_loop rest w t (space_needed + 1)
            else space_loop rest w t space_needed
        end
  end.

(** [dague_gpu_check_space_needed]. *)
Definition dague_gpu_check_space_needed (w : @gpu_world zone)
    (t : dague_gpu_context) : Z :=
  space_loop (seq 0 (nb_flows t)) w t 0.

(** The flows that [dague_gpu_check_space_needed] counts: the READ flows
    whose datum has no replica on the device. *)
Definition missing_read_flow (w : @gpu_world zone) (t : dague_gpu_context)
    (i : nat) : bool :=
  negb (flow_flags_at t i =? 0)
  && bool_decide (DAGUE_DATA_GET_COPY w (task_master w t i) dev = None)
  && negb (Z.land (flow_flags_at t i) FLOW_ACCESS_READ =? 0).

(** The key of a pending task, by the address of its envelope.  An address
    that holds no task reads as 0. *)
Definition task_space (d : @device_state zone) (item : Z) : Z :=
  match d.2 !! item with
  | Some t => dague_gpu_check_space_needed d.1 t
  | None => 0
  end.

End CheckSpace.

Section Sort.

(** [dague_gpu_check_space_needed] on the task envelope that an item of the
    list is. *)
Variable space_needed : Z -> Z.

(** The inner loop [for (j = i+1; j < NB_SORT; j++)], [n] iterations of it
    being left: [q] walks the list and [min_p] is the first item of least
    key met so far. *)
Fixpoint scan_min (n : nat) (l : list Z) (q : option Z) (min_p : Z)
    (space_min : Z) : Z :=
  match n with
  | O => min_p
  | S n' =>
      match q with
      | None => min_p
      | Some q' =>
          let space_q := space_needed q' in
          if space_min >? space_q
          then scan_min n' l (item_next l q') q' space_q
          else scan_min n' l (item_next l q') min_p space_min
      end
  end.

(** The outer loop [for (i = 0; i < NB_SORT; i++)], [n] iterations of it
    being left. *)
Fixpoint sort_loop (n : nat) (l : list Z) (p : option Z) : list Z :=
  match n with
  | O => l
  | S n' =>
      match p with
      | None => l
      | Some p' =>
          let min_p := scan_min n' l (item_next l p') p' (space_needed p') in
          let l :=
            if bool_decide (min_p ≠ p') then
              let l := dague_list_item_ring_chop l min_p in
              let prev_p := item_prev l p' in
              dague_list_nolock_add_after l prev_p min_p
            else l in
          sort_loop n' l (item_next l min_p)
      end
  end.

Definition NB_SORT : nat := 10.

(** [dague_gpu_sort_pending_list] ([lock_required] is 0): [sort_list] is
    [exec_stream[0].fifo_pending].  Returns the list and the new
    [gpu_device->sort_starting_p]. *)
Definition dague_gpu_sort_pending_list (sort_list : list Z)
    (sort_starting_p : option Z) : list Z * option Z :=
  if dague_list_nolock_is_empty sort_list then (sort_list, sort_starting_p)
  else
    let sort_starting_p :=
      match sort_starting_p with
      | None => ghost_next sort_list
      | Some p =>
          if dague_list_nolock_contains sort_list p then Some p
          else ghost_next sort_list
      end in
    (sort_loop NB_SORT sort_list sort_starting_p, sort_starting_p).

(** The position in the list at which a call starts to sort: that of
    [sort_starting_p] when it points into the list, the head otherwise. *)
Definition start_index (l : list Z) (sort_starting_p : option Z) : nat :=
  match sort_starting_p with
  | Some p =>
      match list_find (fun x => x = p) l with
      | Some (i, _) => i
      | None => 0%nat
      end
  | None => 0%nat
  end.

(** The first item of least key among [p] and the first [n] items of
    [rest]. *)
Fixpoint first_min (n : nat) (rest : list Z) (min_p : Z) : Z :=
  match n, rest with
  | S n', q :: rest' =>
      if space_needed min_p >? space_needed q then first_min n' rest' q
      else first_min n' rest' min_p
  | _, _ => min_p
  end.

(** Selection sort of the first [n] items of a sequence. *)
Fixpoint select_sort (n : nat) (after : list Z) : list Z :=
  match n, after with
  | S n', p :: rest =>
      let m := first_min n' rest p in
      if bool_decide (m = p) then p :: select_sort n' rest
      else m :: select_sort n' (p :: dague_list_item_ring_chop rest m)
  | _, _ => after
  end.

(** In non-decreasing order of the key. *)
Definition sorted_by_space (l : list Z) : Prop :=
  forall (i j : nat) (x y : Z),
    (i <= j)%nat -> l !! i = Some x -> l !! j = Some y ->
    space_needed x <= space_needed y.

End Sort.

End PendingSort.

(** ** Completion of a kernel task: [dague_gpu_kernel_epilog] *)

Module Epilog.

Import DagueList Memory.

Section Device.

Context {zone : Type}.
Variable FLOW_ACCESS_WRITE : Z.

(** The loop of [dague_gpu_kernel_epilog] over the flows.  [None] stands
    for the dereference of a NULL pointer: [original] and the host replica
    [original->device_copies[0]] are read through unchecked.  The assertion
    on the coherency state is not modelled, and [version], whose type is in
    a header that is not among the sources, does not wrap. *)
Fixpoint epilog_loop (flows : list nat) (w : @gpu_world zone)
    (t : dague_gpu_context) : option (@gpu_world zone * dague_gpu_context) :=
  match flows with
  | [] => Some (w, t)
  | i :: rest =>
      match data t !! i ≫= data_out with
      | None => epilog_loop rest w t
      | Some gpu_copy =>
          if Z.land (flow_flags_at t i) FLOW_ACCESS_WRITE =? 0
          then epilog_loop rest w t
          else
            match DAGUE_DATA_GET_COPY w (copy_original w (Some gpu_copy)) 0 with
            | None => None
            | Some cpu_copy =>
                let w := update_copy w gpu_copy
                           (with_coherency DATA_COHERENCY_SHARED) in
                let w := update_copy w cpu_copy
                           (with_coherency DATA_COHERENCY_SHARED) in
                let w := update_copy w cpu_copy
                           (with_version (copy_version w (Some gpu_copy))) in
                let w := update_copy w gpu_copy
                           (fun c => with_version (version c + 1) c) in
                let t := set_data_out t i (Some cpu_copy) in
                let w :=
                  if default false (pushout t !! i)
                  then set_gpu_mem_lru w
                         (dague_ulist_fifo_push (gpu_mem_lru w) gpu_copy)
                  else set_gpu_mem_owned_lru w
                         (dague_ulist_fifo_push (gpu_mem_owned_lru w) gpu_copy) in
                epilog_loop rest w t
            end
      end
  end.

(** [dague_gpu_kernel_epilog]; it returns 0 when it returns. *)
Definition dague_gpu_kernel_epilog (w : @gpu_world zone) (t : dague_gpu_context)
    : option (Z * @gpu_world zone * dague_gpu_context) :=
  '(w', t') ← epilog_loop (seq 0 (nb_flows t)) w t;
  Some (0, w', t').

(** The replica that the epilog puts into a list for the flow [i]: the
    [data_out] of a flow that is written, into the free list when [pushout]
    is set ([to_free]), into the owned list otherwise. *)
Definition requeued (t : dague_gpu_context) (to_free : bool) (i : nat)
    : option Z :=
  if negb (Z.land (flow_flags_at t i) FLOW_ACCESS_WRITE =? 0)
     && eqb (default false (pushout t !! i)) to_free
  then data t !! i ≫= data_out
  else None.

End Device.

End Epilog.

(** ** Reserving and releasing the memory of a device *)

Module DeviceMemory.

Import DagueList Memory.

(** [size_t] and [uint32_t] arithmetic. *)
Definition SIZE_MAX1 : Z := 2 ^ 64.
Definition to_size_t (z : Z) : Z := z mod SIZE_MAX1.
Definition to_uint32 (z : Z) : Z := z mod 2 ^ 32.

Inductive reserve_result :=
  | DAGUE_ERROR
  | DAGUE_SUCCESS (kept_zone : bool) (mem_elem_per_gpu total_size : Z).

(** The sizing of [dague_cuda_memory_reserve], compiled for the zone
    allocator.  [initial_free_mem] is what [cudaMemGetInfo] reports,
    [has_memory] tells whether [gpu_device->memory] is already set, and
    [zone_init_ok] whether [zone_malloc_init] returns a zone.  A success
    carries the number of segments and the size asked of [cudaMalloc]
    ([kept_zone] when the zone was there already and nothing is
    allocated).  [None] stands for the division by an [eltsize] of 0. *)
Definition dague_cuda_memory_reserve (memory_percentage number_blocks : Z)
    (eltsize initial_free_mem : Z) (has_memory : bool)
    (zone_init_ok : Z -> Z -> bool) : option reserve_result :=
  if (negb (number_blocks =? -1)) && (number_blocks =? 0) then Some DAGUE_ERROR
  else
    let how_much_we_allocate :=
      if negb (number_blocks =? -1)
      then to_size_t (to_size_t number_blocks * eltsize)
      else to_size_t (to_size_t memory_percentage * initial_free_mem) / 100 in
    let how_much_we_allocate :=
      if how_much_we_allocate >? initial_free_mem then initial_free_mem
      else how_much_we_allocate in
    if how_much_we_allocate <? eltsize then Some DAGUE_ERROR
    else if has_memory then Some (DAGUE_SUCCESS true 0 0)
    else if eltsize =? 0 then None
    else
      let mem_elem_per_gpu :=
        to_uint32 (to_size_t (how_much_we_allocate + eltsize - 1) / eltsize) in
      let total_size := to_size_t (mem_elem_per_gpu * eltsize) in
      if zone_init_ok mem_elem_per_gpu eltsize
      then Some (DAGUE_SUCCESS false mem_elem_per_gpu total_size)
      else Some DAGUE_ERROR.

Section Release.

Context {zone : Type}.
Variable zone_free : zone -> Z -> zone.

(** [dague_cuda_memory_release_list]: the items of the list are popped one
    by one, their block is given back to the zone and their
    [device_private] reset.  The replicas that are still OWNED get a warning
    that reads [original->key]: [None] stands for the dereference of a NULL
    [original]; [warned] collects these replicas. *)
Fixpoint release_loop (l : list Z) (w : @gpu_world zone) (warned : list Z)
    : option (@gpu_world zone * list Z) :=
  match l with
  | [] => Some (w, warned)
  | gpu_copy :: rest =>
      let owned :=
        bool_decide (coherency_state <$> copies w !! gpu_copy
                     = Some DATA_COHERENCY_OWNED) in
      if owned && bool_decide (copy_original w (Some gpu_copy) = None) then None
      else
        let warned := if owned then warned ++ [gpu_copy] else warned in
        let w := free_private zone_free w (copy_private w (Some gpu_copy)) in
        let w := update_copy w gpu_copy (with_private None) in
        release_loop rest w warned
  end.

(** The two calls of [dague_cuda_memory_release], on the free list and then
    on the owned list; both lists are left empty. *)
Definition dague_cuda_memory_release_lists (w : @gpu_world zone)
    : option (@gpu_world zone * list Z) :=
  '(w1, warned) ← release_loop (gpu_mem_lru w) (set_gpu_mem_lru w []) [];
  release_loop (gpu_mem_owned_lru w1) (set_gpu_mem_owned_lru w1 []) warned.

End Release.

End DeviceMemory.

(** ** The stack of work buffers of a stream *)

Module Workspace.

Section Stack.

Context {zone : Type}.
Variable zone_malloc : zone -> Z -> option (Z * zone).

(** [DAGUE_GPU_MAX_WORKSPACE], from dev_cuda.h, which is not among the
    sources. *)
Variable DAGUE_GPU_MAX_WORKSPACE : nat.

(** [dague_gpu_workspace_t]; a buffer that [zone_malloc] could not give is
    NULL. *)
Record dague_gpu_workspace := {
  workspace : list (option Z);
  stack_head : Z;
  total_workspace : Z
}.

(** The loop that fills [workspace[i]], [n] buffers being left to ask
    for. *)
Fixpoint fill_workspace (n : nat) (memory : zone) (size : Z)
    : list (option Z) * zone :=
  match n with
  | O => ([], memory)
  | S n' =>
      match zone_malloc memory size with
      | Some (p, z) =>
          let '(l, z') := fill_workspace n' z size in (Some p :: l, z')
      | None =>
          let '(l, z') := fill_workspace n' memory size in (None :: l, z')
      end
  end.

(** [dague_gpu_pop_workspace], compiled for the zone allocator, on
    [gpu_stream->workspace] (NULL before the first call) and
    [gpu_device->memory]: the buffer handed out, the stack and the zone.
    [None] stands for the failed assertion on [stack_head], that is a read
    outside the array. *)
Definition dague_gpu_pop_workspace (ws : option dague_gpu_workspace)
    (memory : zone) (size : Z)
    : option (option Z * dague_gpu_workspace * zone) :=
  let '(s, memory) :=
    match ws with
    | Some s => (s, memory)
    | None =>
        let '(l, z) := fill_workspace DAGUE_GPU_MAX_WORKSPACE memory size in
        ({| workspace := l;
            stack_head := Z.of_nat DAGUE_GPU_MAX_WORKSPACE - 1;
            total_workspace := Z.of_nat DAGUE_GPU_MAX_WORKSPACE |}, z)
    end in
  if stack_head s <? 0 then None
  else
    match workspace s !! Z.to_nat (stack_head s) with
    | Some work =>
        Some (work,
              {| workspace := workspace s; stack_head := stack_head s - 1;
                 total_workspace := total_workspace s |},
              memory)
    | None => None
    end.

(** [dague_gpu_push_workspace]; [None] for the dereference of a NULL
    [gpu_stream->workspace]. *)
Definition dague_gpu_push_workspace (ws : option dague_gpu_workspace)
    : option (Z * dague_gpu_workspace) :=
  match ws with
  | Some s =>
      Some (0, {| workspace := workspace s; stack_head := stack_head s + 1;
                  total_workspace := total_workspace s |})
  | None => None
  end.

(** [n] calls of [dague_gpu_pop_workspace] in a row, with the buffers they
    hand out, first call first. *)
Fixpoint pop_n (n : nat) (ws : option dague_gpu_workspace) (memory : zone)
    (size : Z)
    : option (list (option Z) * option dague_gpu_workspace * zone) :=
  match n with
  | O => Some ([], ws, memory)
  | S n' =>
      match dague_gpu_pop_workspace ws memory size with
      | None => None
      | Some (work, s, memory') =>
          match pop_n n' (Some s) memory' size with
          | None => None
          | Some (l, ws', memory'') => Some (work :: l, ws', memory'')
          end
      end
  end.

End Stack.

End Workspace.

(** * Properties *)

(** ** Device bring-up *)

Section InitProps.

Import Init.

Variable check_error_continue_skips : bool.

Lemma init_device_return (cuda_mask i : Z) (q : cuda_device_query)
    (added : list gpu_device) (r : Z) :
  init_device check_error_continue_skips cuda_mask i q added = inr r -> r = -1.
Proof.
  unfold init_device.
  repeat case_match; congruence.
Qed.

Lemma init_device_added (cuda_mask i : Z) (q : cuda_device_query)
    (added added' : list gpu_device) :
  init_device check_error_continue_skips cuda_mask i q added = inl added' ->
  Forall (fun d => cuda_index d <= i) added ->
  Forall (fun d => cuda_index d <= i) added'.
Proof.
  unfold init_device. intros H Hall.
  repeat case_match; simplify_eq; try done.
  apply Forall_app; split; [done|].
  constructor; [simpl; lia | constructor].
Qed.

Lemma init_device_unsupported (cuda_mask i : Z) (q : cuda_device_query)
    (added : list gpu_device) :
  Z.land (Z.shiftl 1 i) cuda_mask <> 0 ->
  set_device_ok q = true ->
  get_props_ok q = true ->
  dague_cuda_lookup_device_cudacores (prop_major q) (prop_minor q) = None ->
  init_device check_error_continue_skips cuda_mask i q added = inr (-1).
Proof.
  intros Hmask Hset Hget Hcores. unfold init_device.
  rewrite Hset, Hget, Hcores. simpl.
  destruct (Z.eqb_spec (Z.land (Z.shiftl 1 i) cuda_mask) 0); [contradiction | done].
Qed.

(** The loop stops, with -1, at the first device it cannot size, and the
    devices registered by then all come before it. *)
Lemma init_loop_unsupported (cuda_mask : Z) (qs : list cuda_device_query) :
  forall (k : nat) (q : cuda_device_query) (i : Z) (added : list gpu_device),
    qs !! k = Some q ->
    Z.land (Z.shiftl 1 (i + Z.of_nat k)) cuda_mask <> 0 ->
    set_device_ok q = true ->
    get_props_ok q = true ->
    dague_cuda_lookup_device_cudacores (prop_major q) (prop_minor q) = None ->
    Forall (fun d => cuda_index d < i) added ->
    (init_loop check_error_continue_skips cuda_mask i qs added).2 = -1
    /\ Forall (fun d => cuda_index d < i + Z.of_nat k)
              (init_loop check_error_continue_skips cuda_mask i qs added).1.
Proof.
  induction qs as [|q0 qs IH]; intros k q i added Hk Hmask Hset Hget Hcores Hadded.
  - done.
  - destruct k as [|k]; simpl in Hk.
    + simplify_eq. simpl.
      rewrite init_device_unsupported by (try done; by rewrite Z.add_0_r in Hmask).
      simpl. split; [done|]. by rewrite Z.add_0_r.
    + simpl.
      destruct (init_device _ cuda_mask i q0 added) as [added'|r] eqn:Hdev.
      * assert (Forall (fun d => cuda_index d < i + 1) added') as Hadded'.
        { eapply Forall_impl;
            [eapply init_device_added; [exact Hdev|]|simpl; intros; lia].
          eapply Forall_impl; [exact Hadded | simpl; intros; lia]. }
        destruct (IH k q (i + 1) added' Hk) as [Hrc Hdevs]; try done.
        { by replace (i + 1 + Z.of_nat k) with (i + Z.of_nat (S k)) by lia. }
        split; [done|].
        eapply Forall_impl; [exact Hdevs | simpl; intros; lia].
      * apply init_device_return in Hdev. subst r. simpl. split; [done|].
        eapply Forall_impl; [exact Hadded | simpl; intros; lia].
Qed.

(** The capabilities [dague_cuda_lookup_device_cudacores] rejects. *)
Lemma lookup_cudacores_unsupported (major minor : Z) :
  (major <> 1 /\ major <> 2 /\ major <> 3)
  \/ (major = 2 /\ minor <> 0 /\ minor <> 1) <->
  dague_cuda_lookup_device_cudacores major minor = None.
Proof.
  unfold dague_cuda_lookup_device_cudacores.
  destruct (Z.eqb_spec major 1), (Z.eqb_spec major 2), (Z.eqb_spec major 3),
    (Z.eqb_spec minor 0), (Z.eqb_spec minor 1); simpl; split; intros H;
    try done; try lia.
Qed.

(** When the loop stops at a device, what it leaves registered is what its
    iterations before that device registered. *)
Lemma init_loop_abort_prefix (cuda_mask : Z) (qs : list cuda_device_query) :
  forall (k : nat) (q : cuda_device_query) (i : Z) (added : list gpu_device),
    qs !! k = Some q ->
    (forall a, init_device check_error_continue_skips cuda_mask
                 (i + Z.of_nat k) q a = inr (-1)) ->
    init_loop check_error_continue_skips cuda_mask i qs added
    = ((init_loop check_error_continue_skips cuda_mask i (take k qs) added).1, -1).
Proof.
  induction qs as [|q0 qs IH]; intros k q i added Hk Hstop; [done|].
  destruct k as [|k]; simpl in Hk.
  - simplify_eq. simpl. rewrite Z.add_0_r in Hstop. by rewrite Hstop.
  - simpl.
    destruct (init_device _ cuda_mask i q0 added) as [added'|r] eqn:Hdev.
    + apply (IH k q); [done|]. intros a.
      replace (i + 1 + Z.of_nat k) with (i + Z.of_nat (S k)) by lia. apply Hstop.
    + apply init_device_return in Hdev. by subst r.
Qed.

(** C10 (as amended): when CUDA is enabled, the driver reports its devices,
    and a device that the bring-up loop visits (its index is below the
    number of devices used, its bit is set in the mask, and the driver
    answers for it) reports a compute capability outside the supported set,
    [dague_gpu_init] returns -1 at that device.  No device from that one on
    is registered.  The devices registered before it are not undone: the
    call leaves registered exactly the devices that the iterations of the
    loop before that device registered. *)
Theorem gpu_init_unsupported_capability_aborts
    (use_cuda use_cuda_index cuda_mask : Z) (count_ok : bool)
    (queries : list cuda_device_query) (k : nat) (q : cuda_device_query) :
  use_cuda <> 0 ->
  count_ok = true ->
  queries !! k = Some q ->
  Z.of_nat k < ndevices_used use_cuda use_cuda_index queries ->
  Z.land (Z.shiftl 1 (Z.of_nat k)) cuda_mask <> 0 ->
  set_device_ok q = true ->
  get_props_ok q = true ->
  (prop_major q <> 1 /\ prop_major q <> 2 /\ prop_major q <> 3)
  \/ (prop_major q = 2 /\ prop_minor q <> 0 /\ prop_minor q <> 1) ->
  let r := dague_gpu_init check_error_continue_skips
             use_cuda use_cuda_index cuda_mask count_ok queries in
  r.2 = -1
  /\ Forall (fun d => cuda_index d < Z.of_nat k) r.1
  /\ r.1 = (init_loop check_error_continue_skips cuda_mask 0
                      (take k queries) []).1.
Proof.
  intros Huse Hcount Hq Hk Hmask Hset Hget Hcap. simpl.
  apply lookup_cudacores_unsupported in Hcap.
  unfold dague_gpu_init. unfold ndevices_used in Hk.
  destruct (Z.eqb_spec use_cuda 0) as [|_]; [done|].
  rewrite Hcount. simpl.
  set (n := if (use_cuda <? Z.of_nat (length queries)) && (0 <? use_cuda_index)
            then use_cuda else Z.of_nat (length queries)) in *.
  destruct (Z.eqb_spec n 0) as [|_]; [lia|].
  assert (take (Z.to_nat n) queries !! k = Some q) as Hq'.
  { rewrite lookup_take_lt; [done | lia]. }
  assert (Z.land (Z.shiftl 1 (0 + Z.of_nat k)) cuda_mask <> 0) as Hmask'
    by (by rewrite Z.add_0_l).
  destruct (init_loop_unsupported cuda_mask _ k q 0 [] Hq' Hmask' Hset Hget Hcap)
    as [_ Hbefore]; [constructor|].
  rewrite (init_loop_abort_prefix cuda_mask _ k q 0 [] Hq') in Hbefore |- *
    by (intros a; by apply init_device_unsupported).
  rewrite take_take in Hbefore |- *.
  replace (k `min` Z.to_nat n)%nat with k in Hbefore |- * by lia.
  simpl in *. split; [done|]. split; [|done].
  eapply Forall_impl; [exact Hbefore | simpl; intros; lia].
Qed.

End InitProps.

Lemma gpu_init_unsupported_capability_aborts_witness :
  let queries :=
    [ {| Init.set_device_ok := true; Init.get_props_ok := true; Init.prop_major := 3;
         Init.prop_minor := 5; Init.memory_reserve_ok := true |};
      {| Init.set_device_ok := true; Init.get_props_ok := true; Init.prop_major := 5;
         Init.prop_minor := 0; Init.memory_reserve_ok := true |};
      {| Init.set_device_ok := true; Init.get_props_ok := true; Init.prop_major := 2;
         Init.prop_minor := 0; Init.memory_reserve_ok := true |} ] in
  let r := Init.dague_gpu_init false 3 1 (-1) true queries in
  r.2 = -1
  /\ Forall (fun d => Init.cuda_index d < 1) r.1
  /\ r.1 = (Init.init_loop false (-1) 0 (take 1 queries) []).1.
Proof.
  intros queries.
  apply (gpu_init_unsupported_capability_aborts false 3 1 (-1) true queries 1
           {| Init.set_device_ok := true; Init.get_props_ok := true; Init.prop_major := 5;
              Init.prop_minor := 0; Init.memory_reserve_ok := true |}).
  all: try reflexivity.
  - discriminate.
  - vm_compute. discriminate.
  - left. simpl. lia.
Defined.

(** C10, as stated, fails: the initialisation is not aborted for the
    devices configured earlier in the same call.  Device 0 (capability 3.5)
    is registered before device 1 reports the capability 5.0; the call
    returns -1 and device 0 stays registered. *)
Example gpu_init_abort_keeps_earlier_device :
  Init.dague_gpu_init false 3 1 (-1) true
    [ {| Init.set_device_ok := true; Init.get_props_ok := true;
         Init.prop_major := 3; Init.prop_minor := 5;
         Init.memory_reserve_ok := true |};
      {| Init.set_device_ok := true; Init.get_props_ok := true;
         Init.prop_major := 5; Init.prop_minor := 0;
         Init.memory_reserve_ok := true |};
      {| Init.set_device_ok := true; Init.get_props_ok := true;
         Init.prop_major := 2; Init.prop_minor := 0;
         Init.memory_reserve_ok := true |} ]
  = ([ {| Init.cuda_index := 0; Init.major := 3; Init.minor := 5;
          Init.cuda_cores := 192 |} ], -1).
Proof. reflexivity. Qed.

(** ** Handle registration *)

Section HandleRegisterProps.

Import HandleRegister.

Variable solve : string -> option Z.

(** What registration does to the mask when it returns
    [DAGUE_ERR_NOT_FOUND]: it clears the bits that are set in the binary
    writing of the device index. *)
Lemma handle_register_not_found_mask (device_type device_index cuda_index : Z)
    (handle handle' : dague_handle) :
  dague_cuda_handle_register solve device_type device_index cuda_index handle
    = Some (handle', DAGUE_ERR_NOT_FOUND) ->
  devices_mask handle' = Z.land (devices_mask handle) (Z.lnot device_index)
  /\ forall k, 0 <= k ->
       Z.testbit (devices_mask handle') k
       = Z.testbit (devices_mask handle) k && negb (Z.testbit device_index k).
Proof.
  unfold dague_cuda_handle_register. intros H.
  destruct (register_functions _ _ _ _ _) as [[fs rc]|]; simpl in H; [|done].
  destruct rc; simplify_eq. simpl. split; [done|].
  intros k Hk. by rewrite Z.land_spec, Z.lnot_spec.
Qed.

(** A success leaves the mask alone. *)
Lemma handle_register_success_mask (device_type device_index cuda_index : Z)
    (handle handle' : dague_handle) :
  dague_cuda_handle_register solve device_type device_index cuda_index handle
    = Some (handle', DAGUE_SUCCESS) ->
  devices_mask handle' = devices_mask handle.
Proof.
  unfold dague_cuda_handle_register. intros H.
  destruct (register_functions _ _ _ _ _) as [[fs rc]|]; simpl in H; [|done].
  by destruct rc; simplify_eq.
Qed.

End HandleRegisterProps.

(** C8: registering, on the device of index 2, a handle whose only CUDA
    kernel cannot be resolved returns [DAGUE_ERR_NOT_FOUND] and turns the
    mask 7 into 5: bit 2, the bit [dague_gpu_get_best_device] tests for
    device 2, is still set, and bit 1 is cleared instead. *)
Theorem handle_register_not_found_device_2 :
  let handle :=
    {| HandleRegister.functions_array :=
         [ [ {| HandleRegister.hook := true; HandleRegister.type := 4;
                HandleRegister.dyld := Some "gemm_kernel";
                HandleRegister.dyld_fn := None |};
             {| HandleRegister.hook := false; HandleRegister.type := 0;
                HandleRegister.dyld := None;
                HandleRegister.dyld_fn := None |} ] ];
       HandleRegister.devices_mask := 7 |} in
  exists handle',
    HandleRegister.dague_cuda_handle_register (fun _ => None) 4 2 0 handle
      = Some (handle', HandleRegister.DAGUE_ERR_NOT_FOUND)
    /\ HandleRegister.devices_mask handle' = 5
    /\ Z.testbit (HandleRegister.devices_mask handle') 2 = true
    /\ Z.testbit (HandleRegister.devices_mask handle') 1 = false.
Proof.
  eexists. split; [reflexivity|]. by vm_compute.
Qed.

(** ** Kernel resolution *)

Section ResolveProps.

Import Resolve.

Variable sizeof_int : Z.
Variable beyond : Z -> Z.

(** A match is reported at the index where it was read. *)
Lemma find_capability_index (capability : Z) (n : nat) :
  forall i : Z, 0 <= i ->
    let r := find_capability beyond capability n i in
    r.1 = -1 \/ (i <= r.1 < i + Z.of_nat n
                 /\ table_read beyond r.1 = capability
                 /\ r.2 = seqZ i (r.1 - i + 1)).
Proof.
  induction n as [|n IH]; intros i Hi; simpl.
  - by left.
  - destruct (Z.eqb_spec (table_read beyond i) capability) as [Heq|Hne].
    + right. simpl. repeat split; [lia | lia | done |].
      by replace (i - i + 1) with 1 by lia.
    + specialize (IH (i + 1) ltac:(lia)). simpl in IH.
      destruct (find_capability beyond capability n (i + 1)) as [index reads].
      simpl in *. destruct IH as [->|(Hr & Ht & Hs)]; [by left|].
      right. repeat split; [lia | lia | done |].
      rewrite Hs. rewrite (seqZ_cons i) by lia. f_equal. f_equal; lia.
Qed.

(** For a capability that is in the table the loop stays inside it. *)
Lemma find_capability_legal (capability : Z) :
  capability ∈ cuda_legal_compute_capabilitites ->
  1 <= sizeof_int ->
  Forall (fun i => 0 <= i < 8)
         (find_capability beyond capability (Z.to_nat (sizeof_table sizeof_int)) 0).2.
Proof.
  intros Hin Hsz.
  assert (exists n, Z.to_nat (sizeof_table sizeof_int) = (8 + n)%nat) as [n ->].
  { exists (Z.to_nat (sizeof_table sizeof_int) - 8)%nat. unfold sizeof_table. lia. }
  unfold cuda_legal_compute_capabilitites in Hin.
  repeat (apply elem_of_cons in Hin as [->|Hin]);
    [ .. | by apply elem_of_nil in Hin ];
    vm_compute; repeat constructor; done.
Qed.

(** For a capability that is not in the table the loop runs through all
    [sizeof(table)] indices, unless the memory after the table happens to
    hold the value: with 4-byte [int]s it reads past the last entry. *)
Lemma find_capability_illegal (capability : Z) :
  capability ∉ cuda_legal_compute_capabilitites ->
  2 <= sizeof_int ->
  8 ∈ (find_capability beyond capability (Z.to_nat (sizeof_table sizeof_int)) 0).2.
Proof.
  intros Hnot Hsz.
  assert (exists n, Z.to_nat (sizeof_table sizeof_int) = (9 + n)%nat) as [n ->].
  { exists (Z.to_nat (sizeof_table sizeof_int) - 9)%nat. unfold sizeof_table. lia. }
  assert (forall c, c ∈ cuda_legal_compute_capabilitites -> (c =? capability) = false)
    as Hne.
  { intros c Hc. apply Z.eqb_neq. intros ->. contradiction. }
  unfold cuda_legal_compute_capabilitites in Hne.
  change (9 + n)%nat with (S (S (S (S (S (S (S (S (S n))))))))).
  cbn [find_capability].
  unfold table_read at 1 2 3 4 5 6 7 8.
  cbn [Z.add Z.to_nat Pos.to_nat Pos.iter_op Init.Nat.add Pos.add Pos.succ
       cuda_legal_compute_capabilitites lookup list_lookup].
  rewrite !Hne by (set_solver).
  change (0 + 1 + 1 + 1 + 1 + 1 + 1 + 1 + 1) with 8.
  destruct (table_read beyond 8 =? capability);
    [|destruct (find_capability beyond capability n _)];
    cbn [snd]; rewrite !elem_of_cons; tauto.
Qed.

End ResolveProps.

(** C9: for a device of capability 3.2, which the bring-up accepts, the
    locating loop of [cuda_solve_handle_dependencies] reads the table at the
    32 indices 0..31 (with 4-byte [int]s), of which 8..31 lie outside its 8
    entries; it finds no entry and returns NULL without trying any name. *)
Theorem solve_handle_dependencies_capability_32 :
  Init.dague_cuda_lookup_device_cudacores 3 2 = Some 192
  /\ let r := Resolve.cuda_solve_handle_dependencies 4 (fun _ => 0)
                (fun _ => None) (fun _ => false) (fun _ _ => None) false
                (fun _ => None) (fun _ => []) 3 2 "gemm_kernel" None None in
     Resolve.table_reads r = seqZ 0 32
     /\ 31 ∈ Resolve.table_reads r
     /\ Resolve.cuda_legal_compute_capabilitites !! 31%nat = None
     /\ Resolve.resolved r = None
     /\ Resolve.names_tried r = [].
Proof.
  split; [reflexivity|]. vm_compute.
  repeat split. set_solver.
Qed.

(** ** Device selection and load accounting *)

Section SelectorProps.

Import Selector.

Context {F : CFloat}.

Section Argmin.

(** [>] on the weights is a strict weak order; it is one on the IEEE
    numbers that are not NaN. *)
Hypothesis gt_irrefl : forall a : flt, flt_gt a a = false.
Hypothesis gt_trans :
  forall a b c : flt, flt_gt a b = true -> flt_gt b c = true -> flt_gt a c = true.
Hypothesis gt_cotrans :
  forall a b c : flt, flt_gt a c = true -> flt_gt a b = true \/ flt_gt b c = true.

Variable mask : Z.
Variable load sweight : Z -> flt.
Variable ratio : dbl.

Let weight := weight_of load sweight ratio.
Let enabled (v : Z) : Prop := Z.land mask (Z.shiftl 1 v) <> 0.
Let argmin_of := argmin_of load sweight ratio.

Lemma best_step_argmin (seen : list Z) (acc : Z * flt) (v : Z) :
  argmin_of seen acc ->
  (forall u, u ∈ seen -> u < v) ->
  argmin_of (seen ++ filter enabled [v]) (best_step mask load sweight ratio acc v).
Proof.
  intros (Hw & Hin & Hmin & Hlow) Hlt.
  unfold best_step. subst weight argmin_of. unfold Selector.argmin_of.
  destruct (Z.eqb_spec (Z.land mask (Z.shiftl 1 v)) 0) as [Hz|Hnz].
  - rewrite filter_cons_False by (unfold enabled; tauto).
    rewrite filter_nil, app_nil_r. done.
  - rewrite filter_cons_True by done. rewrite filter_nil.
    set (wv := weight_of load sweight ratio v) in *.
    destruct (flt_gt acc.2 wv) eqn:Hgt; repeat split; simpl.
    + set_solver.
    + intros u [Hu| ->%list_elem_of_singleton]%elem_of_app; [|apply gt_irrefl].
      destruct (flt_gt wv (weight_of load sweight ratio u)) eqn:Hvu; [|done].
      rewrite <- (Hmin u Hu). symmetry. by eapply gt_trans.
    + intros u [Hu| ->%list_elem_of_singleton]%elem_of_app Hult; [|lia].
      destruct (gt_cotrans _ (weight_of load sweight ratio u) _ Hgt) as [Hc|Hc];
        [|done].
      by rewrite (Hmin u Hu) in Hc.
    + done.
    + set_solver.
    + intros u [Hu| ->%list_elem_of_singleton]%elem_of_app; [by apply Hmin|done].
    + intros u [Hu| ->%list_elem_of_singleton]%elem_of_app Hult; [by apply Hlow|].
      specialize (Hlt _ Hin). lia.
Qed.

Lemma best_fold_argmin (n : nat) :
  forall (lo : Z) (seen : list Z) (acc : Z * flt),
    argmin_of seen acc ->
    (forall u, u ∈ seen -> u < lo) ->
    argmin_of (seen ++ filter enabled (seqZ lo (Z.of_nat n)))
              (fold_left (best_step mask load sweight ratio)
                         (seqZ lo (Z.of_nat n)) acc).
Proof.
  induction n as [|n IH]; intros lo seen acc Hacc Hlt.
  - rewrite seqZ_nil by done. simpl. by rewrite filter_nil, app_nil_r.
  - rewrite (seqZ_cons lo) by lia.
    replace (Z.pred (Z.of_nat (S n))) with (Z.of_nat n) by lia.
    simpl fold_left.
    rewrite filter_cons.
    assert (seen ++ (if decide (enabled lo)
                     then lo :: filter enabled (seqZ (Z.succ lo) (Z.of_nat n))
                     else filter enabled (seqZ (Z.succ lo) (Z.of_nat n)))
            = (seen ++ filter enabled [lo])
                ++ filter enabled (seqZ (Z.succ lo) (Z.of_nat n))) as ->.
    { rewrite filter_cons, filter_nil. destruct (decide (enabled lo)); simpl;
        by rewrite <- ?app_assoc, ?app_nil_r. }
    apply IH; [by apply best_step_argmin|].
    intros u [Hu|Hu]%elem_of_app; [specialize (Hlt u Hu); lia|].
    apply list_elem_of_filter in Hu as [_ Hu].
    apply list_elem_of_singleton in Hu. lia.
Qed.

(** Step two is the arg-min over the candidates, the lowest index winning
    a tie. *)
Lemma best_device_argmin (devices_enabled : Z) :
  argmin_of (candidates mask devices_enabled)
            (best_device mask devices_enabled load sweight ratio).
Proof.
  unfold best_device, candidates.
  destruct (Z.le_gt_cases (devices_enabled - 2) 0) as [Hle|Hgt].
  - rewrite seqZ_nil by done. simpl. rewrite filter_nil.
    repeat split; simpl; [set_solver| |].
    + intros v ->%list_elem_of_singleton. apply gt_irrefl.
    + intros v ->%list_elem_of_singleton. lia.
  - replace (devices_enabled - 2) with (Z.of_nat (Z.to_nat (devices_enabled - 2)))
      by lia.
    apply (best_fold_argmin _ 2 [0]).
    + repeat split; simpl; [set_solver| |].
      * intros v ->%list_elem_of_singleton. apply gt_irrefl.
      * intros v ->%list_elem_of_singleton. lia.
    + intros u ->%list_elem_of_singleton. lia.
Qed.

Variable FLOW_ACCESS_WRITE : Z.

Lemma last_default_irrelevant {A : Type} (l : list A) (a b : A) :
  l <> [] -> List.last l a = List.last l b.
Proof.
  induction l as [|x l IH]; [done|]. intros _.
  destruct l as [|y l]; [done|]. by apply IH.
Qed.

(** Step one returns the owner of the first WRITE output flow whose datum
    is owned by a device from 2 on; without one it returns the owner of the
    last WRITE output flow, or, when there is no WRITE output flow at all,
    the initial value of the local. *)
Lemma find_write_owner_spec (owner : Z -> Z) (outs : list (option dague_flow)) :
  forall dev_index0 : Z,
    find_write_owner FLOW_ACCESS_WRITE owner outs dev_index0
    = match list_find (fun d => 1 < d) (write_owners FLOW_ACCESS_WRITE owner outs) with
      | Some (_, d) => d
      | None => List.last (write_owners FLOW_ACCESS_WRITE owner outs) dev_index0
      end.
Proof.
  induction outs as [|o outs IH]; intros d0; [done|].
  destruct o as [f|]; simpl; [|apply IH].
  destruct (Z.land (flow_flags f) FLOW_ACCESS_WRITE =? 0); [apply IH|].
  simpl. rewrite IH.
  destruct (Z.ltb_spec 1 (owner (flow_index f))) as [Hlt|Hle].
  - rewrite decide_True by done. done.
  - rewrite decide_False by lia.
    destruct (list_find _ _) as [[i d]|] eqn:Hfind; simpl; [done|].
    destruct (write_owners FLOW_ACCESS_WRITE owner outs) as [|x l]; [done|].
    by apply last_default_irrelevant.
Qed.

(** The selector on a task that has a WRITE output flow, or whose local
    happens to start at 0 or 1: the owner of the first WRITE output flow
    owned by a device from 2 on, with the loads untouched; otherwise the
    arg-min, whose load becomes its weight,
    [load[v] + ratio * sweight[v]]. *)
Lemma get_best_device_spec (dev_index0 : Z) (this_task : task_view)
    (devices_enabled : Z) :
  devices_mask this_task = mask ->
  let owners := write_owners FLOW_ACCESS_WRITE (owner_device this_task)
                  (take (nb_flows this_task) (out this_task)) in
  owners <> [] \/ dev_index0 <= 1 ->
  let r := dague_gpu_get_best_device FLOW_ACCESS_WRITE dev_index0 this_task
             ratio devices_enabled sweight load in
  match list_find (fun d => 1 < d) owners with
  | Some (_, d) => r = (d, load)
  | None =>
      argmin_of (candidates mask devices_enabled) (r.1, weight r.1)
      /\ r.2 = array_set load r.1 (weight r.1)
  end.
Proof.
  intros Hmask owners Hwf r. subst r. unfold dague_gpu_get_best_device.
  rewrite find_write_owner_spec. fold owners.
  destruct (list_find _ owners) as [[i d]|] eqn:Hfind.
  - apply list_find_Some in Hfind as (_ & Hd & _).
    destruct (Z.leb_spec d 1); [lia | done].
  - assert (List.last owners dev_index0 <= 1) as Hlast.
    { destruct Hwf as [Hne|Hd0].
      - destruct (exists_last Hne) as (l & x & ->).
        rewrite last_last.
        destruct (decide (1 < x)) as [Hx|]; [|lia].
        eapply list_find_None in Hfind.
        rewrite Forall_app, Forall_singleton in Hfind. tauto.
      - clear -Hd0 Hfind. induction owners as [|x l IH]; [done|].
        apply list_find_None in Hfind. inversion Hfind as [|?? Hx Hl]; subst.
        destruct l as [|y l]; [simpl; lia|].
        apply IH. by apply list_find_None. }
    destruct (Z.leb_spec (List.last owners dev_index0) 1); [|lia].
    simpl. rewrite Hmask.
    pose proof (best_device_argmin devices_enabled) as Hbest.
    subst weight argmin_of. unfold Selector.argmin_of in *. simpl.
    destruct Hbest as (Hw & Hrest).
    split; [|done]. rewrite <- Hw. tauto.
Qed.

End Argmin.

End SelectorProps.

(** Integer comparison is a strict weak order, so the arg-min lemmas apply
    to the exact reading of the arithmetic. *)
Lemma exact_arith_argmin (mask devices_enabled : Z) (load sweight : Z -> Z)
    (ratio : Z) :
  Selector.argmin_of (F := exact_arith) load sweight ratio
    (Selector.candidates mask devices_enabled)
    (Selector.best_device (F := exact_arith) mask devices_enabled load sweight ratio).
Proof.
  apply best_device_argmin; simpl.
  - intros a. rewrite Z.gtb_ltb. apply Z.ltb_irrefl.
  - intros a b c. rewrite !Z.gtb_ltb, !Z.ltb_lt. lia.
  - intros a b c. rewrite !Z.gtb_ltb, !Z.ltb_lt. lia.
Qed.

(** C1: on a task with no WRITE output flow the selector returns the
    indeterminate initial value of its local [dev_index] when that value is
    above 1, and leaves the loads alone: here 7, with three devices enabled,
    where the arg-min over the candidates is device 2. *)
Theorem get_best_device_without_write_flow :
  let this_task :=
    {| Selector.nb_flows := 1;
       Selector.out := [Some {| Selector.flow_index := 0; Selector.flow_flags := 1 |}];
       Selector.owner_device := fun _ => 0;
       Selector.devices_mask := 5 |} in
  let load := fun _ : Z => IEEE.float_of_Z 0 in
  let sweight := fun v : Z => if v =? 0 then IEEE.float_of_Z 8 else IEEE.float_of_Z 1 in
  let ratio := IEEE.double_of_Z 1 in
  let r := Selector.dague_gpu_get_best_device (F := IEEE.ieee754) 2 7 this_task
             ratio 3 sweight load in
  Selector.write_owners 2 (Selector.owner_device this_task)
    (take (Selector.nb_flows this_task) (Selector.out this_task)) = []
  /\ r.1 = 7
  /\ r.2 = load
  /\ (Selector.best_device (F := IEEE.ieee754) 5 3 load sweight ratio).1 = 2.
Proof.
  repeat split.
Qed.

(** C5: with ratio 2 the selector adds [2 * sweight] to the load of the
    device it picks, and the completion of the task subtracts [sweight]: the
    load of device 2 goes from 0 to 2 and ends at 1.  And for a task sent to
    device 2 because it owns the datum written, nothing is added and
    [sweight] is still subtracted: the load goes from 0 to -1. *)
Theorem load_not_restored_after_completion :
  let load := fun _ : Z => IEEE.float_of_Z 0 in
  let sweight := fun v : Z => if v =? 0 then IEEE.float_of_Z 8 else IEEE.float_of_Z 1 in
  let task_on (owner : Z) :=
    {| Selector.nb_flows := 1;
       Selector.out := [Some {| Selector.flow_index := 0; Selector.flow_flags := 3 |}];
       Selector.owner_device := fun _ => owner;
       Selector.devices_mask := 5 |} in
  let chosen := Selector.dague_gpu_get_best_device (F := IEEE.ieee754) 2 0
                  (task_on 0) (IEEE.double_of_Z 2) 3 sweight load in
  let local := Selector.dague_gpu_get_best_device (F := IEEE.ieee754) 2 0
                 (task_on 2) (IEEE.double_of_Z 2) 3 sweight load in
  (chosen.1 = 2
   /\ chosen.2 2 = IEEE.float_of_Z 2
   /\ Selector.complete_task_load (F := IEEE.ieee754) 2 sweight chosen.2 2
      = IEEE.float_of_Z 1)
  /\ (local.1 = 2
      /\ local.2 2 = IEEE.float_of_Z 0
      /\ Selector.complete_task_load (F := IEEE.ieee754) 2 sweight local.2 2
         = IEEE.float_of_Z (-1)).
Proof.
  vm_compute. repeat split.
Qed.

(** In exact arithmetic, a selection by load followed by the completion
    leaves the load of the chosen device off by [(ratio - 1) * sweight]. *)
Lemma load_accounting_exact (dev_index0 : Z) (this_task : Selector.task_view)
    (ratio devices_enabled : Z) (sweight load : Z -> Z) :
  let r := Selector.dague_gpu_get_best_device (F := exact_arith) 2 dev_index0
             this_task ratio devices_enabled sweight load in
  Selector.find_write_owner 2 (Selector.owner_device this_task)
    (take (Selector.nb_flows this_task) (Selector.out this_task)) dev_index0 <= 1 ->
  Selector.complete_task_load (F := exact_arith) r.1 sweight r.2 r.1
  = load r.1 + (ratio - 1) * sweight r.1.
Proof.
  intros r Hfind. subst r. unfold Selector.dague_gpu_get_best_device.
  destruct (Z.leb_spec (Selector.find_write_owner 2 (Selector.owner_device this_task)
              (take (Selector.nb_flows this_task) (Selector.out this_task))
              dev_index0) 1); [|lia].
  unfold Selector.complete_task_load, Selector.array_set. simpl.
  rewrite !Z.eqb_refl. lia.
Qed.

(** ** The stream pipeline *)

Section StreamProps.

Import DagueList Stream.

Context {dev : Type}.
Variable DAGUE_GPU_USE_PRIORITIES : bool.
Variable dague_ulist_push_sorted : list Z -> Z -> list Z.
Variable submit : Z -> @advance_task_function dev.
Variable stage_in_completed : dev -> Z -> dev * bool.

Let FIFO_PUSH := DAGUE_FIFO_PUSH DAGUE_GPU_USE_PRIORITIES dague_ulist_push_sorted.
Let grab := grab_a_task DAGUE_GPU_USE_PRIORITIES dague_ulist_push_sorted submit.
Let progress :=
  progress_stream DAGUE_GPU_USE_PRIORITIES dague_ulist_push_sorted submit
                  stage_in_completed.

Lemma set_fifo_pending_twice (s : exec_stream) (l l' : list Z) :
  set_fifo_pending (set_fifo_pending s l) l' = set_fifo_pending s l'.
Proof. reflexivity. Qed.

(** A submission whose launch fails with a code other than -1: the task is
    handed to [DAGUE_FIFO_PUSH] and nothing else of the stream changes. *)
Lemma grab_a_task_failed_launch
    (progress_fct : option advance_task_function) (d d' : dev)
    (s : exec_stream) (saved_rc task r : Z) (rest : list Z) :
  ring_get s (start s) = None ->
  fifo_pending s = task :: rest ->
  (match progress_fct with Some f => f | None => submit task end) d task = (r, d') ->
  r < 0 ->
  r <> -1 ->
  grab progress_fct d s saved_rc
  = inr {| g_fct := Some (match progress_fct with
                          | Some f => f
                          | None => submit task
                          end);
           g_dev := d';
           g_stream := set_fifo_pending s (FIFO_PUSH rest task);
           g_saved_rc := r |}.
Proof.
  intros Hslot Hpending Hlaunch Hneg Hcrit.
  subst grab FIFO_PUSH. unfold grab_a_task.
  rewrite Hslot, Hpending. simpl. rewrite Hlaunch.
  destruct (Z.ltb_spec r 0); [|lia].
  destruct (Z.eqb_spec r (-1)); [lia|]. done.
Qed.

(** The whole call around such a submission: what the stream is left with,
    and the code returned when the completion check finds nothing. *)
Lemma progress_stream_requeue
    (is_push_stream : bool) (query : cudaError)
    (progress_fct : option advance_task_function) (new_task : option Z)
    (d d' : dev) (s : exec_stream) (task r : Z) (rest : list Z) :
  let s0 := match new_task with
            | Some t => set_fifo_pending s (FIFO_PUSH (fifo_pending s) t)
            | None => s
            end in
  ring_get s (start s) = None ->
  fifo_pending s0 = task :: rest ->
  (match progress_fct with Some f => f | None => submit task end) d task = (r, d') ->
  r < 0 ->
  r <> -1 ->
  let s1 := set_fifo_pending s (FIFO_PUSH rest task) in
  (exists fct, grab progress_fct d s0 0
               = inr {| g_fct := fct; g_dev := d'; g_stream := s1; g_saved_rc := r |})
  /\ tasks s1 = tasks s /\ start s1 = start s /\ end_ s1 = end_ s
  /\ recorded s1 = recorded s
  /\ (ring_get s (end_ s) = None \/ query = cudaErrorNotReady ->
      progress is_push_stream query progress_fct new_task d s
      = {| rc := r; out_task := None; dev_after := d'; stream_after := s1 |}).
Proof.
  intros s0 Hslot Hpending Hlaunch Hneg Hcrit s1.
  assert (ring_get s0 (start s0) = None) as Hslot0.
  { subst s0. by destruct new_task. }
  assert (set_fifo_pending s0 (FIFO_PUSH rest task) = s1) as Hs1.
  { subst s0 s1. by destruct new_task. }
  pose proof (grab_a_task_failed_launch progress_fct d d' s0 0 task r rest
                Hslot0 Hpending Hlaunch Hneg Hcrit) as Hgrab.
  rewrite Hs1 in Hgrab.
  split; [eexists; exact Hgrab|].
  repeat split.
  intros Hquiet. subst progress. unfold progress_stream.
  fold FIFO_PUSH. fold s0. fold grab. rewrite Hgrab. simpl.
  change (ring_get s1 (end_ s)) with (ring_get s (end_ s)).
  destruct Hquiet as [-> | ->]; [done|].
  by destruct (ring_get s (end_ s)).
Qed.

(** The same submission when an older task sits at the end of the ring and
    the query of its event reports an error: the call returns -1, with the
    envelope back in the pending FIFO. *)
Lemma progress_stream_requeue_query_error
    (is_push_stream : bool)
    (progress_fct : option advance_task_function) (new_task : option Z)
    (d d' : dev) (s : exec_stream) (task r : Z) (rest : list Z) :
  let s0 := match new_task with
            | Some t => set_fifo_pending s (FIFO_PUSH (fifo_pending s) t)
            | None => s
            end in
  ring_get s (start s) = None ->
  fifo_pending s0 = task :: rest ->
  (match progress_fct with Some f => f | None => submit task end) d task = (r, d') ->
  r < 0 ->
  r <> -1 ->
  ring_get s (end_ s) <> None ->
  progress is_push_stream cudaErrorOther progress_fct new_task d s
  = {| rc := -1; out_task := None; dev_after := d';
       stream_after := set_fifo_pending s (FIFO_PUSH rest task) |}.
Proof.
  intros s0 Hslot Hpending Hlaunch Hneg Hcrit Hbusy.
  destruct (progress_stream_requeue is_push_stream cudaErrorOther progress_fct
              new_task d d' s task r rest Hslot Hpending Hlaunch Hneg Hcrit)
    as [[fct Hgrab] _].
  subst progress grab FIFO_PUSH s0. unfold progress_stream.
  rewrite Hgrab. simpl.
  change (ring_get (set_fifo_pending s
                      (DAGUE_FIFO_PUSH DAGUE_GPU_USE_PRIORITIES
                         dague_ulist_push_sorted rest task)) (end_ s))
    with (ring_get s (end_ s)).
  by destruct (ring_get s (end_ s)).
Qed.

(** C7 (as amended): when the launch function of a submission returns a
    negative code other than -1, the envelope goes back into the pending FIFO
    through [DAGUE_FIFO_PUSH] (the priority-ordered insertion, or the tail of
    the list when priorities are off), the ring of the stream (tasks, start,
    end) is unchanged and no event is recorded; and when the completion
    check that follows finds nothing completed, [progress_stream] returns
    that code. *)
Theorem progress_stream_failed_launch
    (is_push_stream : bool) (query : cudaError)
    (progress_fct : option advance_task_function) (new_task : option Z)
    (d d' : dev) (s : exec_stream) (task r : Z) (rest : list Z) :
  let s0 := match new_task with
            | Some t => set_fifo_pending s (FIFO_PUSH (fifo_pending s) t)
            | None => s
            end in
  ring_get s (start s) = None ->
  fifo_pending s0 = task :: rest ->
  (match progress_fct with Some f => f | None => submit task end) d task = (r, d') ->
  r < 0 ->
  r <> -1 ->
  let s1 := set_fifo_pending s (FIFO_PUSH rest task) in
  (exists fct, grab progress_fct d s0 0
               = inr {| g_fct := fct; g_dev := d'; g_stream := s1; g_saved_rc := r |})
  /\ tasks s1 = tasks s /\ start s1 = start s /\ end_ s1 = end_ s
  /\ recorded s1 = recorded s
  /\ (ring_get s (end_ s) = None \/ query = cudaErrorNotReady ->
      progress is_push_stream query progress_fct new_task d s
      = {| rc := r; out_task := None; dev_after := d'; stream_after := s1 |}).
Proof.
  apply progress_stream_requeue.
Qed.

End StreamProps.

(** A stream with four free slots, the tasks 1 and 2 pending, and a launch
    function that finds no room (-2). *)
Lemma progress_stream_failed_launch_witness :
  let s := {| Stream.max_events := 4; Stream.tasks := [None; None; None; None];
              Stream.start := 0; Stream.end_ := 0;
              Stream.fifo_pending := [1; 2]; Stream.recorded := [] |} in
  let s1 := Stream.set_fifo_pending s [2; 1] in
  (exists fct, Stream.grab_a_task false (fun l x => x :: l)
                 (fun _ (d : unit) _ => (-2, d)) None tt s 0
               = inr {| Stream.g_fct := fct; Stream.g_dev := tt;
                        Stream.g_stream := s1; Stream.g_saved_rc := -2 |})
  /\ Stream.tasks s1 = Stream.tasks s /\ Stream.start s1 = Stream.start s
  /\ Stream.end_ s1 = Stream.end_ s
  /\ Stream.recorded s1 = Stream.recorded s
  /\ (Stream.ring_get s (Stream.end_ s) = None
      \/ Stream.cudaErrorNotReady = Stream.cudaErrorNotReady ->
      Stream.progress_stream false (fun l x => x :: l)
        (fun _ (d : unit) _ => (-2, d)) (fun d _ => (d, true))
        false Stream.cudaErrorNotReady None None tt s
      = {| Stream.rc := -2; Stream.out_task := None; Stream.dev_after := tt;
           Stream.stream_after := s1 |}).
Proof.
  intros s s1.
  apply (progress_stream_failed_launch false (fun l x => x :: l)
           (fun _ (d : unit) _ => (-2, d)) (fun d _ => (d, true))
           false Stream.cudaErrorNotReady None None tt tt s 1 (-2) [2]).
  - reflexivity.
  - reflexivity.
  - reflexivity.
  - lia.
  - lia.
Defined.

(** C7, as stated, fails: without [DAGUE_GPU_USE_PRIORITIES] the envelope
    whose launch failed is appended at the tail of the pending FIFO, behind
    the envelope that was waiting after it; and when the event query that
    follows reports an error, the call returns -1 and not the code of the
    failed launch. *)
Lemma failed_launch_not_requeued_at_head :
  let s := {| Stream.max_events := 4; Stream.tasks := [None; None; None; None];
              Stream.start := 0; Stream.end_ := 0;
              Stream.fifo_pending := [1; 2]; Stream.recorded := [] |} in
  let busy := {| Stream.max_events := 4; Stream.tasks := [None; None; None; Some 9];
                 Stream.start := 0; Stream.end_ := 3;
                 Stream.fifo_pending := [1; 2]; Stream.recorded := [3] |} in
  let run := Stream.progress_stream false (fun l x => x :: l)
               (fun _ (d : unit) _ => (-2, d)) (fun d _ => (d, true)) false in
  (Stream.rc (run Stream.cudaErrorNotReady None None tt s) = -2
   /\ Stream.fifo_pending (Stream.stream_after (run Stream.cudaErrorNotReady None None tt s))
      = [2; 1]
   /\ head (Stream.fifo_pending
              (Stream.stream_after (run Stream.cudaErrorNotReady None None tt s)))
      <> Some 1)
  /\ Stream.rc (run Stream.cudaErrorOther None None tt busy) = -1.
Proof.
  vm_compute. repeat split. discriminate.
Qed.

(** ** Staging in: a write on a replica that has readers *)

Section StageInProps.

Import DagueList Memory.

Context {zone : Type}.
Variable zone_malloc : zone -> Z -> option (Z * zone).
Variable zone_free : zone -> Z -> zone.
Variable dev : Z.
Variable FLOW_ACCESS_READ : Z.
Variable FLOW_ACCESS_WRITE : Z.
Variable cudaMemcpyAsync : memcpy -> bool.
Variable dague_data_transfer_ownership_to_copy :
  @gpu_world zone -> option Z -> Z -> Z -> Z * @gpu_world zone.

Variable DAGUE_GPU_USE_PRIORITIES : bool.
Variable dague_ulist_push_sorted : list Z -> Z -> list Z.
Variable submit : Z -> @Stream.advance_task_function (@device_state zone).

Local Abbreviation stage_in :=
  (dague_gpu_data_stage_in dev FLOW_ACCESS_WRITE cudaMemcpyAsync
     dague_data_transfer_ownership_to_copy).
Local Abbreviation kernel_push :=
  (dague_gpu_kernel_push zone_malloc zone_free dev FLOW_ACCESS_WRITE
     cudaMemcpyAsync dague_data_transfer_ownership_to_copy).
Local Abbreviation push_fct :=
  (push_fct zone_malloc zone_free dev FLOW_ACCESS_WRITE
     cudaMemcpyAsync dague_data_transfer_ownership_to_copy).

(** X11: [dague_gpu_data_stage_in] returns 0, 1, -1 or -86, and -86 exactly
    in the branch of a write access to a replica that has readers. *)
Lemma stage_in_code (type : Z) (i : nat) (t t' : dague_gpu_context)
    (w w' : gpu_world) (r : Z) :
  stage_in type i t w = (r, w', t') ->
  (r = 0 \/ r = 1 \/ r = -1 \/ r = -86)
  /\ (r = -86 <->
      negb (Z.land FLOW_ACCESS_WRITE type =? 0) = true
      /\ 0 < copy_readers w (data t !! i ≫= data_out)).
Proof.
  unfold dague_gpu_data_stage_in. intros H.
  destruct (negb (Z.land FLOW_ACCESS_WRITE type =? 0)) eqn:Hw; simpl in H.
  - destruct (Z.ltb_spec 0 (copy_readers w (data t !! i ≫= data_out))) as [Hr|Hr].
    + simplify_eq. split; [tauto|]. split; [done|tauto].
    + repeat case_match; simplify_eq; (split; [tauto|]); split; try lia; intros [_ ?]; lia.
  - repeat case_match; simplify_eq; (split; [tauto|]); split; try lia; intros [? _]; done.
Qed.

(** C6 (as amended): a stage-in whose access mode includes WRITE on a
    replica that has readers returns -86 after a warning, without issuing a
    copy or changing any replica.  A stage-in launch
    ([dague_gpu_kernel_push]) that ends on this code is handled by
    [progress_stream] like any negative code other than -1: the pass from
    [grab_a_task] to [check_completion] puts the envelope back into the
    pending FIFO of the stream ([DAGUE_FIFO_PUSH]) and leaves the ring as
    it was.  When the completion check then finds nothing completed (no
    task at the end of the ring, or its event not ready), the call hands
    out no task and returns -86; when a task is at the end of the ring and
    the query of its event reports an error, the call hands out no task and
    returns -1.  The envelope is in the pending FIFO in both cases. *)
Theorem stage_in_write_with_readers
    (type : Z) (i : nat) (t : dague_gpu_context) (w : gpu_world)
    (temp_loc0 : list (option Z)) (query : Stream.cudaError)
    (new_task : option Z) (d : device_state) (s : Stream.exec_stream)
    (task : Z) (tk tk' : dague_gpu_context) (w' : gpu_world) (rest : list Z) :
  let FIFO_PUSH :=
    Stream.DAGUE_FIFO_PUSH DAGUE_GPU_USE_PRIORITIES dague_ulist_push_sorted in
  let s0 := match new_task with
            | Some x => Stream.set_fifo_pending s
                          (FIFO_PUSH (Stream.fifo_pending s) x)
            | None => s
            end in
  let progress :=
    Stream.progress_stream DAGUE_GPU_USE_PRIORITIES dague_ulist_push_sorted
      submit stage_in_completed true query (Some (push_fct temp_loc0))
      new_task d s in
  (negb (Z.land FLOW_ACCESS_WRITE type =? 0) = true ->
   0 < copy_readers w (data t !! i ≫= data_out) ->
   stage_in type i t w = (-86, warn w warn_write_with_readers, t))
  /\ (d.2 !! task = Some tk ->
      kernel_push temp_loc0 d.1 tk = (-86, w', tk') ->
      Stream.ring_get s (Stream.start s) = None ->
      Stream.fifo_pending s0 = task :: rest ->
      let d1 := (w', <[task := tk']> d.2) in
      let s1 := Stream.set_fifo_pending s (FIFO_PUSH rest task) in
      (exists fct,
          Stream.grab_a_task DAGUE_GPU_USE_PRIORITIES dague_ulist_push_sorted
            submit (Some (push_fct temp_loc0)) d s0 0
          = inr {| Stream.g_fct := fct; Stream.g_dev := d1;
                   Stream.g_stream := s1; Stream.g_saved_rc := -86 |})
      /\ Stream.tasks s1 = Stream.tasks s
      /\ Stream.start s1 = Stream.start s /\ Stream.end_ s1 = Stream.end_ s
      /\ (Stream.ring_get s (Stream.end_ s) = None
          \/ query = Stream.cudaErrorNotReady ->
          progress = {| Stream.rc := -86; Stream.out_task := None;
                        Stream.dev_after := d1; Stream.stream_after := s1 |})
      /\ (Stream.ring_get s (Stream.end_ s) <> None ->
          query = Stream.cudaErrorOther ->
          progress = {| Stream.rc := -1; Stream.out_task := None;
                        Stream.dev_after := d1; Stream.stream_after := s1 |})).
Proof.
  intros FIFO_PUSH s0 progress. split.
  - intros Hw Hr. unfold dague_gpu_data_stage_in. rewrite Hw. simpl.
    destruct (Z.ltb_spec 0 (copy_readers w (data t !! i ≫= data_out))); [done|lia].
  - intros Htask Hpush Hslot Hpending d1 s1.
    assert (push_fct temp_loc0 d task = (-86, d1)) as Hlaunch.
    { unfold Memory.push_fct, on_task. by rewrite Htask, Hpush. }
    destruct (progress_stream_requeue DAGUE_GPU_USE_PRIORITIES
                dague_ulist_push_sorted submit stage_in_completed true query
                (Some (push_fct temp_loc0)) new_task d d1 s task (-86) rest
                Hslot Hpending Hlaunch ltac:(lia) ltac:(lia))
      as (Hgrab & Htasks & Hstart & Hend & _ & Hquiet).
    split; [exact Hgrab|]. split; [done|]. split; [done|]. split; [done|].
    split; [exact Hquiet|].
    intros Hbusy ->.
    by apply (progress_stream_requeue_query_error DAGUE_GPU_USE_PRIORITIES
                dague_ulist_push_sorted submit stage_in_completed true
                (Some (push_fct temp_loc0)) new_task d d1 s task (-86) rest).
Qed.

End StageInProps.

Lemma stage_in_write_with_readers_witness :
  let t := Memory.set_data_out Scenario.writer 0 (Some 20) in
  Memory.dague_gpu_data_stage_in 2 2 (fun _ => true) Scenario.always_from_host
    3 0 t Scenario.read_world
  = (-86, Memory.warn Scenario.read_world Memory.warn_write_with_readers, t)
  /\ Stream.progress_stream false (fun l x => x :: l) (fun _ d _ => (-1, d))
       Memory.stage_in_completed true Stream.cudaErrorNotReady
       (Some (Scenario.push_fct [None])) (Some 1)
       (Scenario.read_world, {[ 1 := Scenario.writer ]}) Scenario.idle_stream
     = {| Stream.rc := -86; Stream.out_task := None;
          Stream.dev_after :=
            (Memory.warn Scenario.read_world Memory.warn_write_with_readers,
             <[1 := t]> {[ 1 := Scenario.writer ]});
          Stream.stream_after :=
            Stream.set_fifo_pending Scenario.idle_stream [1] |}.
Proof.
  intros t.
  destruct (stage_in_write_with_readers Slab.zone_malloc Slab.zone_free 2 2
              (fun _ => true) Scenario.always_from_host
              false (fun l x => x :: l) (fun _ d _ => (-1, d))
              3 0%nat t Scenario.read_world
              [None] Stream.cudaErrorNotReady (Some 1)
              (Scenario.read_world, {[ 1 := Scenario.writer ]})
              Scenario.idle_stream 1 Scenario.writer t
              (Memory.warn Scenario.read_world Memory.warn_write_with_readers)
              []) as [Hstage Hprogress].
  split.
  - apply Hstage; [reflexivity | vm_compute; reflexivity].
  - destruct Hprogress as (_ & _ & _ & _ & Hquiet & _).
    + reflexivity.
    + vm_compute. reflexivity.
    + reflexivity.
    + reflexivity.
    + apply Hquiet. right. reflexivity.
Defined.

(** C6, as stated, fails: the task whose stage-in hit a write on a replica
    with a reader is not failed back to the upstream engine; it is left in
    the pending FIFO of the stage-in stream and the next call of
    [progress_stream] launches it again, with the same outcome. *)
Lemma write_with_readers_is_retried :
  let run := Stream.progress_stream false (fun l x => x :: l)
               (fun _ d _ => (-1, d)) Memory.stage_in_completed true
               Stream.cudaErrorNotReady (Some (Scenario.push_fct [None])) in
  let first := run (Some 1) (Scenario.read_world, {[ 1 := Scenario.writer ]})
                 Scenario.idle_stream in
  let second := run None (Stream.dev_after first) (Stream.stream_after first) in
  Stream.rc first = -86
  /\ Stream.out_task first = None
  /\ Stream.fifo_pending (Stream.stream_after first) = [1]
  /\ Memory.warnings (Stream.dev_after first).1 = [Memory.warn_write_with_readers]
  /\ Stream.rc second = -86
  /\ Stream.fifo_pending (Stream.stream_after second) = [1]
  /\ Memory.warnings (Stream.dev_after second).1
     = [Memory.warn_write_with_readers; Memory.warn_write_with_readers].
Proof.
  vm_compute. repeat split.
Qed.

(** ** Write-back tasks *)

Section DrainProps.

Import DagueList Memory.

Context {zone : Type}.
Variable FLOW_ACCESS_READ : Z.
Variable FLOW_ACCESS_WRITE : Z.
Variable DAGUE_GPU_W2R_NB_MOVE_OUT : Z.
Variable cudaMemcpyAsync : memcpy -> bool.

Local Abbreviation collect := (w2r_collect DAGUE_GPU_W2R_NB_MOVE_OUT).
Local Abbreviation create := (dague_gpu_create_W2R_task DAGUE_GPU_W2R_NB_MOVE_OUT).
Local Abbreviation kernel_pop :=
  (dague_gpu_kernel_pop FLOW_ACCESS_READ FLOW_ACCESS_WRITE cudaMemcpyAsync).
Local Abbreviation fini := (dague_gpu_W2R_task_fini DAGUE_GPU_W2R_NB_MOVE_OUT).

Implicit Types w : @gpu_world zone.

#[local] Arguments copy_original : simpl never.
#[local] Arguments copy_private : simpl never.
#[local] Arguments copy_readers : simpl never.
#[local] Arguments copy_version : simpl never.
#[local] Arguments data_nb_elts : simpl never.
#[local] Arguments DAGUE_DATA_GET_COPY : simpl never.
#[local] Arguments host_readers : simpl never.
#[local] Arguments pin_replica : simpl never.
#[local] Arguments d2h_memcpy : simpl never.
#[local] Arguments dague_gpu_W2R_task_fini : simpl never.
#[local] Arguments dague_list_item_ring_chop : simpl never.

Lemma copy_readers_pin w (c : Z) (cp : dague_data_copy) :
  copies w !! c = Some cp ->
  copy_readers (pin_replica w c) (Some c) = readers cp + 1.
Proof.
  intros Hc. unfold copy_readers, pin_replica, update_copy. simpl.
  by rewrite lookup_alter_eq, Hc.
Qed.

(** Once the cursor is on a replica that was chopped out and has a reader,
    the loop can only leave through its bound. *)
Lemma w2r_collect_chopped (fuel : nat) (c : Z) (k : nat)
    (slots : list dague_data_pair) w
    (r : @gpu_world zone * list dague_data_pair * nat) :
  copy_readers w (Some c) <> 0 ->
  collect fuel (chopped c) k slots w = Some r ->
  r = (w, slots, k) /\ DAGUE_GPU_W2R_NB_MOVE_OUT <= Z.of_nat k.
Proof.
  intros Hr. induction fuel as [|fuel IH]; simpl; [done|].
  destruct (Z.leb_spec DAGUE_GPU_W2R_NB_MOVE_OUT (Z.of_nat k)).
  - intros; simplify_eq. done.
  - destruct (Z.eqb_spec (copy_readers w (Some c)) 0); [done|]. simpl. exact IH.
Qed.

(** The walk of the owned list pins at most one replica, the first one with
    no reader on either side, and it returns after pinning only when the
    bound is 1. *)
Lemma w2r_collect_in_list (fuel : nat) :
  forall (l : list Z) (slots : list dague_data_pair) w
         (r : @gpu_world zone * list dague_data_pair * nat),
    Forall (fun c => is_Some (copies w !! c)) l ->
    collect fuel (in_list l) 0 slots w = Some r ->
    r = (w, slots, 0%nat)
    \/ exists c,
         c ∈ l /\ copy_readers w (Some c) = 0 /\ host_readers w c = 0
         /\ DAGUE_GPU_W2R_NB_MOVE_OUT = 1
         /\ r = (pin_replica w c,
                 alter (fun dp => {| data_in := data_in dp; data_out := Some c |})
                       0%nat slots,
                 1%nat).
Proof.
  induction fuel as [|fuel IH]; intros l slots w r Hvalid; simpl; [done|].
  destruct (Z.leb_spec DAGUE_GPU_W2R_NB_MOVE_OUT (Z.of_nat 0)) as [Hle|Hgt].
  { intros; simplify_eq. by left. }
  destruct l as [|c rest].
  { intros; simplify_eq. by left. }
  inversion Hvalid as [|?? [cp Hcp] Hrest]; subst.
  destruct (Z.eqb_spec (copy_readers w (Some c)) 0) as [Hr0|Hr0]; simpl.
  - destruct (Z.eqb_spec (host_readers w c) 0) as [Hh0|Hh0]; simpl.
    + intros Hcollect. right. exists c.
      assert (copy_readers (pin_replica w c) (Some c) <> 0) as Hpinned.
      { rewrite (copy_readers_pin w c cp Hcp).
        unfold copy_readers in Hr0. simpl in Hr0. rewrite Hcp in Hr0.
        simpl in Hr0. lia. }
      destruct (w2r_collect_chopped _ _ _ _ _ _ Hpinned Hcollect) as [-> Hbound].
      repeat split; [set_solver | done | done | lia].
    + intros Hcollect.
      destruct (IH rest slots w r Hrest Hcollect) as [->|(c' & Hin & ?)];
        [by left|].
      right. exists c'. split; [apply elem_of_cons; by right|done].
  - intros Hcollect.
    destruct (IH rest slots w r Hrest Hcollect) as [->|(c' & Hin & ?)];
      [by left|].
    right. exists c'. split; [apply elem_of_cons; by right|done].
Qed.

(** A write-back task, when one is made, holds exactly one replica, in its
    first data slot, and the bound [DAGUE_GPU_W2R_NB_MOVE_OUT] is 1. *)
Lemma create_W2R_task_pins_one (fuel : nat)
    (mempool_ec : Z * list dague_data_pair) w w1 (task : dague_gpu_context) :
  Forall (owned_replica_wf w) (gpu_mem_owned_lru w) ->
  create fuel mempool_ec w = Some (w1, Some task) ->
  exists c,
    c ∈ gpu_mem_owned_lru w
    /\ copy_readers w (Some c) = 0 /\ host_readers w c = 0
    /\ DAGUE_GPU_W2R_NB_MOVE_OUT = 1
    /\ w1 = pin_replica w c
    /\ task = {| ec := mempool_ec.1; nb_flows := 0; flow := [];
                 data := alter (fun dp => {| data_in := data_in dp;
                                             data_out := Some c |})
                               0%nat mempool_ec.2;
                 pushout := []; task_type := GPU_TASK_TYPE_D2HTRANSFER;
                 priority := INT32_MAX; function_out := None |}.
Proof.
  intros Hwf. unfold dague_gpu_create_W2R_task.
  destruct (collect fuel _ _ _ _) as [[[w' slots] n]|] eqn:Hcollect; [|done].
  apply w2r_collect_in_list in Hcollect.
  - destruct Hcollect as [?|(c & Hin & Hr & Hh & Hnb & ?)]; simplify_eq; [done|].
    intros ?; simplify_eq. exists c. done.
  - eapply Forall_impl; [exact Hwf|].
    intros c (cp & ? & ? & ? & ? & Hc & _). by rewrite Hc.
Qed.

(** C2: for every write-back ([GPU_TASK_TYPE_D2HTRANSFER]) task that
    [dague_gpu_create_W2R_task] makes, the replica pinned into it (one
    replica of the owned list with no reader on the device or on the host
    side, taken out of that list and given one reader; no other replica is
    touched) gets a device-to-host copy issued by [dague_gpu_kernel_pop],
    which returns 0 when the driver accepts the copy, and
    [dague_gpu_W2R_task_fini] then leaves it and the host replica SHARED,
    the host version equal to its version, the replica at the tail of the
    free LRU, in neither list otherwise, and its reader count back to 0. *)
Theorem w2r_task_writes_back_pinned_replica (fuel : nat)
    (mempool_ec : Z * list dague_data_pair) w w1 (task : dague_gpu_context) :
  Forall (owned_replica_wf w) (gpu_mem_owned_lru w) ->
  mempool_ec.2 <> [] ->
  create fuel mempool_ec w = Some (w1, Some task) ->
  exists c h,
    (c ∈ gpu_mem_owned_lru w
     /\ copy_readers w (Some c) = 0 /\ host_readers w c = 0
     /\ DAGUE_DATA_GET_COPY w (copy_original w (Some c)) 0 = Some h
     /\ task_type task = GPU_TASK_TYPE_D2HTRANSFER
     /\ (data task !! 0%nat ≫= data_out) = Some c
     /\ gpu_mem_owned_lru w1 = dague_list_item_ring_chop (gpu_mem_owned_lru w) c
     /\ copy_readers w1 (Some c) = 1
     /\ (forall c', c' <> c -> copies w1 !! c' = copies w !! c'))
    /\ let m := {| dst := copy_private w (Some h);
                   src := copy_private w (Some c);
                   count := data_nb_elts w (copy_original w (Some c));
                   kind := cudaMemcpyDeviceToHost |} in
       (cudaMemcpyAsync m = true ->
        exists w2,
          kernel_pop w1 task = Some (0, w2, task)
          /\ memcpys w2 = memcpys w1 ++ [m]
          /\ let w3 := fini w2 task in
             coherency_state <$> copies w3 !! c = Some DATA_COHERENCY_SHARED
             /\ coherency_state <$> copies w3 !! h = Some DATA_COHERENCY_SHARED
             /\ version <$> copies w3 !! h = version <$> copies w3 !! c
             /\ version <$> copies w3 !! c = version <$> copies w !! c
             /\ gpu_mem_lru w3
                = dague_list_item_ring_chop (gpu_mem_lru w) c ++ [c]
             /\ (c ∉ gpu_mem_owned_lru w3)
             /\ copy_readers w3 (Some c) = 0).
Proof.
  intros Hwf Hslots Hcreate.
  destruct (create_W2R_task_pins_one _ _ _ _ _ Hwf Hcreate)
    as (c & Hin & Hr & Hh & Hnb & -> & ->).
  rewrite Forall_forall in Hwf.
  destruct (Hwf c Hin) as (cp & m & dm & h & hp & Hc & Hm & Hdm & Hh0 & Hhp & Hne).
  exists c, h.
  destruct mempool_ec as [ec0 [|slot0 slots]]; [done|]. simpl.
  assert (copy_original w (Some c) = Some m) as Horig.
  { unfold copy_original. simpl. by rewrite Hc. }
  assert (DAGUE_DATA_GET_COPY w (Some m) 0 = Some h) as Hhost.
  { unfold DAGUE_DATA_GET_COPY. simpl. by rewrite Hdm. }
  split.
  - rewrite Horig. repeat split; try done.
    + rewrite (copy_readers_pin w c cp Hc).
      unfold copy_readers in Hr. simpl in Hr. rewrite Hc in Hr. simpl in Hr. lia.
    + intros c' Hc'. unfold pin_replica, update_copy. simpl.
      by rewrite lookup_alter_ne.
  - set (m0 := {| dst := copy_private w (Some h); src := copy_private w (Some c);
                  count := data_nb_elts w (copy_original w (Some c));
                  kind := cudaMemcpyDeviceToHost |}).
    intros Haccept.
    assert (d2h_memcpy (pin_replica w c) c = m0) as Hcopy.
    { unfold m0, d2h_memcpy, copy_private, copy_original, data_nb_elts,
        DAGUE_DATA_GET_COPY, pin_replica, update_copy. simpl.
      rewrite lookup_alter_eq, Hc. simpl. rewrite Hm. simpl. rewrite Hdm. simpl.
      rewrite Hh0. simpl. rewrite lookup_alter_ne by done. by rewrite Hhp. }
    exists (issue_memcpy (pin_replica w c) m0).
    split.
    { assert (d2h_readable (pin_replica w c) c = true) as Hread.
      { unfold d2h_readable, copy_original, DAGUE_DATA_GET_COPY, pin_replica,
          update_copy. simpl.
        rewrite lookup_alter_eq, Hc. simpl. rewrite Hm. simpl. rewrite Hdm. simpl.
        by rewrite Hh0. }
      unfold dague_gpu_kernel_pop. simpl. by rewrite Hread, Hcopy, Haccept. }
    split; [done|].
    unfold dague_gpu_W2R_task_fini. rewrite Hnb. simpl.
    unfold update_copy, copy_original, copy_version, DAGUE_DATA_GET_COPY,
      copy_readers, dague_ulist_fifo_push. simpl.
    unfold pin_replica, update_copy. simpl.
    rewrite !lookup_alter_eq, Hc. simpl. rewrite Hm. simpl. rewrite Hdm. simpl.
    rewrite Hh0. simpl.
    repeat first [rewrite lookup_alter_eq
                 | rewrite lookup_alter_ne by congruence].
    rewrite Hc, Hhp. simpl.
    repeat split.
    + unfold dague_list_item_ring_chop. rewrite list_elem_of_filter. tauto.
    + unfold copy_readers in Hr. simpl in Hr. rewrite Hc in Hr. simpl in Hr. lia.
Qed.

(** When the driver rejects that copy, [dague_gpu_kernel_pop] does not
    reach its [return -2]: the warning it prints first reads
    [this_task->function->out[i]->name], and [dague_gpu_create_W2R_task]
    left [ec->function] NULL. *)
Lemma w2r_task_rejected_copy (fuel : nat)
    (mempool_ec : Z * list dague_data_pair) w w1 (task : dague_gpu_context) :
  create fuel mempool_ec w = Some (w1, Some task) ->
  (forall m, cudaMemcpyAsync m = false) ->
  kernel_pop w1 task = None.
Proof.
  unfold dague_gpu_create_W2R_task. intros Hcreate Hreject.
  destruct (collect fuel _ _ _ _) as [[[w' slots] n]|]; [|done].
  destruct n as [|n]; simplify_eq.
  unfold dague_gpu_kernel_pop, copy_rejected, out_name_readable. simpl.
  destruct (slots !! 0%nat ≫= data_out); [|done].
  destruct (d2h_readable _ _); [|done].
  by rewrite Hreject.
Qed.

(** With a bound of 2 or more the walk never returns a task: after its
    first replica the cursor stays on it. *)
Lemma create_W2R_task_bound (fuel : nat)
    (mempool_ec : Z * list dague_data_pair) w w1 (task : dague_gpu_context) :
  Forall (owned_replica_wf w) (gpu_mem_owned_lru w) ->
  create fuel mempool_ec w = Some (w1, Some task) ->
  DAGUE_GPU_W2R_NB_MOVE_OUT = 1.
Proof.
  intros Hwf Hcreate.
  by destruct (create_W2R_task_pins_one _ _ _ _ _ Hwf Hcreate)
    as (c & _ & _ & _ & Hnb & _).
Qed.

(** With the bound 1 the walk ends within the length of the list. *)
Lemma w2r_collect_total (l : list Z) :
  forall (fuel : nat) (slots : list dague_data_pair) w,
    DAGUE_GPU_W2R_NB_MOVE_OUT = 1 ->
    (length l + 2 <= fuel)%nat ->
    is_Some (collect fuel (in_list l) 0 slots w).
Proof.
  induction l as [|c rest IH]; intros fuel slots w Hnb Hfuel;
    (destruct fuel as [|fuel]; [simpl in Hfuel; lia|]); simpl;
    (destruct (Z.leb_spec DAGUE_GPU_W2R_NB_MOVE_OUT (Z.of_nat 0)) as [Hle|_];
     [simpl in Hle; lia|]).
  - done.
  - destruct (negb _ || negb _).
    + apply IH; [done | simpl in Hfuel; lia].
    + destruct fuel as [|fuel]; [simpl in Hfuel; lia|]. simpl.
      destruct (Z.leb_spec DAGUE_GPU_W2R_NB_MOVE_OUT (Z.of_nat 1)) as [_|Hgt];
        [done | simpl in Hgt; lia].
Qed.

Lemma create_W2R_task_total (mempool_ec : Z * list dague_data_pair) w :
  DAGUE_GPU_W2R_NB_MOVE_OUT = 1 ->
  is_Some (create (length (gpu_mem_owned_lru w) + 2) mempool_ec w).
Proof.
  intros Hnb. unfold dague_gpu_create_W2R_task.
  destruct (w2r_collect_total (gpu_mem_owned_lru w)
              (length (gpu_mem_owned_lru w) + 2) mempool_ec.2 w Hnb)
    as [[[w' slots] n] ->]; [lia|].
  by destruct n.
Qed.

End DrainProps.

Lemma dirty_world_owned_wf :
  Forall (Memory.owned_replica_wf Scenario.dirty_world)
         (Memory.gpu_mem_owned_lru Scenario.dirty_world).
Proof.
  repeat constructor.
  - exists (Memory.with_version 2
              (Scenario.replica 100 2 5000 Memory.DATA_COHERENCY_OWNED
                 Memory.DATA_STATUS_COMPLETE_TRANSFER 0)),
      100, (Scenario.datum {[ 0 := 10; 2 := 20 ]} 2), 10,
      (Scenario.replica 100 0 1000 Memory.DATA_COHERENCY_INVALID
         Memory.DATA_STATUS_NOT_TRANSFER 0).
    by vm_compute.
  - exists (Memory.with_version 2
              (Scenario.replica 101 2 5100 Memory.DATA_COHERENCY_OWNED
                 Memory.DATA_STATUS_COMPLETE_TRANSFER 0)),
      101, (Scenario.datum {[ 0 := 11; 2 := 21 ]} 2), 11,
      (Scenario.replica 101 0 1100 Memory.DATA_COHERENCY_INVALID
         Memory.DATA_STATUS_NOT_TRANSFER 0).
    by vm_compute.
Qed.

(** The write-back task made from two dirty replicas, with the bound 1 and
    a driver that accepts the copy. *)
Lemma w2r_task_writes_back_pinned_replica_witness :
  let w := Scenario.dirty_world in
  let w1 := Memory.pin_replica w 20 in
  let task :=
    {| Memory.ec := 50; Memory.nb_flows := 0; Memory.flow := [];
       Memory.data := [ {| Memory.data_in := None; Memory.data_out := Some 20 |};
                        {| Memory.data_in := None; Memory.data_out := Some 99 |} ];
       Memory.pushout := [];
       Memory.task_type := Memory.GPU_TASK_TYPE_D2HTRANSFER;
       Memory.priority := Memory.INT32_MAX;
       Memory.function_out := None |} in
  exists c h,
    (c ∈ Memory.gpu_mem_owned_lru w
     /\ Memory.copy_readers w (Some c) = 0 /\ Memory.host_readers w c = 0
     /\ Memory.DAGUE_DATA_GET_COPY w (Memory.copy_original w (Some c)) 0 = Some h
     /\ Memory.task_type task = Memory.GPU_TASK_TYPE_D2HTRANSFER
     /\ (Memory.data task !! 0%nat ≫= Memory.data_out) = Some c
     /\ Memory.gpu_mem_owned_lru w1
        = DagueList.dague_list_item_ring_chop (Memory.gpu_mem_owned_lru w) c
     /\ Memory.copy_readers w1 (Some c) = 1
     /\ (forall c', c' <> c -> Memory.copies w1 !! c' = Memory.copies w !! c'))
    /\ exists w2,
         Memory.dague_gpu_kernel_pop 1 2 (fun _ => true) w1 task
         = Some (0, w2, task)
         /\ Memory.memcpys w2
            = Memory.memcpys w1
              ++ [{| Memory.dst := Memory.copy_private w (Some h);
                     Memory.src := Memory.copy_private w (Some c);
                     Memory.count :=
                       Memory.data_nb_elts w (Memory.copy_original w (Some c));
                     Memory.kind := Memory.cudaMemcpyDeviceToHost |}]
         /\ let w3 := Memory.dague_gpu_W2R_task_fini 1 w2 task in
            Memory.coherency_state <$> Memory.copies w3 !! c
            = Some Memory.DATA_COHERENCY_SHARED
            /\ Memory.coherency_state <$> Memory.copies w3 !! h
               = Some Memory.DATA_COHERENCY_SHARED
            /\ Memory.version <$> Memory.copies w3 !! h
               = Memory.version <$> Memory.copies w3 !! c
            /\ Memory.version <$> Memory.copies w3 !! c
               = Memory.version <$> Memory.copies w !! c
            /\ Memory.gpu_mem_lru w3
               = DagueList.dague_list_item_ring_chop (Memory.gpu_mem_lru w) c ++ [c]
            /\ (c ∉ Memory.gpu_mem_owned_lru w3)
            /\ Memory.copy_readers w3 (Some c) = 0.
Proof.
  intros w w1 task.
  destruct (w2r_task_writes_back_pinned_replica 1 2 1 (fun _ => true) 4
              (50, [ {| Memory.data_in := None; Memory.data_out := None |};
                     {| Memory.data_in := None; Memory.data_out := Some 99 |} ])
              w w1 task) as (c & h & Hpinned & Hcopy).
  - exact dirty_world_owned_wf.
  - discriminate.
  - vm_compute. reflexivity.
  - exists c, h. split; [exact Hpinned|]. apply Hcopy. reflexivity.
Defined.

(** With [DAGUE_GPU_W2R_NB_MOVE_OUT] at 2 the walk of the same list does not
    come back, whatever the number of iterations allowed. *)
Example create_W2R_task_bound_2 :
  Memory.dague_gpu_create_W2R_task 2 1000
    (50, [ {| Memory.data_in := None; Memory.data_out := None |};
           {| Memory.data_in := None; Memory.data_out := None |} ])
    Scenario.dirty_world = None.
Proof. vm_compute. reflexivity. Qed.


(** ** Reserving device space *)

Section ReserveProps.

Import DagueList Memory.

Context {zone : Type}.
Variable zone_malloc : zone -> Z -> option (Z * zone).
Variable zone_free : zone -> Z -> zone.
Variable dev : Z.

Local Abbreviation find := (find_another_data zone_malloc zone_free dev).
Local Abbreviation malloc := (malloc_data zone_malloc zone_free dev).
Local Abbreviation flow_step := (reserve_flow zone_malloc zone_free dev).
Local Abbreviation loop := (reserve_loop zone_malloc zone_free dev).
Local Abbreviation reserve :=
  (dague_gpu_data_reserve_device_space zone_malloc zone_free dev).

Implicit Types w : @gpu_world zone.
Implicit Types t : dague_gpu_context.

#[local] Arguments copy_original : simpl never.
#[local] Arguments copy_private : simpl never.
#[local] Arguments copy_readers : simpl never.
#[local] Arguments data_nb_elts : simpl never.
#[local] Arguments DAGUE_DATA_GET_COPY : simpl never.
#[local] Arguments task_master : simpl never.
#[local] Arguments is_task_data : simpl never.
#[local] Arguments task_inputs : simpl never.
#[local] Arguments flow_flags_at : simpl never.

(** The check against the task's own data, in terms of its inputs. *)
Lemma is_task_data_spec w t (o : option Z) :
  is_task_data w t o = true
  <-> exists c, c ∈ task_inputs t /\ copy_original w (Some c) = o.
Proof.
  unfold is_task_data, task_inputs. rewrite existsb_exists. split.
  - intros (dp & Hin & Hdp). destruct (data_in dp) as [c|] eqn:Hc; [|done].
    exists c. split; [|by apply bool_decide_eq_true in Hdp].
    apply list_elem_of_omap. exists dp. split; [by apply list_elem_of_In|done].
  - intros (c & Hin & Ho). apply list_elem_of_omap in Hin as (dp & Hin & Hdp).
    exists dp. split; [by apply list_elem_of_In|].
    rewrite Hdp. by apply bool_decide_eq_true.
Qed.

Lemma is_task_data_ext w w' t (o : option Z) :
  (forall c, c ∈ task_inputs t -> copies w' !! c = copies w !! c) ->
  is_task_data w' t o = is_task_data w t o.
Proof.
  intros Hsame. apply eq_true_iff_eq. rewrite !is_task_data_spec.
  split; intros (c & Hin & Ho); exists c; (split; [done|]);
    unfold copy_original in *; simpl in *; [by rewrite <- Hsame | by rewrite Hsame].
Qed.

Lemma evicted_from_refl (inputs : list Z) w : evicted_from dev inputs w w.
Proof. by repeat split. Qed.

Lemma evicted_from_trans (inputs : list Z) w1 w2 w3 :
  evicted_from dev inputs w1 w2 ->
  evicted_from dev inputs w2 w3 ->
  evicted_from dev inputs w1 w3.
Proof.
  intros (Hn & Hc & Hi & Hd & Hs & Hg) (Hn' & Hc' & Hi' & Hd' & Hs' & Hg').
  repeat split.
  - congruence.
  - auto.
  - intros c Hin. rewrite Hi' by done. auto.
  - intros c m Hin Ho. rewrite (Hd' c m Hin); [by eapply Hd|].
    unfold copy_original in *. simpl in *. by rewrite Hi.
  - intros H. by apply Hs, Hs'.
  - intros H. by apply Hs', Hs.
  - auto.
Qed.

Lemma get_copy_datas w w' (o : option Z) (device : Z) :
  datas w' = datas w ->
  DAGUE_DATA_GET_COPY w' o device = DAGUE_DATA_GET_COPY w o device.
Proof. intros H. unfold DAGUE_DATA_GET_COPY. by rewrite H. Qed.

Lemma copy_original_copies w w' (c : Z) :
  copies w' !! c = copies w !! c ->
  copy_original w' (Some c) = copy_original w (Some c).
Proof. intros H. unfold copy_original. simpl. by rewrite H. Qed.

Lemma free_private_heap w (ptr : option Z) :
  copies (free_private zone_free w ptr) = copies w
  /\ datas (free_private zone_free w ptr) = datas w
  /\ next_obj (free_private zone_free w ptr) = next_obj w
  /\ gpu_mem_lru (free_private zone_free w ptr) = gpu_mem_lru w
  /\ gpu_mem_owned_lru (free_private zone_free w ptr) = gpu_mem_owned_lru w.
Proof. by destruct ptr. Qed.

(** Detaching a replica touches that replica and its datum only. *)
Lemma detach_heap w (m : Z) (v : Z) :
  let w' := dague_data_copy_detach w (Some m) v dev in
  next_obj w' = next_obj w
  /\ gpu_mem_lru w' = gpu_mem_lru w
  /\ gpu_mem_owned_lru w' = gpu_mem_owned_lru w
  /\ (forall c, c <> v -> copies w' !! c = copies w !! c)
  /\ (is_Some (copies w' !! v) -> is_Some (copies w !! v))
  /\ (readers <$> copies w' !! v = readers <$> copies w !! v)
  /\ (forall m', m' <> m -> datas w' !! m' = datas w !! m')
  /\ (forall m', is_Some (datas w' !! m') <-> is_Some (datas w !! m'))
  /\ (forall m' c, DAGUE_DATA_GET_COPY w' (Some m') dev = Some c ->
        DAGUE_DATA_GET_COPY w (Some m') dev = Some c).
Proof.
  unfold dague_data_copy_detach.
  destruct (bool_decide _) eqn:Hdec; simpl; [|by repeat split].
  repeat split; simpl.
  - intros c Hc. by rewrite lookup_alter_ne.
  - rewrite lookup_alter_eq. by intros [? [? [-> ?]]%fmap_Some].
  - rewrite lookup_alter_eq. by destruct (copies w !! v).
  - intros m' Hm'. by rewrite lookup_alter_ne.
  - rewrite lookup_alter_is_Some. done.
  - rewrite lookup_alter_is_Some. done.
  - intros m' c. unfold DAGUE_DATA_GET_COPY. simpl.
    destruct (decide (m' = m)) as [->|Hne].
    + rewrite lookup_alter_eq. destruct (datas w !! m) as [d|]; simpl; [|done].
      by rewrite lookup_delete_eq.
    + by rewrite lookup_alter_ne.
Qed.

(** One eviction: detach, free the block, release the replica. *)
Lemma evict_step_evicted w t (v : Z) :
  is_task_data w t (copy_original w (Some v)) = false ->
  let w1 := dague_data_copy_detach w (copy_original w (Some v)) v dev in
  let w3 := OBJ_RELEASE (free_private zone_free w1 (copy_private w1 (Some v))) v in
  evicted_from dev (task_inputs t) w w3
  /\ gpu_mem_owned_lru w3 = gpu_mem_owned_lru w
  /\ (forall c, c <> v -> copies w3 !! c = copies w !! c).
Proof.
  intros Hnot w1 w3.
  assert (forall c, c ∈ task_inputs t ->
                    copy_original w (Some c) <> copy_original w (Some v)) as Hne.
  { intros c Hin Heq. apply not_true_iff_false in Hnot. apply Hnot.
    apply is_task_data_spec. by exists c. }
  assert (forall c, c ∈ task_inputs t -> c <> v) as Hnev.
  { intros c Hin ->. by apply (Hne v). }
  assert (forall c, c ∈ task_inputs t -> v <> c) as Hnev'.
  { intros c Hin Heq. by apply (Hnev c). }
  destruct (free_private_heap w1 (copy_private w1 (Some v)))
    as (Hfc & Hfd & Hfn & Hfl & Hfo).
  assert (copies w3 = delete v (copies w1)) as Hc3 by (subst w3; simpl; by rewrite Hfc).
  assert (datas w3 = datas w1) as Hd3 by (subst w3; simpl; by rewrite Hfd).
  assert (next_obj w3 = next_obj w1) as Hn3 by (subst w3; simpl; by rewrite Hfn).
  assert (gpu_mem_owned_lru w3 = gpu_mem_owned_lru w1) as Ho3
    by (subst w3; simpl; by rewrite Hfo).
  destruct (copy_original w (Some v)) as [m|] eqn:Hom.
  - destruct (detach_heap w m v) as (Dn & Dl & Do & Dc & Dv & Dr & Dd & Ds & Dg).
    fold w1 in Dn, Dl, Do, Dc, Dv, Dr, Dd, Ds, Dg.
    split; [|split].
    + repeat split.
      * congruence.
      * intros c. rewrite Hc3. intros [x Hx]. apply lookup_delete_Some in Hx as [Hcv Hx].
        rewrite <- Dc by done. by rewrite Hx.
      * intros c Hin. rewrite Hc3. rewrite lookup_delete_ne by (by apply Hnev').
        apply Dc. by apply Hnev.
      * intros c m' Hin Ho. rewrite Hd3. apply Dd. intros ->. by apply (Hne c).
      * rewrite Hd3. apply Ds.
      * rewrite Hd3. apply Ds.
      * intros m' c. rewrite (get_copy_datas w1 w3) by done. apply Dg.
    + congruence.
    + intros c Hcv. rewrite Hc3, lookup_delete_ne by done. by apply Dc.
  - assert (w1 = w) as Hw1 by done.
    rewrite Hw1 in Hc3, Hd3, Hn3, Ho3. split; [|split].
    + repeat split; try done.
      * intros c. rewrite Hc3. intros [x Hx]. apply lookup_delete_Some in Hx as [Hcv Hx].
        by rewrite Hx.
      * intros c Hin. rewrite Hc3. apply lookup_delete_ne. by apply Hnev'.
      * intros c m' Hin Ho. by rewrite Hd3.
      * by rewrite Hd3.
      * by rewrite Hd3.
      * intros m' c. by rewrite (get_copy_datas w w3).
    + done.
    + intros c Hcv. by rewrite Hc3, lookup_delete_ne.
Qed.

Lemma evicted_from_same_heap (inputs : list Z) w w1 w2 :
  copies w2 = copies w1 -> datas w2 = datas w1 -> next_obj w2 = next_obj w1 ->
  evicted_from dev inputs w w1 ->
  evicted_from dev inputs w w2.
Proof.
  intros Hc Hd Hn (En & Ec & Ei & Ed & Es & Eg).
  unfold evicted_from. rewrite Hc, Hd, Hn.
  repeat split; try done; try apply Es.
  intros m c. rewrite (get_copy_datas w1 w2) by done. apply Eg.
Qed.

Lemma copy_readers_copies w w' (c : Z) :
  copies w' !! c = copies w !! c ->
  copy_readers w' (Some c) = copy_readers w (Some c).
Proof. intros H. unfold copy_readers. simpl. by rewrite H. Qed.

(** The eviction loop: what it leaves of the list is a suffix of it, the
    replicas it popped are not put back, those with a reader are left as
    they were, and the state is the former one with some replicas, of data
    that are not the task's, evicted. *)
Lemma find_another_data_spec t (size : Z) (lru : list Z) :
  forall w,
    let r := find t size lru w in
    evicted_from dev (task_inputs t) w r.1
    /\ (exists popped, lru = popped ++ gpu_mem_lru r.1 /\ (lru <> [] -> popped <> []))
    /\ (r.2 = None -> gpu_mem_lru r.1 = [])
    /\ gpu_mem_owned_lru r.1 = gpu_mem_owned_lru w
    /\ (forall c, copy_readers w (Some c) <> 0 -> copies r.1 !! c = copies w !! c).
Proof.
  induction lru as [|v rest IH]; intros w; simpl.
  - refine (conj _ (conj _ (conj _ (conj _ _)))); try done. by exists [].
  - destruct (decide (copy_readers w (Some v) ≠ 0)) as [Hr|Hr].
    { rewrite bool_decide_eq_true_2 by done.
      destruct (IH w) as (He & (popped & Hp & _) & Hn & Ho & Hc).
      refine (conj _ (conj _ (conj _ (conj _ _)))); try done.
      exists (v :: popped). split; [by rewrite Hp at 1|done]. }
    rewrite bool_decide_eq_false_2 by done.
    destruct (is_task_data w t (copy_original w (Some v))) eqn:Htask.
    { destruct (IH w) as (He & (popped & Hp & _) & Hn & Ho & Hc).
      refine (conj _ (conj _ (conj _ (conj _ _)))); try done.
      exists (v :: popped). split; [by rewrite Hp at 1|done]. }
    destruct (evict_step_evicted w t v Htask) as (He3 & Ho3 & Hc3).
    set (w1 := dague_data_copy_detach w (copy_original w (Some v)) v dev) in *.
    set (w3 := OBJ_RELEASE (free_private zone_free w1 (copy_private w1 (Some v))) v) in *.
    assert (forall c, copy_readers w (Some c) <> 0 -> copies w3 !! c = copies w !! c)
      as Hkeep.
    { intros c Hc. apply Hc3. intros ->. by apply Hr. }
    change (memory (free_private zone_free w1 (copy_private w1 (Some v))))
      with (memory w3).
    destruct (zone_malloc (memory w3) size) as [[p z]|] eqn:Hmalloc; simpl.
    + refine (conj _ (conj _ (conj _ (conj _ _)))); try done.
      exists [v]. done.
    + destruct (IH w3) as (He & (popped & Hp & _) & Hn & Ho & Hc).
      refine (conj _ (conj _ (conj _ (conj _ _)))); try done.
      * by eapply evicted_from_trans.
      * exists (v :: popped). split; [by rewrite Hp at 1|done].
      * congruence.
      * intros c Hrc. rewrite Hc; [by apply Hkeep|].
        rewrite (copy_readers_copies w w3) by (by apply Hkeep). done.
Qed.

(** C4 (as amended): during eviction a victim popped from the free LRU
    that fails the [readers == 0] test is not pushed back: the eviction loop
    goes on with the rest of the list exactly as if the victim had not been
    in it.  The victim, when it is in the list once, is then no longer in
    the free LRU; the owned LRU is not touched and the replica itself is
    left unchanged.  So the eviction loop of a reservation removes from the
    free LRU the replicas with readers that it pops. *)
Theorem eviction_drops_victim_with_readers t (size : Z) (v : Z)
    (rest : list Z) w :
  copy_readers w (Some v) <> 0 ->
  v ∉ rest ->
  let r := find t size (v :: rest) w in
  r = find t size rest w
  /\ (v ∉ gpu_mem_lru r.1)
  /\ gpu_mem_owned_lru r.1 = gpu_mem_owned_lru w
  /\ copies r.1 !! v = copies w !! v.
Proof.
  intros Hr Hnotin. simpl. rewrite bool_decide_eq_true_2 by done.
  destruct (find_another_data_spec t size rest w)
    as (_ & (popped & Hp & _) & _ & Ho & Hc).
  repeat split; [|done|by apply Hc].
  intros Hin. apply Hnotin. rewrite Hp. apply elem_of_app. by right.
Qed.

Lemma malloc_data_spec t (size : Z) w :
  let r := malloc t size w in
  evicted_from dev (task_inputs t) w r.1
  /\ (r.2 = None -> gpu_mem_lru r.1 = []).
Proof.
  unfold malloc_data.
  destruct (zone_malloc (memory w) size) as [[p z]|]; simpl.
  - split; [|done]. by apply (evicted_from_same_heap _ w w), evicted_from_refl.
  - destruct (find_another_data_spec t size (gpu_mem_lru w) w) as (He & _ & Hn & _).
    done.
Qed.

Lemma omap_fmap_id {A B : Type} (f : A -> option B) (l : list A) :
  omap f l = omap id (f <$> l).
Proof.
  induction l as [|x l IH]; [done|]. csimpl. rewrite IH. by destruct (f x).
Qed.

Lemma task_inputs_ext t t' :
  nb_flows t' = nb_flows t ->
  data_in <$> data t' = data_in <$> data t ->
  task_inputs t' = task_inputs t.
Proof.
  intros Hn Hd. unfold task_inputs.
  rewrite (omap_fmap_id _ (take _ (data t'))), (omap_fmap_id _ (take _ (data t))).
  by rewrite !fmap_take, Hn, Hd.
Qed.

Lemma set_data_out_data_in t (i : nat) (v : option Z) :
  data_in <$> data (set_data_out t i v) = data_in <$> data t.
Proof.
  simpl. apply list_eq. intros j. rewrite !list_lookup_fmap.
  destruct (decide (i = j)) as [->|Hne].
  - rewrite list_lookup_alter_eq. by destruct (data t !! j).
  - by rewrite list_lookup_alter_ne.
Qed.

Lemma set_data_out_lookup_ne t (i j : nat) (v : option Z) :
  i <> j -> data (set_data_out t i v) !! j = data t !! j.
Proof. intros Hne. simpl. by rewrite list_lookup_alter_ne. Qed.

Lemma set_data_out_lookup_eq t (i : nat) (v : option Z) :
  is_Some (data t !! i) ->
  (data (set_data_out t i v) !! i ≫= data_out) = v.
Proof.
  intros [dp Hdp]. simpl. rewrite list_lookup_alter_eq, Hdp. done.
Qed.

(** A flow whose input mirrors a datum: its input replica is one of the
    task's inputs. *)
Lemma task_master_input w t (i : nat) (m : Z) :
  task_master w t i = Some m ->
  (i < nb_flows t)%nat ->
  exists dp c,
    data t !! i = Some dp /\ data_in dp = Some c
    /\ c ∈ task_inputs t /\ copy_original w (Some c) = Some m.
Proof.
  unfold task_master. intros Hm Hi.
  destruct (data t !! i) as [dp|] eqn:Hdp; [|done]. simpl in Hm.
  destruct (data_in dp) as [c|] eqn:Hc; [|done].
  exists dp, c. repeat split; try done.
  unfold task_inputs. apply list_elem_of_omap. exists dp. split; [|done].
  apply list_elem_of_lookup. exists i. by rewrite lookup_take_lt.
Qed.

Lemma push_back_elem (l : list (option Z)) :
  forall (lru : list Z) (c : Z),
    c ∈ lru \/ Some c ∈ l ->
    c ∈ fold_left (fun l o => match o with
                              | Some c => dague_ulist_lifo_push l c
                              | None => l
                              end) l lru.
Proof.
  induction l as [|o l IH]; intros lru c Hc; simpl.
  - destruct Hc as [Hc|Hc]; [done|]. by apply elem_of_nil in Hc.
  - apply IH. destruct Hc as [Hc|Hc].
    + left. destruct o; [|done]. apply elem_of_cons. by right.
    + apply elem_of_cons in Hc as [<-|Hc]; [|by right].
      left. apply elem_of_cons. by left.
Qed.

Lemma get_copy_attach_inv w (m n m' c : Z) :
  DAGUE_DATA_GET_COPY (dague_data_copy_attach w (Some m) n dev) (Some m') dev = Some c ->
  (m' = m /\ c = n) \/ (m' <> m /\ DAGUE_DATA_GET_COPY w (Some m') dev = Some c).
Proof.
  unfold DAGUE_DATA_GET_COPY, dague_data_copy_attach. simpl.
  destruct (decide (m' = m)) as [->|Hne].
  - rewrite lookup_alter_eq. destruct (datas w !! m) as [d|]; simpl; [|done].
    rewrite lookup_insert_eq. intros; simplify_eq. by left.
  - rewrite lookup_alter_ne by done. intros H. by right.
Qed.

Lemma get_copy_attach_eq w (m n : Z) :
  is_Some (datas w !! m) ->
  DAGUE_DATA_GET_COPY (dague_data_copy_attach w (Some m) n dev) (Some m) dev = Some n.
Proof.
  intros [d Hd]. unfold DAGUE_DATA_GET_COPY, dague_data_copy_attach. simpl.
  rewrite lookup_alter_eq, Hd. simpl. by rewrite lookup_insert_eq.
Qed.

Lemma get_copy_attach_ne w (m n m' : Z) :
  m' <> m ->
  DAGUE_DATA_GET_COPY (dague_data_copy_attach w (Some m) n dev) (Some m') dev
  = DAGUE_DATA_GET_COPY w (Some m') dev.
Proof.
  intros Hne. unfold DAGUE_DATA_GET_COPY, dague_data_copy_attach. simpl.
  by rewrite lookup_alter_ne.
Qed.

Lemma get_copy_datas_lookup w w' (m : Z) (device : Z) :
  datas w' !! m = datas w !! m ->
  DAGUE_DATA_GET_COPY w' (Some m) device = DAGUE_DATA_GET_COPY w (Some m) device.
Proof. intros H. unfold DAGUE_DATA_GET_COPY. simpl. by rewrite H. Qed.

Ltac split_conj := repeat match goal with |- _ /\ _ => split end.

(** The flow at which the loop gives up is not a CTL flow and is left
    without a replica. *)
Lemma reserve_flow_stuck (k : nat) wi ti (tl : list (option Z)) w' t' :
  flow_step k (wi, ti, tl) = inr (w', t') ->
  flow_flags_at ti k <> 0 /\ (data t' !! k ≫= data_out) = None.
Proof.
  unfold reserve_flow.
  destruct (Z.eqb_spec (flow_flags_at ti k) 0) as [Hz|Hnz]; [done|].
  destruct (DAGUE_DATA_GET_COPY wi (task_master wi ti k) dev) as [c|] eqn:Hget;
    [done|].
  unfold OBJ_NEW. cbv beta iota zeta.
  destruct (malloc _ _ _) as [w2 [p|]]; [done|].
  intros [= _ <-]. split; [done|]. simpl.
  rewrite list_lookup_alter_eq. by destruct (data ti !! k).
Qed.

(** The check against the task's own data depends on the task's inputs
    only. *)
Lemma is_task_data_same w w' t t' (o : option Z) :
  task_inputs t' = task_inputs t ->
  (forall c, c ∈ task_inputs t -> copies w' !! c = copies w !! c) ->
  is_task_data w' t' o = is_task_data w t o.
Proof.
  intros Hinputs Hsame. apply eq_true_iff_eq. rewrite !is_task_data_spec.
  rewrite Hinputs.
  split; intros (c & Hin & Ho); exists c; (split; [done|]);
    rewrite <- Ho; [symmetry|]; apply copy_original_copies; by apply Hsame.
Qed.

(** A replica that was detached from its datum is not the replica of the
    datum on the device. *)
Lemma detach_not_attached w (o : option Z) (v : Z) :
  DAGUE_DATA_GET_COPY (dague_data_copy_detach w o v dev) o dev <> Some v.
Proof.
  destruct o as [m|]; [|done]. unfold dague_data_copy_detach.
  destruct (decide (DAGUE_DATA_GET_COPY w (Some m) dev = Some v)) as [Hg|Hg].
  - rewrite bool_decide_eq_true_2 by done.
    unfold DAGUE_DATA_GET_COPY. simpl. rewrite lookup_alter_eq.
    destruct (datas w !! m) as [d|]; simpl; [|done].
    by rewrite lookup_delete_eq.
  - by rewrite bool_decide_eq_false_2.
Qed.

(** One eviction: the replica is released, and is not the replica of its
    datum on the device any more. *)
Lemma evict_step_gone w (v : Z) :
  let w1 := dague_data_copy_detach w (copy_original w (Some v)) v dev in
  let w3 := OBJ_RELEASE (free_private zone_free w1 (copy_private w1 (Some v))) v in
  copies w3 !! v = None
  /\ DAGUE_DATA_GET_COPY w3 (copy_original w (Some v)) dev <> Some v.
Proof.
  intros w1 w3.
  destruct (free_private_heap w1 (copy_private w1 (Some v)))
    as (Hfc & Hfd & _).
  split.
  - subst w3. simpl. apply lookup_delete_eq.
  - rewrite (get_copy_datas w1 w3) by (subst w3; simpl; by rewrite Hfd).
    apply detach_not_attached.
Qed.

(** The eviction loop: the replicas of the task's data and the replicas
    that are not in the list are left as they were; a replica of the list
    that can be evicted is still in the list, unchanged, or was evicted;
    and the loop gives up only when the allocator refuses the size once
    more. *)
Lemma find_another_data_keeps t (size : Z) (lru : list Z) :
  forall w,
    let r := find t size lru w in
    (forall c, is_task_data w t (copy_original w (Some c)) = true ->
       copies r.1 !! c = copies w !! c)
    /\ (forall c, c ∉ lru -> copies r.1 !! c = copies w !! c)
    /\ (forall v, v ∈ lru -> copy_readers w (Some v) = 0 ->
          is_task_data w t (copy_original w (Some v)) = false ->
          (v ∈ gpu_mem_lru r.1 /\ copies r.1 !! v = copies w !! v)
          \/ (copies r.1 !! v = None
              /\ DAGUE_DATA_GET_COPY r.1 (copy_original w (Some v)) dev <> Some v))
    /\ (zone_malloc (memory w) size = None -> r.2 = None ->
          zone_malloc (memory r.1) size = None).
Proof.
  induction lru as [|x rest IH]; intros w; simpl.
  - split_and!; try done. intros v Hv. by apply elem_of_nil in Hv.
  - destruct (decide (copy_readers w (Some x) ≠ 0)) as [Hr|Hr].
    { rewrite bool_decide_eq_true_2 by done.
      destruct (IH w) as (K1 & K2 & K3 & K4). split_and!; try done.
      - intros c Hc. apply K2. by apply not_elem_of_cons in Hc as [_ ?].
      - intros v Hv Hrv Htv. apply elem_of_cons in Hv as [->|Hv]; [done|].
        by apply K3. }
    rewrite bool_decide_eq_false_2 by done.
    destruct (is_task_data w t (copy_original w (Some x))) eqn:Htask.
    { destruct (IH w) as (K1 & K2 & K3 & K4). split_and!; try done.
      - intros c Hc. apply K2. by apply not_elem_of_cons in Hc as [_ ?].
      - intros v Hv Hrv Htv. apply elem_of_cons in Hv as [->|Hv]; [congruence|].
        by apply K3. }
    destruct (evict_step_evicted w t x Htask) as (He3 & Ho3 & Hc3).
    destruct (evict_step_gone w x) as (Hgone & Hdet).
    set (w1 := dague_data_copy_detach w (copy_original w (Some x)) x dev) in *.
    set (w3 := OBJ_RELEASE (free_private zone_free w1 (copy_private w1 (Some x))) x) in *.
    assert (forall o, is_task_data w3 t o = is_task_data w t o) as Hsame.
    { intros o. apply is_task_data_ext. by destruct He3 as (_ & _ & Ei & _). }
    change (memory (free_private zone_free w1 (copy_private w1 (Some x))))
      with (memory w3).
    destruct (find_another_data_spec t size rest w3)
      as ((_ & Ec & _ & _ & _ & Eg) & _).
    destruct (zone_malloc (memory w3) size) as [[p z]|] eqn:Hmalloc; simpl.
    + split_and!; try done.
      * intros c Hc. apply Hc3. intros ->. congruence.
      * intros c Hc. apply Hc3. by apply not_elem_of_cons in Hc as [? _].
      * intros v Hv Hrv Htv. destruct (decide (v = x)) as [->|Hne].
        -- right. done.
        -- left. apply elem_of_cons in Hv as [->|Hv]; [done|].
           split; [done|]. by apply Hc3.
    + destruct (IH w3) as (K1 & K2 & K3 & K4). split_and!.
      * intros c Hc. assert (c <> x) as Hne by (intros ->; congruence).
        rewrite K1; [by apply Hc3|].
        rewrite Hsame, (copy_original_copies w w3) by (by apply Hc3). done.
      * intros c Hc. apply not_elem_of_cons in Hc as [Hne Hc].
        rewrite K2 by done. by apply Hc3.
      * intros v Hv Hrv Htv. destruct (decide (v = x)) as [->|Hne].
        -- right. split.
           ++ apply eq_None_not_Some. intros Hs. apply Ec in Hs.
              rewrite Hgone in Hs. by destruct Hs.
           ++ intros Hg. destruct (copy_original w (Some x)) as [m|] eqn:Hm; [|done].
              by apply Eg in Hg.
        -- apply elem_of_cons in Hv as [->|Hv]; [done|].
           assert (copies w3 !! v = copies w !! v) as Hv3 by (by apply Hc3).
           rewrite <- (copy_original_copies w w3 v), <- Hv3 by done.
           apply K3; [done|..].
           ++ by rewrite (copy_readers_copies w w3).
           ++ by rewrite Hsame, (copy_original_copies w w3).
      * intros _. by apply K4.
Qed.

Lemma malloc_data_keeps t (size : Z) w :
  let r := malloc t size w in
  (forall c, is_task_data w t (copy_original w (Some c)) = true ->
     copies r.1 !! c = copies w !! c)
  /\ (forall c, c ∉ gpu_mem_lru w -> copies r.1 !! c = copies w !! c)
  /\ (forall v, v ∈ gpu_mem_lru w -> copy_readers w (Some v) = 0 ->
        is_task_data w t (copy_original w (Some v)) = false ->
        (v ∈ gpu_mem_lru r.1 /\ copies r.1 !! v = copies w !! v)
        \/ (copies r.1 !! v = None
            /\ DAGUE_DATA_GET_COPY r.1 (copy_original w (Some v)) dev <> Some v))
  /\ (r.2 = None -> zone_malloc (memory r.1) size = None)
  /\ (forall c, c ∈ gpu_mem_lru r.1 -> c ∈ gpu_mem_lru w).
Proof.
  unfold malloc_data.
  destruct (zone_malloc (memory w) size) as [[p z]|] eqn:Hmalloc; simpl.
  - split_and!; try done. intros v Hv _ _. by left.
  - destruct (find_another_data_keeps t size (gpu_mem_lru w) w) as (K1 & K2 & K3 & K4).
    destruct (find_another_data_spec t size (gpu_mem_lru w) w)
      as (_ & (popped & Hp & _) & _).
    split_and!; try done.
    + by apply K4.
    + intros c Hc. rewrite Hp. apply elem_of_app. by right.
Qed.

(** What is in the list after [temp_loc] was pushed back was in the list
    or in [temp_loc]. *)
Lemma push_back_elem_inv (l : list (option Z)) :
  forall (lru : list Z) (c : Z),
    c ∈ fold_left (fun l o => match o with
                              | Some c => dague_ulist_lifo_push l c
                              | None => l
                              end) l lru ->
    c ∈ lru \/ Some c ∈ l.
Proof.
  induction l as [|o l IH]; intros lru c; simpl; [by left|].
  intros Hc. apply IH in Hc as [Hc|Hc]; [|right; by apply elem_of_cons; right].
  destruct o as [c0|]; [|by left].
  unfold dague_ulist_lifo_push in Hc. apply elem_of_cons in Hc as [->|Hc]; [|by left].
  right. apply elem_of_cons. by left.
Qed.

Section Call.

Variable w : @gpu_world zone.
Variable t : dague_gpu_context.
Hypothesis Hwf : reserve_wf dev w t.

Lemma task_master_stable (k : nat) wi ti (tl : list (option Z)) (j : nat) :
  reserve_inv dev w t k (wi, ti, tl) ->
  (j < nb_flows t)%nat ->
  task_master wi ti j = task_master w t j.
Proof.
  intros (Hnf & Hfl & Hdi & Hrest & Hnext & Hfresh & Hreg & Hin & Hds & Hdone
          & Hnew & Hlen) Hj.
  unfold task_master.
  assert (data_in <$> data ti !! j = data_in <$> data t !! j) as Hdj.
  { by rewrite <- !list_lookup_fmap, Hdi. }
  destruct (data ti !! j) as [dp'|], (data t !! j) as [dp|] eqn:Hdp;
    simpl in *; try done.
  simplify_eq. rewrite Hdj. destruct (data_in dp) as [c|] eqn:Hc; [|done].
  apply copy_original_copies, Hin.
  unfold task_inputs. apply list_elem_of_omap. exists dp. split; [|done].
  apply list_elem_of_lookup. exists j. by rewrite lookup_take_lt.
Qed.

Lemma reserve_inv_initial (temp_loc0 : list (option Z)) :
  (nb_flows t <= length temp_loc0)%nat ->
  reserve_inv dev w t 0 (w, t, temp_loc0).
Proof.
  destruct Hwf as (Wfresh & Wreg & Winp & Wout & Wmaster). intros Hlen.
  unfold reserve_inv. split_conj; try done.
  - intros j Hj. lia.
  - intros m c Hget Hc. specialize (Wreg m c Hget). lia.
Qed.

Lemma reserve_flow_inv (k : nat) wi ti (tl : list (option Z)) :
  reserve_inv dev w t k (wi, ti, tl) ->
  (k < nb_flows t)%nat ->
  match flow_step k (wi, ti, tl) with
  | inl st' => reserve_inv dev w t (S k) st'
  | inr (w', t') => pushed_back dev w t w' t'
  end.
Proof.
  intros Hinv Hk.
  pose proof (fun j => task_master_stable k wi ti tl j Hinv) as Hstable.
  destruct Hinv as (Hnf & Hfl & Hdi & Hrest & Hnext & Hfresh & Hreg & Hin & Hds
                    & Hdone & Hnew & Hlen).
  unfold reserve_flow.
  assert (flow_flags_at ti k = flow_flags_at t k) as ->.
  { unfold flow_flags_at. by rewrite Hfl. }
  destruct (Z.eqb_spec (flow_flags_at t k) 0) as [Hz|Hnz].
  { (* a CTL flow *)
    unfold reserve_inv. split_conj; try done.
    - intros j Hj. apply Hrest. lia.
    - intros j Hj Hjn Hfj. apply Hdone; [|done..].
      destruct (decide (j = k)) as [->|]; [done|lia].
    - intros m c Hget Hc. destruct (Hnew m c Hget Hc) as (j & Hj & Htl).
      exists j. split; [lia|done]. }
  destruct Hwf as (Wfresh & Wreg & Winp & Wout & Wmaster).
  destruct (Wmaster k Hk Hnz) as (mk & Hmk & Hdmk).
  rewrite (Hstable k Hk), Hmk.
  destruct (task_master_input w t k mk Hmk Hk) as (dpk & ck & Hdpk & Hck & Hckin & Hcko).
  assert (is_Some (data ti !! k)) as Hslot.
  { rewrite Hrest by lia. by rewrite Hdpk. }
  destruct (DAGUE_DATA_GET_COPY wi (Some mk) dev) as [c|] eqn:Hget.
  { (* the datum has a replica on the device *)
    set (ti1 := set_data_out ti k (Some c)).
    assert (data_in <$> data ti1 = data_in <$> data t) as J1.
    { subst ti1. by rewrite set_data_out_data_in. }
    assert (forall j, (S k <= j)%nat -> data ti1 !! j = data t !! j) as J2.
    { intros j Hj. subst ti1. rewrite set_data_out_lookup_ne by lia.
      apply Hrest. lia. }
    assert (forall j, (j < S k)%nat -> (j < nb_flows t)%nat ->
                      flow_flags_at t j <> 0 ->
                      exists c0, (data ti1 !! j ≫= data_out) = Some c0
                                 /\ DAGUE_DATA_GET_COPY wi (task_master w t j) dev
                                    = Some c0) as J3.
    { intros j Hj Hjn Hfj. destruct (decide (j = k)) as [->|Hne].
      - exists c. split; [by apply set_data_out_lookup_eq|]. by rewrite Hmk.
      - subst ti1. rewrite set_data_out_lookup_ne by done.
        apply Hdone; [lia|done..]. }
    assert (forall m c0, DAGUE_DATA_GET_COPY wi (Some m) dev = Some c0 ->
                         next_obj w <= c0 ->
                         exists j, (j < S k)%nat
                                   /\ <[k:=None]> tl !! j = Some (Some c0)) as J4.
    { intros m c0 Hg Hc0. destruct (Hnew m c0 Hg Hc0) as (j & Hj & Htl).
      exists j. split; [lia|]. by rewrite list_lookup_insert_ne by lia. }
    unfold reserve_inv. rewrite length_insert. split_conj; done. }
  (* a new replica is needed *)
  set (ti1 := set_data_out ti k None).
  set (n0 := next_obj wi).
  set (wN := set_next_obj (set_copies wi (<[n0:=new_copy]> (copies wi))) (n0 + 1)).
  change (OBJ_NEW wi) with (n0, wN). cbv beta iota zeta.
  assert (task_inputs ti1 = task_inputs t) as Hinputs.
  { apply task_inputs_ext; [done|]. subst ti1. by rewrite set_data_out_data_in. }
  assert (forall c0, c0 ∈ task_inputs t -> c0 <> n0) as Hold.
  { intros c0 Hc0 ->. specialize (Winp _ Hc0). lia. }
  assert (forall c0, c0 ∈ task_inputs t -> copies wN !! c0 = copies w !! c0) as HinN.
  { intros c0 Hc0. subst wN. simpl. rewrite lookup_insert_ne; [by apply Hin|].
    intros Heq. by apply (Hold c0). }
  destruct (malloc ti1 (data_nb_elts wN (Some mk)) wN) as [w2 p] eqn:Hmalloc.
  pose proof (malloc_data_spec ti1 (data_nb_elts wN (Some mk)) wN) as Hspec.
  rewrite Hmalloc, Hinputs in Hspec. simpl in Hspec.
  destruct Hspec as ((En & Ec & Ei & Ed & Es & Eg) & Hnone).
  assert (forall j m, (j < nb_flows t)%nat -> task_master w t j = Some m ->
                      datas w2 !! m = datas wi !! m) as Hkeep.
  { intros j m Hj Hm.
    destruct (task_master_input w t j m Hm Hj) as (dp & c0 & _ & _ & Hc0 & Ho).
    apply (Ed c0 m Hc0). rewrite <- Ho. apply copy_original_copies. by apply HinN. }
  destruct p as [p0|].
  - (* a block was found *)
    set (w3 := update_copy w2 n0 (fresh_replica p0)).
    set (w4 := dague_data_copy_attach w3 (Some mk) n0 dev).
    set (w5 := set_gpu_mem_lru w4 (dague_ulist_fifo_push (gpu_mem_lru w4) n0)).
    set (ti2 := set_data_out ti1 k (Some n0)).
    assert (copies w5 = alter (with_original (Some mk) dev) n0
                          (alter (fresh_replica p0) n0 (copies w2))) as Hc5 by done.
    assert (forall m c0, DAGUE_DATA_GET_COPY w2 (Some m) dev = Some c0 ->
                         DAGUE_DATA_GET_COPY wi (Some m) dev = Some c0) as Eg'.
    { intros m c0 Hg. by apply Eg in Hg. }
    assert (forall m c0, DAGUE_DATA_GET_COPY w5 (Some m) dev = Some c0 ->
                         (m = mk /\ c0 = n0)
                         \/ (m <> mk /\ DAGUE_DATA_GET_COPY wi (Some m) dev = Some c0))
      as Hg5.
    { intros m c0 Hg. apply get_copy_attach_inv in Hg as [?|[Hne Hg]]; [by left|].
      right. split; [done|]. by apply Eg'. }
    assert (data_in <$> data ti2 = data_in <$> data t) as J1.
    { subst ti2 ti1. by rewrite !set_data_out_data_in. }
    assert (forall j, (S k <= j)%nat -> data ti2 !! j = data t !! j) as J2.
    { intros j Hj. subst ti2 ti1. rewrite !set_data_out_lookup_ne by lia.
      apply Hrest. lia. }
    assert (next_obj w <= next_obj w5) as J3.
    { change (next_obj w5) with (next_obj w2). rewrite En. subst wN. simpl. lia. }
    assert (next_obj w5 = n0 + 1) as Hn5.
    { change (next_obj w5) with (next_obj w2). by rewrite En. }
    assert (forall c0, is_Some (copies w5 !! c0) -> c0 < next_obj w5) as J4.
    { intros c0. rewrite Hc5, Hn5, !lookup_alter_is_Some. intros Hc0.
      apply Ec in Hc0. subst wN. simpl in Hc0.
      apply lookup_insert_is_Some in Hc0 as [->|[_ Hc0]]; [lia|].
      apply Hfresh in Hc0. lia. }
    assert (forall m c0, DAGUE_DATA_GET_COPY w5 (Some m) dev = Some c0 ->
                         c0 < next_obj w5) as J5.
    { intros m c0 Hg. rewrite Hn5. apply Hg5 in Hg as [[_ ->]|[_ Hg]]; [lia|].
      apply Hreg in Hg. lia. }
    assert (forall c0, c0 ∈ task_inputs t -> copies w5 !! c0 = copies w !! c0) as J6.
    { intros c0 Hc0. rewrite Hc5.
      rewrite !lookup_alter_ne by (intros Heq; by apply (Hold c0)).
      rewrite Ei by done. by apply HinN. }
    assert (forall m, is_Some (datas w5 !! m) <-> is_Some (datas w !! m)) as J7.
    { intros m. change (datas w5) with
        (alter (fun d => with_device_copies (<[dev:=n0]> (device_copies d)) d)
               mk (datas w2)).
      rewrite lookup_alter_is_Some, Es. apply Hds. }
    assert (forall j, (j < S k)%nat -> (j < nb_flows t)%nat ->
                      flow_flags_at t j <> 0 ->
                      exists c0, (data ti2 !! j ≫= data_out) = Some c0
                                 /\ DAGUE_DATA_GET_COPY w5 (task_master w t j) dev
                                    = Some c0) as J8.
    { intros j Hj Hjn Hfj. destruct (decide (j = k)) as [->|Hne].
      - exists n0. split.
        + subst ti2. apply set_data_out_lookup_eq. subst ti1. simpl.
          rewrite list_lookup_alter_eq. destruct Hslot as [? ->]. done.
        + rewrite Hmk. apply get_copy_attach_eq.
          change (datas w3) with (datas w2). apply Es, Hds, Hdmk.
      - destruct (Hdone j ltac:(lia) Hjn Hfj) as (c0 & Hout & Hg).
        exists c0. split.
        + subst ti2 ti1. by rewrite !set_data_out_lookup_ne.
        + destruct (Wmaster j Hjn Hfj) as (mj & Hmj & _). rewrite Hmj in Hg |- *.
          assert (mj <> mk) as Hmne by (intros ->; congruence).
          change (DAGUE_DATA_GET_COPY w5 (Some mj) dev)
            with (DAGUE_DATA_GET_COPY w4 (Some mj) dev).
          subst w4. rewrite get_copy_attach_ne by done.
          rewrite <- Hg. apply get_copy_datas_lookup.
          change (datas w3) with (datas w2). by apply (Hkeep j). }
    assert (forall m c0, DAGUE_DATA_GET_COPY w5 (Some m) dev = Some c0 ->
                         next_obj w <= c0 ->
                         exists j, (j < S k)%nat
                                   /\ <[k:=Some n0]> (<[k:=None]> tl) !! j
                                      = Some (Some c0)) as J9.
    { intros m c0 Hg Hc0. apply Hg5 in Hg as [[_ ->]|[_ Hg]].
      - exists k. split; [lia|]. apply list_lookup_insert_eq.
        rewrite length_insert. lia.
      - destruct (Hnew m c0 Hg Hc0) as (j & Hj & Htl).
        exists j. split; [lia|]. by rewrite !list_lookup_insert_ne by lia. }
    unfold reserve_inv. rewrite !length_insert. split_conj; done.
  - (* the free list ran out *)
    specialize (Hnone eq_refl).
    unfold pushed_back. intros i c0 Hi Hfi Hout Hc0.
    destruct (Wmaster i Hi Hfi) as (mi & Hmi & _).
    destruct (lt_eq_lt_dec i k) as [[Hlt| ->]|Hgt].
    + destruct (Hdone i Hlt Hi Hfi) as (c1 & Hout1 & Hg).
      fold ti1 in Hout. subst ti1. rewrite set_data_out_lookup_ne in Hout by lia.
      assert (c1 = c0) as -> by congruence.
      rewrite Hmi in Hg |- *.
      destruct (Hnew mi c0 Hg Hc0) as (j & Hj & Htl).
      split.
      * simpl. rewrite Hnone. apply push_back_elem. right.
        apply list_elem_of_lookup. exists j.
        rewrite lookup_take_lt by done. by rewrite list_lookup_insert_ne by lia.
      * rewrite <- Hg. apply get_copy_datas_lookup. simpl. by apply (Hkeep i).
    + fold ti1 in Hout. subst ti1.
      rewrite set_data_out_lookup_eq in Hout by done. done.
    + fold ti1 in Hout. subst ti1. rewrite set_data_out_lookup_ne in Hout by lia.
      rewrite Hrest in Hout by lia. specialize (Wout i c0 Hout). lia.
Qed.

(** The loop over the flows [k], ..., [nb_flows - 1]. *)
Lemma reserve_loop_spec (len : nat) :
  forall (k : nat) st,
    (k + len = nb_flows t)%nat ->
    reserve_inv dev w t k st ->
    let '(r, w', t') := loop (seq k len) st in
    (r = 0 /\ exists tl, reserve_inv dev w t (nb_flows t) (w', t', tl))
    \/ (r = -2 /\ pushed_back dev w t w' t'
        /\ exists i, (i < nb_flows t)%nat /\ flow_flags_at t i <> 0
                     /\ (data t' !! i ≫= data_out) = None).
Proof.
  induction len as [|len IH]; intros k [[wi ti] tl] Hk Hinv;
    cbn [seq reserve_loop fst snd].
  - left. split; [done|]. exists tl. by replace (nb_flows t) with k by lia.
  - pose proof (reserve_flow_inv k wi ti tl Hinv ltac:(lia)) as Hstep.
    pose proof (reserve_flow_stuck k wi ti tl) as Hstuck.
    destruct (flow_step k (wi, ti, tl)) as [st'|[w' t']].
    + apply IH; [lia|done].
    + right. split; [done|]. split; [done|].
      destruct (Hstuck w' t' eq_refl) as [Hfk Hout].
      exists k. split; [lia|]. split; [|done].
      destruct Hinv as (_ & Hfl & _). unfold flow_flags_at in *. by rewrite <- Hfl.
Qed.

Lemma reserve_kept_initial (temp_loc0 : list (option Z)) :
  (forall c, c ∈ gpu_mem_lru w -> c < next_obj w) ->
  reserve_kept dev temp_loc0 w t 0 (w, t, temp_loc0).
Proof.
  intros Hlru. destruct Hwf as (Wfresh & Wreg & Winp & Wout & Wmaster).
  unfold reserve_kept. split_and!; try done; try (intros; lia).
  - intros m c Hg Hc. apply Wreg in Hg. lia.
  - intros v _ Hv _ _. by left.
Qed.

(** One iteration of the loop over the flows keeps [reserve_kept], or
    gives up as [reserve_gave_up] says. *)
Lemma reserve_flow_kept (temp_loc0 : list (option Z)) (k : nat) wi ti
    (tl : list (option Z)) :
  reserve_inv dev w t k (wi, ti, tl) ->
  reserve_kept dev temp_loc0 w t k (wi, ti, tl) ->
  (k < nb_flows t)%nat ->
  match flow_step k (wi, ti, tl) with
  | inl st' => reserve_kept dev temp_loc0 w t (S k) st'
  | inr (w', t') => reserve_gave_up zone_malloc dev temp_loc0 w t k w' t'
  end.
Proof.
  intros Hinv Hkept Hk.
  pose proof (fun j => task_master_stable k wi ti tl j Hinv) as Hstable.
  destruct Hinv as (Hnf & Hfl & Hdi & Hrest & Hnext & Hfresh & Hreg & Hin & Hds
                    & Hdone & Hnew & Hlen).
  destruct Hkept as (Ktail & Kctl & Knew & Kold & Kback & Kfr & Klru & Kvict).
  unfold reserve_flow.
  assert (flow_flags_at ti k = flow_flags_at t k) as ->.
  { unfold flow_flags_at. by rewrite Hfl. }
  destruct (Z.eqb_spec (flow_flags_at t k) 0) as [Hz|Hnz].
  { (* a CTL flow *)
    unfold reserve_kept. split_and!; try done.
    - intros j Hj. apply Ktail. lia.
    - intros j Hj Hfj. destruct (decide (j = k)) as [->|Hne].
      + by apply Ktail.
      + apply Kctl; [lia|done].
    - intros j c Hj Hfj. destruct (decide (j = k)) as [->|Hne]; [done|].
      apply Knew; [lia|done]. }
  destruct Hwf as (Wfresh & Wreg & Winp & Wout & Wmaster).
  destruct (Wmaster k Hk Hnz) as (mk & Hmk & Hdmk).
  rewrite (Hstable k Hk), Hmk.
  destruct (task_master_input w t k mk Hmk Hk) as (dpk & ck & Hdpk & Hck & Hckin & Hcko).
  assert (is_Some (data ti !! k)) as Hslot.
  { rewrite Hrest by lia. by rewrite Hdpk. }
  assert (is_task_data w t (Some mk) = true) as Htmk.
  { apply is_task_data_spec. by exists ck. }
  destruct (DAGUE_DATA_GET_COPY wi (Some mk) dev) as [c|] eqn:Hget.
  { (* the datum has a replica on the device *)
    set (ti1 := set_data_out ti k (Some c)).
    unfold reserve_kept. split_and!; try done.
    - intros j Hj. rewrite list_lookup_insert_ne by lia. apply Ktail. lia.
    - intros j Hj Hfj. destruct (decide (j = k)) as [->|Hne]; [done|].
      rewrite list_lookup_insert_ne by done. apply Kctl; [lia|done].
    - intros j c0 Hj Hfj. destruct (decide (j = k)) as [->|Hne].
      + rewrite list_lookup_insert_eq by lia. done.
      + rewrite list_lookup_insert_ne by done. subst ti1.
        rewrite set_data_out_lookup_ne by done. apply Knew; [lia|done]. }
  (* a new replica is needed *)
  set (ti1 := set_data_out ti k None).
  set (n0 := next_obj wi).
  set (wN := set_next_obj (set_copies wi (<[n0:=new_copy]> (copies wi))) (n0 + 1)).
  change (OBJ_NEW wi) with (n0, wN). cbv beta iota zeta.
  assert (task_inputs ti1 = task_inputs t) as Hinputs.
  { apply task_inputs_ext; [done|]. subst ti1. by rewrite set_data_out_data_in. }
  assert (forall c0, c0 ∈ task_inputs t -> c0 <> n0) as Hold.
  { intros c0 Hc0 ->. specialize (Winp _ Hc0). lia. }
  assert (forall c0, c0 ∈ task_inputs t -> copies wN !! c0 = copies w !! c0) as HinN.
  { intros c0 Hc0. subst wN. simpl. rewrite lookup_insert_ne; [by apply Hin|].
    intros Heq. by apply (Hold c0). }
  assert (forall o, is_task_data wN ti1 o = is_task_data w t o) as HtaskN.
  { intros o. by apply is_task_data_same. }
  assert (forall c0, c0 <> n0 -> copies wN !! c0 = copies wi !! c0) as HcN.
  { intros c0 Hc0. subst wN. simpl. by rewrite lookup_insert_ne. }
  assert (n0 ∉ gpu_mem_lru wN) as Hn0lru.
  { intros Hn0. apply Klru in Hn0. lia. }
  assert (forall v, is_Some (copies w !! v) -> v <> n0) as Hvn0.
  { intros v Hv ->. apply Wfresh in Hv. lia. }
  destruct (malloc ti1 (data_nb_elts wN (Some mk)) wN) as [w2 p] eqn:Hmalloc.
  pose proof (malloc_data_spec ti1 (data_nb_elts wN (Some mk)) wN) as Hspec.
  pose proof (malloc_data_keeps ti1 (data_nb_elts wN (Some mk)) wN) as Hkeeps.
  rewrite Hmalloc in Hkeeps. rewrite Hmalloc, Hinputs in Hspec.
  simpl in Hspec. cbn [fst snd] in Hkeeps.
  destruct Hspec as ((En & Ec & Ei & Ed & Es & Eg) & Hnone).
  destruct Hkeeps as (M1 & M2 & M3 & M4 & M5).
  assert (forall j m, (j < nb_flows t)%nat -> task_master w t j = Some m ->
                      datas w2 !! m = datas wi !! m) as Hkeep.
  { intros j m Hj Hm.
    destruct (task_master_input w t j m Hm Hj) as (dp & c0 & _ & _ & Hc0 & Ho).
    apply (Ed c0 m Hc0). rewrite <- Ho. apply copy_original_copies. by apply HinN. }
  assert (forall m c0, DAGUE_DATA_GET_COPY wi (Some m) dev = Some c0 ->
                       next_obj w <= c0 ->
                       copies w2 !! c0 = copies wi !! c0) as Hfrkeep.
  { intros m c0 Hg Hc0. destruct (Kfr m c0 Hg Hc0) as (_ & Ho & Ht).
    assert (c0 <> n0) as Hne by (apply Hreg in Hg; lia).
    rewrite M1; [by apply HcN|].
    rewrite HtaskN, (copy_original_copies wi wN c0), Ho by (by apply HcN). done. }
  assert (forall v, is_Some (copies w !! v) -> v ∈ gpu_mem_lru w ->
            copy_readers w (Some v) = 0 ->
            is_task_data w t (copy_original w (Some v)) = false ->
            (v ∈ gpu_mem_lru w2 /\ copies w2 !! v = copies w !! v)
            \/ (copies w2 !! v = None
                /\ DAGUE_DATA_GET_COPY w2 (copy_original w (Some v)) dev <> Some v))
    as Hvict2.
  { intros v Hv Hvl Hvr Hvt. specialize (Hvn0 v Hv).
    destruct (Kvict v Hv Hvl Hvr Hvt) as [[Hl Hc]|[Hc Hg]].
    - assert (copies wN !! v = copies w !! v) as HvN by (rewrite HcN; done).
      assert (copy_readers wN (Some v) = 0) as HrN
        by (by rewrite (copy_readers_copies w wN)).
      assert (is_task_data wN ti1 (copy_original wN (Some v)) = false) as HtN
        by (by rewrite HtaskN, (copy_original_copies w wN)).
      destruct (M3 v Hl HrN HtN) as [[Hl2 Hc2]|[Hc2 Hg2]].
      + left. split; [done|congruence].
      + right. split; [done|]. by rewrite <- (copy_original_copies w wN v).
    - right. split.
      + apply eq_None_not_Some. intros Hs. apply Ec in Hs.
        rewrite HcN, Hc in Hs by done. by destruct Hs.
      + intros Hg2. destruct (copy_original w (Some v)) as [m|]; [|done].
        by apply Eg in Hg2. }
  destruct p as [p0|].
  - (* a block was found *)
    set (w3 := update_copy w2 n0 (fresh_replica p0)).
    set (w4 := dague_data_copy_attach w3 (Some mk) n0 dev).
    set (w5 := set_gpu_mem_lru w4 (dague_ulist_fifo_push (gpu_mem_lru w4) n0)).
    set (ti2 := set_data_out ti1 k (Some n0)).
    assert (copies w5 = alter (with_original (Some mk) dev) n0
                          (alter (fresh_replica p0) n0 (copies w2))) as Hc5 by done.
    assert (forall c0, c0 <> n0 -> copies w5 !! c0 = copies w2 !! c0) as Hc5ne.
    { intros c0 Hc0. by rewrite Hc5, !lookup_alter_ne. }
    assert (forall m c0, DAGUE_DATA_GET_COPY w5 (Some m) dev = Some c0 ->
                         (m = mk /\ c0 = n0)
                         \/ (m <> mk /\ DAGUE_DATA_GET_COPY w2 (Some m) dev = Some c0))
      as Hg5.
    { intros m c0 Hg. by apply get_copy_attach_inv in Hg. }
    unfold reserve_kept. split_and!.
    + intros j Hj. rewrite !list_lookup_insert_ne by lia. apply Ktail. lia.
    + intros j Hj Hfj. destruct (decide (j = k)) as [->|Hne]; [done|].
      rewrite !list_lookup_insert_ne by done. apply Kctl; [lia|done].
    + intros j c0 Hj Hfj. destruct (decide (j = k)) as [->|Hne].
      * rewrite list_lookup_insert_eq by (rewrite length_insert; lia).
        intros [= <-]. split; [lia|].
        subst ti2. apply set_data_out_lookup_eq. subst ti1. simpl.
        rewrite list_lookup_alter_eq. destruct Hslot as [? ->]. done.
      * rewrite !list_lookup_insert_ne by done. subst ti2 ti1.
        rewrite !set_data_out_lookup_ne by done. apply Knew; [lia|done].
    + intros j c0 Hj Hg. apply Kold in Hg; [|done].
      destruct (task_master w t j) as [mj|] eqn:Hmj; [|done].
      assert (mj <> mk) as Hmne by (intros ->; congruence).
      change (DAGUE_DATA_GET_COPY w5 (Some mj) dev)
        with (DAGUE_DATA_GET_COPY w4 (Some mj) dev).
      subst w4. rewrite get_copy_attach_ne by done.
      rewrite <- Hg. apply get_copy_datas_lookup.
      change (datas w3) with (datas w2). by apply (Hkeep j).
    + intros m c0 Hg Hc0. apply Hg5 in Hg as [[_ ->]|[_ Hg]]; [lia|].
      apply Eg in Hg. by apply Kback.
    + intros m c0 Hg Hc0. apply Hg5 in Hg as [[-> ->]|[Hne Hg]].
      * assert (copies w5 !! n0
                = Some (with_original (Some mk) dev (fresh_replica p0 new_copy)))
          as Hn5.
        { rewrite Hc5, !lookup_alter_eq, M2 by done. subst wN. simpl.
          by rewrite lookup_insert_eq. }
        change (copy_private w5 (Some n0)) with (copies w5 !! n0 ≫= device_private).
        change (copy_original w5 (Some n0)) with (copies w5 !! n0 ≫= original).
        rewrite Hn5. simpl. split_and!; [by eexists|done|done].
      * apply Eg in Hg. destruct (Kfr m c0 Hg Hc0) as (Hp & Ho & Ht).
        assert (c0 <> n0) as Hc0n by (apply Hreg in Hg; lia).
        assert (copies w5 !! c0 = copies wi !! c0) as Heq.
        { rewrite Hc5ne by done. by apply (Hfrkeep m). }
        change (copy_private w5 (Some c0)) with (copies w5 !! c0 ≫= device_private).
        change (copy_original w5 (Some c0)) with (copies w5 !! c0 ≫= original).
        rewrite Heq. done.
    + intros c0. change (gpu_mem_lru w5) with (gpu_mem_lru w2 ++ [n0]).
      change (next_obj w5) with (next_obj w2). rewrite En. simpl.
      intros [Hc0| ->%list_elem_of_singleton]%elem_of_app; [|lia].
      apply M5, Klru in Hc0. lia.
    + intros v Hv Hvl Hvr Hvt. specialize (Hvn0 v Hv).
      destruct (Hvict2 v Hv Hvl Hvr Hvt) as [[Hl Hc]|[Hc Hg]].
      * left. split; [|by rewrite Hc5ne].
        change (gpu_mem_lru w5) with (gpu_mem_lru w2 ++ [n0]).
        apply elem_of_app. by left.
      * right. split; [by rewrite Hc5ne|].
        intros Hg'. destruct (copy_original w (Some v)) as [m|] eqn:Hm; [|done].
        apply Hg5 in Hg' as [[_ ->]|[_ Hg']]; done.
  - (* the free list ran out *)
    specialize (Hnone eq_refl). specialize (M4 eq_refl).
    match goal with
    | |- reserve_gave_up _ _ _ _ _ _ ?x _ => set (wF := x)
    end.
    assert (copies wF = delete n0 (copies w2)) as HcF by done.
    assert (datas wF = datas w2) as HdF by done.
    assert (memory wF = memory w2) as HmF by done.
    assert (gpu_mem_lru wF
            = push_back_temp_loc (<[k:=None]> tl) k (gpu_mem_lru w2)) as HlF by done.
    assert (forall j c0, (j < k)%nat -> tl !! j = Some (Some c0) ->
                         c0 ∈ gpu_mem_lru wF) as Hpushed.
    { intros j c0 Hj Htl. rewrite HlF. apply push_back_elem. right.
      apply list_elem_of_lookup. exists j.
      rewrite lookup_take_lt by done. by rewrite list_lookup_insert_ne by lia. }
    assert (forall j, j <> k -> data ti1 !! j = data ti !! j) as Hti1.
    { intros j Hj. subst ti1. by rewrite set_data_out_lookup_ne. }
    assert (forall j m, (j < nb_flows t)%nat -> task_master w t j = Some m ->
              DAGUE_DATA_GET_COPY wF (Some m) dev
              = DAGUE_DATA_GET_COPY wi (Some m) dev) as HgF.
    { intros j m Hj Hm. apply get_copy_datas_lookup. rewrite HdF.
      by apply (Hkeep j). }
    unfold reserve_gave_up. split_and!.
    + done.
    + done.
    + subst ti1. by apply set_data_out_lookup_eq.
    + rewrite Hmk, (HgF k mk) by done. done.
    + rewrite Hmk, HmF.
      replace (data_nb_elts wF (Some mk)) with (data_nb_elts wN (Some mk)); [done|].
      unfold data_nb_elts. simpl. by rewrite (Hkeep k mk).
    + intros c0. rewrite HlF, Hnone. intros Hc0.
      apply push_back_elem_inv in Hc0 as [Hc0|Hc0]; [by apply elem_of_nil in Hc0|].
      apply list_elem_of_lookup in Hc0 as (j & Hj).
      apply lookup_take_Some in Hj as [Hj Hjk].
      rewrite list_lookup_insert_ne in Hj by lia.
      destruct (decide (flow_flags_at t j = 0)) as [Hfj|Hfj].
      * right. exists j. split_and!; [done|done|]. by rewrite <- Kctl.
      * left. exists j. destruct (Knew j c0 Hjk Hfj Hj) as [Hc0 Hout].
        split_and!; [done|done| |done]. by rewrite Hti1 by lia.
    + intros j c0 Hj Hfj Htl0. apply (Hpushed j); [done|]. by rewrite Kctl.
    + intros j Hj Hfj.
      assert (j < nb_flows t)%nat as Hjn by lia.
      destruct (Hdone j Hj Hjn Hfj) as (c0 & Hout & Hg).
      destruct (Wmaster j Hjn Hfj) as (mj & Hmj & _).
      rewrite Hmj in Hg |- *.
      exists c0. split_and!.
      * by rewrite Hti1 by lia.
      * by rewrite (HgF j mj).
      * intros c1 Hg1. rewrite <- Hmj in Hg1. apply Kold in Hg1; [|done].
        rewrite Hmj in Hg1. congruence.
      * intros Hnone0.
        assert (next_obj w <= c0) as Hc0.
        { destruct (decide (c0 < next_obj w)) as [Hlt|Hge]; [|lia].
          apply (Kback mj c0 Hg) in Hlt. congruence. }
        destruct (Hnew mj c0 Hg Hc0) as (j' & Hj' & Htl).
        destruct (Kfr mj c0 Hg Hc0) as (Hp & Ho & Ht).
        assert (copies wF !! c0 = copies wi !! c0) as Heq.
        { rewrite HcF, lookup_delete_ne by (apply Hreg in Hg; lia).
          by apply (Hfrkeep mj). }
        change (copy_private wF (Some c0)) with (copies wF !! c0 ≫= device_private).
        change (copy_original wF (Some c0)) with (copies wF !! c0 ≫= original).
        rewrite Heq. split_and!; [done|by apply (Hpushed j')|done..].
    + intros j Hj. rewrite Hti1 by lia. apply Hrest. lia.
    + intros v Hv Hvl Hvr Hvt.
      destruct (Hvict2 v Hv Hvl Hvr Hvt) as [[Hl Hc]|[Hc Hg]].
      { rewrite Hnone in Hl. by apply elem_of_nil in Hl. }
      split.
      * rewrite HcF. apply lookup_delete_None. by right.
      * by rewrite (get_copy_datas w2 wF).
Qed.

(** The loop over the flows, with what it keeps. *)
Lemma reserve_loop_kept (temp_loc0 : list (option Z)) (len : nat) :
  forall (k : nat) st,
    (k + len = nb_flows t)%nat ->
    reserve_inv dev w t k st ->
    reserve_kept dev temp_loc0 w t k st ->
    let '(r, w', t') := loop (seq k len) st in
    (r = 0 /\ exists tl, reserve_inv dev w t (nb_flows t) (w', t', tl)
                         /\ reserve_kept dev temp_loc0 w t (nb_flows t) (w', t', tl))
    \/ (r = -2 /\ exists i, reserve_gave_up zone_malloc dev temp_loc0 w t i w' t').
Proof.
  induction len as [|len IH]; intros k [[wi ti] tl] Hk Hinv Hkept;
    cbn [seq reserve_loop fst snd].
  - left. split; [done|]. exists tl. by replace (nb_flows t) with k by lia.
  - pose proof (reserve_flow_inv k wi ti tl Hinv ltac:(lia)) as Hstep.
    pose proof (reserve_flow_kept temp_loc0 k wi ti tl Hinv Hkept ltac:(lia)) as Hstep'.
    destruct (flow_step k (wi, ti, tl)) as [st'|[w' t']].
    + apply IH; [lia|done..].
    + right. split; [done|]. by exists k.
Qed.


End Call.

End ReserveProps.

Lemma one_block_world_reserve_wf :
  Memory.reserve_wf 2 Scenario.one_block_world Scenario.two_inputs.
Proof.
  unfold Memory.reserve_wf. repeat match goal with |- _ /\ _ => split end.
  - intros c [x Hc]. revert c x Hc.
    apply (map_Forall_lookup (fun c _ => c < 20)), map_Forall_to_list.
    by vm_compute; repeat constructor.
  - intros m c. unfold Memory.DAGUE_DATA_GET_COPY. simpl.
    destruct (_ !! m) as [d|] eqn:Hd; simpl; [|done].
    revert c.
    refine (map_Forall_lookup_1
              (fun _ d => forall c, Memory.device_copies d !! 2 = Some c -> c < 20)
              _ m d _ Hd).
    apply map_Forall_to_list.
    vm_compute. repeat constructor; intros ? [=].
  - apply Forall_forall. by vm_compute; repeat constructor.
  - intros [|[|i]] c; by vm_compute.
  - intros [|[|i]] Hi _; [exists 100|exists 101|simpl in Hi; lia];
      by vm_compute; eauto.
Qed.



(** The victim 20, which has a reader, ahead of the victim 21. *)
Lemma eviction_drops_victim_with_readers_witness :
  Memory.copy_readers Scenario.full_world (Some 20) <> 0
  /\ (20 ∉ [21])
  /\ let r := Memory.find_another_data Slab.zone_malloc Slab.zone_free 2
                Scenario.one_input 32 [20; 21] Scenario.full_world in
     r = Memory.find_another_data Slab.zone_malloc Slab.zone_free 2
           Scenario.one_input 32 [21] Scenario.full_world
     /\ (20 ∉ Memory.gpu_mem_lru r.1)
     /\ Memory.gpu_mem_owned_lru r.1 = Memory.gpu_mem_owned_lru Scenario.full_world
     /\ Memory.copies r.1 !! 20 = Memory.copies Scenario.full_world !! 20.
Proof.
  assert (Memory.copy_readers Scenario.full_world (Some 20) <> 0) as Hreaders
    by (vm_compute; discriminate).
  assert (20 ∉ [21]) as Hrest
    by (intros Hin; apply list_elem_of_singleton in Hin; discriminate).
  split; [exact Hreaders|]. split; [exact Hrest|].
  exact (eviction_drops_victim_with_readers Slab.zone_malloc Slab.zone_free 2
           Scenario.one_input 32 20 [21] Scenario.full_world Hreaders Hrest).
Defined.

(** C4, as stated, fails: replica 20 is in the free list with one reader
    when a task asks for room for datum 102; the call succeeds by evicting
    replica 21, and on return replica 20, which still has its reader, is in
    neither list. *)
Lemma victim_with_readers_leaves_the_lists :
  let w := Scenario.full_world in
  let '(r, w', t') := Scenario.reserve [None] w Scenario.one_input in
  Memory.gpu_mem_lru w = [20; 21]
  /\ Memory.copy_readers w (Some 20) = 1
  /\ r = 0
  /\ Memory.gpu_mem_lru w' = [22]
  /\ Memory.gpu_mem_owned_lru w' = []
  /\ Memory.copy_readers w' (Some 20) = 1
  /\ Memory.DAGUE_DATA_GET_COPY w' (Some 100) 2 = Some 20.
Proof.
  vm_compute. repeat split.
Qed.

(** * Further properties *)

(** ** Sorting the pending tasks *)

Section PendingSortProps.

Import DagueList PendingSort.

Variable space_needed : Z -> Z.

Local Abbreviation scan := (scan_min space_needed).
Local Abbreviation fmin := (first_min space_needed).
Local Abbreviation sel := (select_sort space_needed).
Local Abbreviation sort := (dague_gpu_sort_pending_list space_needed).
Local Abbreviation le_space := (fun x y : Z => space_needed x <= space_needed y).
Local Abbreviation has_space k := (fun x : Z => space_needed x = k).

Lemma item_next_app (before rest : list Z) (x : Z) :
  x ∉ before -> item_next (before ++ x :: rest) x = head rest.
Proof.
  induction before as [|y before IH]; intros Hx; simpl.
  - by rewrite bool_decide_eq_true_2.
  - apply not_elem_of_cons in Hx as [Hne Hx].
    rewrite bool_decide_eq_false_2 by done. by apply IH.
Qed.

Lemma item_prev_from_app (before rest : list Z) (x : Z) (prev : option Z) :
  x ∉ before ->
  item_prev_from prev (before ++ x :: rest) x
  = match last before with Some y => Some y | None => prev end.
Proof.
  revert prev. induction before as [|y before IH]; intros prev Hx; simpl.
  - by rewrite bool_decide_eq_true_2.
  - apply not_elem_of_cons in Hx as [Hne Hx].
    rewrite bool_decide_eq_false_2 by done. rewrite IH by done.
    destruct before as [|z before]; [done|]. simpl.
    destruct (last (z :: before)) eqn:Hl; [done|]. by apply last_None in Hl.
Qed.

Lemma add_after_last (before rest : list Z) (new : Z) :
  NoDup before ->
  dague_list_nolock_add_after (before ++ rest) (last before) new
  = before ++ new :: rest.
Proof.
  intros Hnd. destruct (decide (before = [])) as [->|Hne]; [done|].
  destruct (exists_last Hne) as (b & y & ->).
  rewrite last_snoc. simpl.
  apply NoDup_app in Hnd as (_ & Hy & _).
  assert (y ∉ b) as Hyb.
  { intros Hin. apply (Hy y Hin). apply list_elem_of_singleton. done. }
  rewrite <- !app_assoc. simpl. clear Hne Hy.
  induction b as [|z b IH]; simpl.
  - by rewrite bool_decide_eq_true_2.
  - apply not_elem_of_cons in Hyb as [Hne Hyb].
    rewrite bool_decide_eq_false_2 by done. by rewrite IH.
Qed.

Lemma ring_chop_not_in (l : list Z) (m : Z) :
  m ∉ l -> dague_list_item_ring_chop l m = l.
Proof.
  intros Hm. unfold dague_list_item_ring_chop.
  induction l as [|x l IH]; [done|].
  apply not_elem_of_cons in Hm as [Hne Hm].
  rewrite filter_cons_True by done. by rewrite IH.
Qed.

Lemma ring_chop_split (r1 r2 : list Z) (m : Z) :
  m ∉ r1 -> m ∉ r2 -> dague_list_item_ring_chop (r1 ++ m :: r2) m = r1 ++ r2.
Proof.
  intros H1 H2. unfold dague_list_item_ring_chop.
  rewrite filter_app, filter_cons_False by (intros Hne; by apply Hne).
  fold (dague_list_item_ring_chop r1 m). fold (dague_list_item_ring_chop r2 m).
  by rewrite !ring_chop_not_in.
Qed.

(** The inner loop walks the items that follow [p]. *)
Lemma scan_min_first_min (n : nat) :
  forall (rest pre : list Z) (min_p : Z),
    NoDup (pre ++ rest) ->
    scan n (pre ++ rest) (head rest) min_p (space_needed min_p)
    = fmin n rest min_p.
Proof.
  induction n as [|n IH]; intros rest pre min_p Hnd; [by destruct rest|].
  destruct rest as [|q rest]; [done|]. simpl.
  assert (q ∉ pre) as Hq.
  { apply NoDup_app in Hnd as (_ & Hd & _). intros Hin.
    apply (Hd q Hin). apply elem_of_cons. by left. }
  rewrite item_next_app by done.
  replace (pre ++ q :: rest) with ((pre ++ [q]) ++ rest) in *
    by (by rewrite <- app_assoc).
  destruct (space_needed min_p >? space_needed q); by apply IH.
Qed.

(** What the inner loop finds: either [cur] stays the least, or the first
    item that is less than everything before it and not more than what
    follows in the window. *)
Lemma first_min_spec (n : nat) :
  forall (rest : list Z) (cur : Z),
    let m := fmin n rest cur in
    (m = cur /\ Forall (le_space cur) (take n rest))
    \/ (exists r1 r2, rest = r1 ++ m :: r2 /\ (length r1 < n)%nat
          /\ space_needed m < space_needed cur
          /\ Forall (fun x => space_needed m < space_needed x) r1
          /\ Forall (le_space m) (take (n - length r1 - 1) r2)).
Proof.
  induction n as [|n IH]; intros rest cur; simpl.
  { left. split; [done|]. by rewrite take_0. }
  destruct rest as [|q rest]; [by left|]. simpl.
  destruct (Z.gtb_spec (space_needed cur) (space_needed q)) as [Hgt|Hle].
  - destruct (IH rest q) as [[Hm Hall]|(r1 & r2 & Hrest & Hlen & Hlt & H1 & H2)].
    + right. exists [], rest. rewrite Hm. simpl.
      rewrite Nat.sub_0_r. repeat split; try done; lia.
    + right. exists (q :: r1), r2. simpl. rewrite Hrest at 1.
      repeat split; try done; [lia|lia|].
      constructor; [lia|done].
  - destruct (IH rest cur) as [[Hm Hall]|(r1 & r2 & Hrest & Hlen & Hlt & H1 & H2)].
    + left. split; [done|]. constructor; [simpl; lia|done].
    + right. exists (q :: r1), r2. simpl. rewrite Hrest at 1.
      repeat split; try done; [lia|].
      constructor; [lia|done].
Qed.

(** The outer loop is a selection sort of the items from [p] on. *)
Lemma sort_loop_select_sort (n : nat) :
  forall (before after : list Z),
    NoDup (before ++ after) ->
    sort_loop space_needed n (before ++ after) (head after)
    = before ++ sel n after.
Proof.
  induction n as [|n IH]; intros before after Hnd; [by destruct after|].
  destruct after as [|p rest]; [done|].
  cbn [sort_loop select_sort head].
  assert (p ∉ before) as Hp.
  { apply NoDup_app in Hnd as (_ & Hd & _). intros Hin.
    apply (Hd p Hin). apply elem_of_cons. by left. }
  rewrite item_next_app by done.
  replace (before ++ p :: rest) with ((before ++ [p]) ++ rest)
    by (by rewrite <- app_assoc).
  rewrite scan_min_first_min by (by rewrite <- app_assoc).
  rewrite <- (app_assoc before [p] rest). simpl.
  destruct (first_min_spec n rest p)
    as [[Hm _]|(r1 & r2 & Hrest & Hlen & Hlt & _ & _)].
  - rewrite Hm. rewrite bool_decide_eq_false_2 by (intros Hne; by apply Hne).
    rewrite bool_decide_eq_true_2 by done.
    rewrite item_next_app by done.
    replace (before ++ p :: rest) with ((before ++ [p]) ++ rest) in *
      by (by rewrite <- app_assoc).
    rewrite IH by done. by rewrite <- app_assoc.
  - set (m := fmin n rest p) in *.
    assert (m <> p) as Hne by (intros Heq; rewrite Heq in Hlt; lia).
    rewrite bool_decide_eq_true_2 by done.
    rewrite (bool_decide_eq_false_2 (m = p)) by done.
    rewrite Hrest in Hnd.
    apply NoDup_app in Hnd as (Hb & Hd & Ha).
    apply NoDup_cons in Ha as [Hpr Ha].
    apply NoDup_app in Ha as (Hr1 & Hd1 & Hr2).
    apply NoDup_cons in Hr2 as [Hm2 Hr2].
    assert (m ∉ r1) as Hm1.
    { intros Hin. apply (Hd1 m Hin). apply elem_of_cons. by left. }
    assert (m ∉ before) as Hmb.
    { intros Hin. apply (Hd m Hin). rewrite elem_of_cons, elem_of_app, elem_of_cons.
      tauto. }
    assert (dague_list_item_ring_chop (before ++ p :: rest) m
            = before ++ p :: r1 ++ r2) as Hchop.
    { rewrite Hrest.
      replace (before ++ p :: r1 ++ m :: r2) with ((before ++ p :: r1) ++ m :: r2)
        by (by rewrite <- app_assoc).
      rewrite ring_chop_split; [by rewrite <- app_assoc| |done].
      rewrite elem_of_app, elem_of_cons. tauto. }
    rewrite Hchop.
    unfold item_prev. rewrite item_prev_from_app by done.
    assert (match last before with Some y => Some y | None => None end
            = last before) as -> by (by destruct (last before)).
    rewrite add_after_last by done.
    rewrite item_next_app by done.
    assert (dague_list_item_ring_chop rest m = r1 ++ r2) as ->.
    { rewrite Hrest. by apply ring_chop_split. }
    replace (before ++ m :: p :: r1 ++ r2) with ((before ++ [m]) ++ p :: r1 ++ r2)
      by (by rewrite <- app_assoc).
    change (Some p) with (head (p :: r1 ++ r2)).
    rewrite IH; [by rewrite <- app_assoc|].
    rewrite <- app_assoc. simpl.
    apply NoDup_app. split; [done|]. split.
    + intros x Hx Hin. apply (Hd x Hx).
      rewrite !elem_of_cons, elem_of_app in Hin.
      rewrite elem_of_cons, elem_of_app, elem_of_cons. tauto.
    + apply NoDup_cons. split.
      * rewrite elem_of_cons, elem_of_app. intros [Heq|[Hin|Hin]]; [done|..].
        -- by apply Hm1.
        -- by apply Hm2.
      * apply NoDup_cons. split.
        -- intros Hin. apply Hpr. rewrite elem_of_app in Hin.
           rewrite elem_of_app, elem_of_cons. tauto.
        -- apply NoDup_app. split; [done|]. split; [|done].
           intros x Hx Hin. apply (Hd1 x Hx). apply elem_of_cons. by right.
Qed.

Lemma sorted_by_space_cons (x : Z) (l : list Z) :
  Forall (le_space x) l ->
  sorted_by_space space_needed l ->
  sorted_by_space space_needed (x :: l).
Proof.
  intros Hall Hsorted [|i] [|j] a b Hij Ha Hb; simpl in *; simplify_eq.
  - lia.
  - rewrite Forall_forall in Hall. apply (Hall b).
    apply list_elem_of_lookup. by exists j.
  - lia.
  - apply (Hsorted i j); [lia|done..].
Qed.

(** Selection sort of a window: the window is put in order, stably, and
    the rest is left alone. *)
Lemma select_sort_spec (n : nat) :
  forall after : list Z,
    NoDup after ->
    exists window,
      sel n after = window ++ drop n after
      /\ window ≡ₚ take n after
      /\ sorted_by_space space_needed window
      /\ forall k, filter (has_space k) window = filter (has_space k) (take n after).
Proof.
  induction n as [|n IH]; intros after Hnd.
  { exists []. rewrite take_0. simpl. repeat split; try done;
      by intros i j x y _ Hx. }
  destruct after as [|p rest].
  { exists []. simpl. repeat split; try done; by intros i j x y _ Hx. }
  cbn [select_sort].
  apply NoDup_cons in Hnd as [Hp Hrest].
  destruct (first_min_spec n rest p)
    as [[Hm Hall]|(r1 & r2 & Hsplit & Hlen & Hlt & H1 & H2)].
  - rewrite Hm, bool_decide_eq_true_2 by done.
    destruct (IH rest Hrest) as (w & Hsel & Hperm & Hsorted & Hstable).
    exists (p :: w). rewrite Hsel. simpl. repeat split.
    + by rewrite Hperm.
    + apply sorted_by_space_cons; [|done]. by rewrite Hperm.
    + intros k. rewrite !filter_cons, Hstable. done.
  - set (m := fmin n rest p) in *.
    assert (m <> p) as Hne by (intros Heq; rewrite Heq in Hlt; lia).
    rewrite bool_decide_eq_false_2 by done.
    rewrite Hsplit in Hrest, Hp.
    apply NoDup_app in Hrest as (Hr1 & Hd1 & Hr2).
    apply NoDup_cons in Hr2 as [Hm2 Hr2].
    assert (m ∉ r1) as Hm1.
    { intros Hin. apply (Hd1 m Hin). apply elem_of_cons. by left. }
    assert (dague_list_item_ring_chop rest m = r1 ++ r2) as ->.
    { rewrite Hsplit. by apply ring_chop_split. }
    assert (NoDup (p :: r1 ++ r2)) as Hnd'.
    { apply NoDup_cons. split.
      - intros Hin. apply Hp. rewrite elem_of_app in Hin.
        rewrite elem_of_app, elem_of_cons. tauto.
      - apply NoDup_app. split; [done|]. split; [|done].
        intros x Hx Hin. apply (Hd1 x Hx). apply elem_of_cons. by right. }
    destruct (IH _ Hnd') as (w & Hsel & Hperm & Hsorted & Hstable).
    set (j := (n - length r1 - 1)%nat) in *.
    assert (n = S (length r1 + j)) as Hn by lia.
    assert (take n (p :: r1 ++ r2) = p :: r1 ++ take j r2) as Htake'.
    { rewrite Hn. simpl. f_equal. by rewrite take_app_add. }
    assert (take n rest = r1 ++ m :: take j r2) as Htake.
    { rewrite Hsplit, Hn.
      replace (S (length r1 + j)) with (length r1 + S j)%nat by lia.
      by rewrite take_app_add. }
    assert (drop n (p :: r1 ++ r2) = drop n rest) as Hdrop.
    { rewrite Hsplit, Hn. simpl. rewrite drop_app_add.
      replace (S (length r1 + j)) with (length r1 + S j)%nat by lia.
      by rewrite drop_app_add. }
    rewrite Htake' in Hperm, Hstable.
    exists (m :: w). rewrite Hsel, Hdrop. simpl. rewrite Htake.
    repeat split.
    + rewrite Hperm.
      change (p :: r1 ++ m :: take j r2) with ((p :: r1) ++ m :: take j r2).
      by rewrite <- Permutation_middle.
    + apply sorted_by_space_cons; [|done]. rewrite Hperm.
      constructor; [simpl; lia|]. apply Forall_app. split; [|done].
      eapply Forall_impl; [exact H1|]. simpl. intros; lia.
    + intros k. rewrite (filter_cons _ m w), Hstable.
      rewrite !(filter_cons _ p), !filter_app, (filter_cons _ m (take j r2)).
      assert (forall l, Forall (fun x => space_needed m < space_needed x) l ->
                        space_needed m = k -> filter (has_space k) l = []) as Hnone.
      { intros l Hl Hk. induction Hl as [|x l Hx Hl IHl]; [done|].
        rewrite filter_cons_False by (simpl; lia). done. }
      destruct (decide (has_space k m)) as [Hk|Hk]; simpl in Hk.
      * destruct (decide (space_needed p = k)) as [Hpk|Hpk]; [lia|].
        by rewrite (Hnone r1 H1 Hk).
      * by destruct (decide (space_needed p = k)).
Qed.

(** Where a call starts to sort: at the cursor when it points into the
    list, at the head otherwise. *)
Lemma sort_cursor_split (l : list Z) (cursor : option Z) :
  l <> [] ->
  let i := start_index l cursor in
  let p := match cursor with
           | None => ghost_next l
           | Some p =>
               if dague_list_nolock_contains l p then Some p else ghost_next l
           end in
  p = l !! i /\ head (drop i l) = l !! i /\ (i < length l)%nat.
Proof.
  intros Hl i p.
  assert (head (drop i l) = l !! i) as Hhead.
  { rewrite head_lookup, lookup_drop. f_equal. lia. }
  assert (0 < length l)%nat as Hlen by (destruct l; [done|simpl; lia]).
  subst i p. unfold start_index, ghost_next, dague_list_nolock_contains in *.
  destruct cursor as [q|]; [|by rewrite head_lookup].
  destruct (decide (q ∈ l)) as [Hin|Hnin].
  - rewrite bool_decide_eq_true_2 by done.
    destruct (list_find_elem_of (fun x => x = q) l q Hin eq_refl) as [[i x] Hfind].
    rewrite Hfind in Hhead |- *.
    apply list_find_Some in Hfind as (Hi & -> & _).
    split; [done|]. split; [done|]. by apply lookup_lt_Some in Hi.
  - rewrite bool_decide_eq_false_2 by done.
    destruct (list_find (fun x => x = q) l) as [[i x]|] eqn:Hfind.
    + apply list_find_Some in Hfind as (Hi & -> & _).
      exfalso. apply Hnin. by eapply list_elem_of_lookup_2.
    + by rewrite head_lookup.
Qed.

(** X1: [dague_gpu_sort_pending_list] sorts a window of the pending list: the
    [NB_SORT] tasks from the cursor on (from the head, when the cursor is
    NULL or points outside the list) are put in non-decreasing order of the
    space they need, tasks that need the same space keep their order, and
    the tasks before and after the window stay where they are.  The cursor
    is left on the task that was at the start of the window. *)
Theorem sort_pending_list_sorts_window (l : list Z) (cursor : option Z) :
  NoDup l ->
  l <> [] ->
  let i := start_index l cursor in
  let r := sort l cursor in
  exists window,
    r.1 = take i l ++ window ++ drop (i + NB_SORT) l
    /\ window ≡ₚ take NB_SORT (drop i l)
    /\ sorted_by_space space_needed window
    /\ (forall k, filter (has_space k) window
                  = filter (has_space k) (take NB_SORT (drop i l)))
    /\ r.2 = l !! i.
Proof.
  intros Hnd Hl i r.
  destruct (sort_cursor_split l cursor Hl) as (Hp & Hhead & Hi).
  fold i in Hp, Hhead, Hi.
  subst r. unfold dague_gpu_sort_pending_list.
  destruct l as [|x l']; [done|]. cbn [dague_list_nolock_is_empty].
  set (l := x :: l') in *.
  rewrite Hp. cbn [fst snd].
  assert (NoDup (take i l ++ drop i l)) as Hnd' by (by rewrite take_drop).
  pose proof (sort_loop_select_sort NB_SORT (take i l) (drop i l) Hnd') as Hloop.
  rewrite take_drop, Hhead in Hloop. rewrite Hloop.
  assert (NoDup (drop i l)) as Hnd2.
  { by apply NoDup_app in Hnd' as (_ & _ & ?). }
  destruct (select_sort_spec NB_SORT (drop i l) Hnd2)
    as (window & Hsel & Hperm & Hsorted & Hstable).
  exists window. rewrite Hsel, drop_drop. done.
Qed.

End PendingSortProps.

Section CheckSpaceProps.

Import Memory PendingSort.

Context {zone : Type}.
Variable dev : Z.
Variable FLOW_ACCESS_READ : Z.

Lemma space_loop_counts (flows : list nat) (w : @gpu_world zone)
    (t : dague_gpu_context) (space_needed : Z) :
  space_loop dev FLOW_ACCESS_READ flows w t space_needed
  = space_needed
    + Z.of_nat (length (filter (fun i => missing_read_flow dev FLOW_ACCESS_READ w t i
                                         = true) flows)).
Proof.
  revert space_needed. induction flows as [|i flows IH]; intros n; [simpl; lia|].
  cbn [space_loop].
  destruct (missing_read_flow dev FLOW_ACCESS_READ w t i) eqn:Hm.
  - rewrite filter_cons_True by done.
    unfold missing_read_flow in Hm.
    apply andb_true_iff in Hm as [[H1 H2]%andb_true_iff H3].
    apply negb_true_iff in H1. apply bool_decide_eq_true in H2.
    rewrite H1, H2, H3, IH. simpl length. lia.
  - rewrite filter_cons_False by (by rewrite Hm).
    unfold missing_read_flow in Hm.
    destruct (flow_flags_at t i =? 0); [apply IH|].
    destruct (DAGUE_DATA_GET_COPY w (task_master w t i) dev); [apply IH|].
    rewrite bool_decide_eq_true_2 in Hm by done. simpl in Hm. rewrite Hm.
    apply IH.
Qed.

(** X2: [dague_gpu_check_space_needed] counts the flows of the task that are
    read and whose datum has no replica on the device. *)
Theorem check_space_needed_counts (w : @gpu_world zone) (t : dague_gpu_context) :
  dague_gpu_check_space_needed dev FLOW_ACCESS_READ w t
  = Z.of_nat (length (filter (fun i => missing_read_flow dev FLOW_ACCESS_READ w t i
                                       = true)
                             (seq 0 (nb_flows t)))).
Proof. unfold dague_gpu_check_space_needed. by rewrite space_loop_counts. Qed.

End CheckSpaceProps.

(** Three pending tasks, the key of a task being its address: the call
    sorts them, and the cursor follows the task it was on. *)
Lemma sort_pending_list_sorts_window_witness :
  let l := [3; 1; 2] in
  let key := fun x : Z => x in
  NoDup l /\ l <> []
  /\ exists window,
       (PendingSort.dague_gpu_sort_pending_list key l None).1
       = take (PendingSort.start_index l None) l ++ window
         ++ drop (PendingSort.start_index l None + PendingSort.NB_SORT) l
       /\ window ≡ₚ take PendingSort.NB_SORT (drop (PendingSort.start_index l None) l)
       /\ PendingSort.sorted_by_space key window
       /\ (forall k, filter (fun x : Z => key x = k) window
                     = filter (fun x : Z => key x = k)
                         (take PendingSort.NB_SORT
                            (drop (PendingSort.start_index l None) l)))
       /\ (PendingSort.dague_gpu_sort_pending_list key l None).2
          = l !! PendingSort.start_index l None.
Proof.
  intros l key.
  assert (NoDup l) as Hnd by (apply (bool_decide_unpack _); vm_compute; exact I).
  assert (l <> []) as Hne by discriminate.
  split; [exact Hnd|]. split; [exact Hne|].
  exact (sort_pending_list_sorts_window key l None Hnd Hne).
Defined.

Example sort_three_pending_tasks :
  PendingSort.dague_gpu_sort_pending_list (fun x : Z => x) [3; 1; 2] None
  = ([1; 2; 3], Some 3).
Proof. reflexivity. Qed.

(** ** Stage-out of a kernel task *)

Section PopProps.

Import DagueList Memory.

Context {zone : Type}.
Variable FLOW_ACCESS_READ : Z.
Variable FLOW_ACCESS_WRITE : Z.
Variable cudaMemcpyAsync : memcpy -> bool.

Local Abbreviation pop :=
  (pop_loop (zone := zone) FLOW_ACCESS_READ FLOW_ACCESS_WRITE cudaMemcpyAsync).
Local Abbreviation kernel_pop :=
  (dague_gpu_kernel_pop (zone := zone) FLOW_ACCESS_READ FLOW_ACCESS_WRITE
     cudaMemcpyAsync).
Local Abbreviation accepted := (fun m : memcpy => cudaMemcpyAsync m = true).
Local Abbreviation to_host := (fun m : memcpy => kind m = cudaMemcpyDeviceToHost).

Lemma pop_loop_copies (flows : list nat) :
  forall (how_many : Z) (w : gpu_world) (t : dague_gpu_context)
         (r : Z) (w' : gpu_world) (t' : dague_gpu_context),
    pop flows how_many w t = Some (r, w', t') ->
    exists issued,
      memcpys w' = memcpys w ++ issued
      /\ Forall to_host issued
      /\ ((r = how_many + Z.of_nat (length issued)
           /\ Forall accepted issued
           /\ warnings w' = warnings w)
          \/ (r = -2
              /\ warnings w' = warnings w ++ [warn_memcpy_from_device]
              /\ exists sent m, issued = sent ++ [m]
                                /\ Forall accepted sent
                                /\ cudaMemcpyAsync m = false)).
Proof.
  induction flows as [|i flows IH]; intros h w t r w' t' Hpop; simpl in Hpop.
  - simplify_eq. exists []. rewrite app_nil_r. split_and!; try done.
    left. split_and!; [simpl; lia|done|done].
  - destruct (data t !! i ≫= data_out) as [c|]; [|by apply IH in Hpop].
    destruct (bool_decide _); [done|].
    destruct (negb (Z.land (flow_flags_at t i) FLOW_ACCESS_READ =? 0));
      destruct (negb (Z.land (flow_flags_at t i) FLOW_ACCESS_WRITE =? 0));
      simpl in Hpop;
      repeat match type of Hpop with
             | (if ?b then _ else _) = _ =>
                 lazymatch b with
                 | cudaMemcpyAsync _ => fail
                 | _ => destruct b
                 end
             end;
      try discriminate;
      try (apply IH in Hpop as (issued & Hcp & Hkind & Hres);
           exists issued; split_and!; [exact Hcp|exact Hkind|exact Hres]).
    all: match type of Hpop with
         | (if cudaMemcpyAsync ?m then _ else _) = _ =>
             set (m0 := m) in *; destruct (cudaMemcpyAsync m0) eqn:Hm
         end.
    all: try (apply IH in Hpop as (issued & Hcp & Hkind & Hres);
              exists (m0 :: issued); split_and!;
              [ rewrite Hcp; simpl; by rewrite <- app_assoc
              | by constructor
              | destruct Hres
                  as [(-> & Hacc & Hw)|(-> & Hw & sent & m & -> & Hacc & Hrej)];
                [ left; split_and!; [simpl length; lia|by constructor|exact Hw]
                | right; split_and!; [done|exact Hw|];
                  exists (m0 :: sent), m;
                  split_and!; [done|by constructor|done] ] ]).
    all: unfold copy_rejected in Hpop;
      destruct (out_name_readable _ i); [|done]; simplify_eq;
      exists [m0]; split_and!; [done|by constructor|];
      right; split_and!; [done|done|]; by exists [], m0.
Qed.

(** X3: [dague_gpu_kernel_pop] on a kernel task, when it returns: it returns
    the number of copies back to the host that it issued, all accepted by
    the driver, without a warning; or it returns -2 after a warning, and the
    last copy it issued is the one the driver rejected. *)
Theorem kernel_pop_counts_copies (w : gpu_world) (t : dague_gpu_context)
    (r : Z) (w' : gpu_world) (t' : dague_gpu_context) :
  task_type t = GPU_TASK_TYPE_KERNEL ->
  kernel_pop w t = Some (r, w', t') ->
  exists issued,
    memcpys w' = memcpys w ++ issued
    /\ Forall to_host issued
    /\ ((r = Z.of_nat (length issued)
         /\ Forall accepted issued
         /\ warnings w' = warnings w)
        \/ (r = -2
            /\ warnings w' = warnings w ++ [warn_memcpy_from_device]
            /\ exists sent m, issued = sent ++ [m]
                              /\ Forall accepted sent
                              /\ cudaMemcpyAsync m = false)).
Proof.
  intros Hk Hpop. unfold dague_gpu_kernel_pop in Hpop. rewrite Hk in Hpop.
  apply pop_loop_copies in Hpop as (issued & ? & ? & Hres).
  exists issued. split_and!; [done|done|].
  destruct Hres as [(-> & ? & ?)|?]; [left|by right].
  split_and!; [lia|done|done].
Qed.

End PopProps.

(** A task that read and wrote datum 100 through replica 20: its stage-out
    issues one copy and returns 1. *)
Lemma kernel_pop_counts_copies_witness :
  let w := Scenario.read_world in
  let t := Memory.set_data_out Scenario.writer 0 (Some 20) in
  exists r w' t',
    Memory.task_type t = Memory.GPU_TASK_TYPE_KERNEL
    /\ Memory.dague_gpu_kernel_pop 1 2 (fun _ => true) w t = Some (r, w', t')
    /\ r = 1
    /\ exists issued,
         Memory.memcpys w' = Memory.memcpys w ++ issued
         /\ Forall (fun m => Memory.kind m = Memory.cudaMemcpyDeviceToHost) issued
         /\ ((r = Z.of_nat (length issued)
              /\ Forall (fun m => (fun _ : Memory.memcpy => true) m = true) issued
              /\ Memory.warnings w' = Memory.warnings w)
             \/ (r = -2
                 /\ Memory.warnings w'
                    = Memory.warnings w ++ [Memory.warn_memcpy_from_device]
                 /\ exists sent m,
                      issued = sent ++ [m]
                      /\ Forall (fun m => (fun _ : Memory.memcpy => true) m = true) sent
                      /\ (fun _ : Memory.memcpy => true) m = false)).
Proof.
  intros w t.
  destruct (Memory.dague_gpu_kernel_pop 1 2 (fun _ => true) w t)
    as [[[r w'] t']|] eqn:Hpop; [|by vm_compute in Hpop].
  exists r, w', t'.
  split; [reflexivity|]. split; [reflexivity|].
  split; [vm_compute in Hpop; congruence|].
  exact (kernel_pop_counts_copies 1 2 (fun _ => true) w t r w' t' eq_refl Hpop).
Defined.

(** ** The check of a task that completes on the stage-in stream *)

Section CompletionProps.

Import Memory.

Context {zone : Type}.

Local Abbreviation completed :=
  (fun x : dague_data_copy =>
     with_transfer DATA_STATUS_COMPLETE_TRANSFER (push_task x) x).

Lemma stage_in_completed_loop_spec (t : dague_gpu_context) (flows : list nat) :
  forall (w w' : @gpu_world zone) (ready : bool),
    stage_in_completed_loop flows t w = (w', ready) ->
    (forall c,
        copies w' !! c = copies w !! c
        \/ exists cp, copies w !! c = Some cp
                      /\ push_task cp = Some (ec t)
                      /\ copies w' !! c = Some (completed cp))
    /\ (ready = true ->
        Forall (fun i =>
                  flow_flags_at t i <> 0 ->
                  exists c cp,
                    (data t !! i ≫= data_out) = Some c
                    /\ copies w' !! c = Some cp
                    /\ data_transfer_status cp = DATA_STATUS_COMPLETE_TRANSFER)
               flows).
Proof.
  induction flows as [|i flows IH]; intros w w' ready Hloop; simpl in Hloop.
  - simplify_eq. split; [by left|]. by constructor.
  - destruct (Z.eqb_spec (flow_flags_at t i) 0) as [Hz|Hnz].
    { destruct (IH _ _ _ Hloop) as [Hframe Hready]. split; [done|].
      intros Hr. constructor; [done|by apply Hready]. }
    destruct (data t !! i ≫= data_out) as [c|] eqn:Hout;
      [|simplify_eq; split; [by left|done]].
    destruct (copies w !! c) as [cp|] eqn:Hc;
      [|simplify_eq; split; [by left|done]].
    destruct (decide (push_task cp = Some (ec t))) as [Hp|Hp].
    + rewrite bool_decide_eq_true_2 in Hloop by done.
      destruct (IH _ _ _ Hloop) as [Hframe Hready].
      assert (forall c0, c0 <> c ->
                copies (update_copy w c completed) !! c0 = copies w !! c0) as Hne.
      { intros c0 Hc0. simpl. by rewrite lookup_alter_ne. }
      assert (copies (update_copy w c completed) !! c = Some (completed cp)) as Heq.
      { simpl. by rewrite lookup_alter_eq, Hc. }
      split.
      * intros c0. destruct (decide (c0 = c)) as [->|Hc0].
        -- right. exists cp. split; [done|]. split; [done|].
           destruct (Hframe c) as [Hsame|(cp1 & Hcp1 & _ & Hw')].
           ++ by rewrite Hsame.
           ++ rewrite Hw'. rewrite Heq in Hcp1. by simplify_eq.
        -- destruct (Hframe c0) as [Hsame|(cp1 & Hcp1 & Hp1 & Hw')].
           ++ left. rewrite Hsame. by apply Hne.
           ++ right. exists cp1. rewrite <- Hne by done. done.
      * intros Hr. constructor; [|by apply Hready].
        intros _. exists c.
        destruct (Hframe c) as [Hsame|(cp1 & Hcp1 & _ & Hw')].
        -- exists (completed cp). by rewrite Hsame.
        -- exists (completed cp1). done.
    + rewrite bool_decide_eq_false_2 in Hloop by done.
      destruct (decide (data_transfer_status cp = DATA_STATUS_COMPLETE_TRANSFER))
        as [Hs|Hs].
      * rewrite bool_decide_eq_true_2 in Hloop by done.
        destruct (IH _ _ _ Hloop) as [Hframe Hready]. split; [done|].
        intros Hr. constructor; [|by apply Hready].
        intros _. exists c.
        destruct (Hframe c) as [Hsame|(cp1 & Hcp1 & _ & Hw')].
        -- exists cp. by rewrite Hsame.
        -- exists (completed cp1). done.
      * rewrite bool_decide_eq_false_2 in Hloop by done. simplify_eq.
        split; [by left|done].
Qed.

(** X4: the check that [progress_stream] makes on a task that completes on the
    stage-in stream, when it finds the task ready: every flow that is not a
    CTL flow has for [data_out] a replica that is now marked
    COMPLETE_TRANSFER; and in any case the check changes nothing but the
    transfer status of replicas that this task pushed. *)
Theorem stage_in_completed_marks_transfers (t : dague_gpu_context)
    (w w' : @gpu_world zone) :
  stage_in_completed_loop (seq 0 (nb_flows t)) t w = (w', true) ->
  (forall i, (i < nb_flows t)%nat -> flow_flags_at t i <> 0 ->
     exists c cp,
       (data t !! i ≫= data_out) = Some c
       /\ copies w' !! c = Some cp
       /\ data_transfer_status cp = DATA_STATUS_COMPLETE_TRANSFER)
  /\ (forall c,
        copies w' !! c = copies w !! c
        \/ exists cp, copies w !! c = Some cp
                      /\ push_task cp = Some (ec t)
                      /\ copies w' !! c = Some (completed cp))
  /\ datas w' = datas w
  /\ gpu_mem_lru w' = gpu_mem_lru w
  /\ gpu_mem_owned_lru w' = gpu_mem_owned_lru w.
Proof.
  intros Hloop.
  destruct (stage_in_completed_loop_spec t _ _ _ _ Hloop) as [Hframe Hready].
  split_and!; [|done|..].
  - intros i Hi. specialize (Hready eq_refl). rewrite Forall_forall in Hready.
    apply Hready. apply elem_of_seq. lia.
  - clear Hframe Hready. revert w Hloop.
    induction (seq 0 (nb_flows t)) as [|i flows IH]; intros w Hloop;
      simpl in Hloop; [by simplify_eq|].
    repeat case_match; simplify_eq; try done; by rewrite (IH _ Hloop).
  - clear Hframe Hready. revert w Hloop.
    induction (seq 0 (nb_flows t)) as [|i flows IH]; intros w Hloop;
      simpl in Hloop; [by simplify_eq|].
    repeat case_match; simplify_eq; try done; by rewrite (IH _ Hloop).
  - clear Hframe Hready. revert w Hloop.
    induction (seq 0 (nb_flows t)) as [|i flows IH]; intros w Hloop;
      simpl in Hloop; [by simplify_eq|].
    repeat case_match; simplify_eq; try done; by rewrite (IH _ Hloop).
Qed.

End CompletionProps.

(** Replica 20 was pushed by the task itself (execution context 7) and is
    still marked under transfer: the check marks it complete. *)
Lemma stage_in_completed_marks_transfers_witness :
  let w :=
    Scenario.world
      {[ 10 := Scenario.host_replica 100 1000;
         20 := Memory.with_transfer Memory.DATA_STATUS_UNDER_TRANSFER (Some 7)
                 (Scenario.replica 100 2 5000 Memory.DATA_COHERENCY_SHARED
                    Memory.DATA_STATUS_NOT_TRANSFER 1) ]}
      {[ 100 := Scenario.datum {[ 0 := 10; 2 := 20 ]} 0 ]}
      21 [] [] [] in
  let t := Memory.set_data_out Scenario.writer 0 (Some 20) in
  exists w',
    Memory.stage_in_completed_loop (seq 0 (Memory.nb_flows t)) t w = (w', true)
    /\ (Memory.data_transfer_status <$> Memory.copies w !! 20)
       = Some Memory.DATA_STATUS_UNDER_TRANSFER
    /\ forall i, (i < Memory.nb_flows t)%nat -> Memory.flow_flags_at t i <> 0 ->
         exists c cp,
           (Memory.data t !! i ≫= Memory.data_out) = Some c
           /\ Memory.copies w' !! c = Some cp
           /\ Memory.data_transfer_status cp = Memory.DATA_STATUS_COMPLETE_TRANSFER.
Proof.
  intros w t.
  destruct (Memory.stage_in_completed_loop (seq 0 (Memory.nb_flows t)) t w)
    as [w' ready] eqn:Hloop.
  assert (ready = true) as -> by (vm_compute in Hloop; congruence).
  exists w'. split; [reflexivity|]. split; [reflexivity|].
  exact (proj1 (stage_in_completed_marks_transfers t w w' Hloop)).
Defined.

(** ** Completion of a kernel task *)

Section EpilogProps.

Import DagueList Memory Epilog.

Context {zone : Type}.
Variable FLOW_ACCESS_WRITE : Z.

Local Abbreviation epilog := (epilog_loop (zone := zone) FLOW_ACCESS_WRITE).
Local Abbreviation requeue := (requeued FLOW_ACCESS_WRITE).
Local Abbreviation shared :=
  (fun (w : @gpu_world zone) (c : Z) =>
     coherency_state <$> copies w !! c = Some DATA_COHERENCY_SHARED).

Implicit Types w : @gpu_world zone.
Implicit Types t : dague_gpu_context.

#[local] Arguments copy_original : simpl never.
#[local] Arguments copy_version : simpl never.
#[local] Arguments DAGUE_DATA_GET_COPY : simpl never.
#[local] Arguments flow_flags_at : simpl never.

Lemma omap_eq_on {A B : Type} (f g : A -> option B) (l : list A) :
  (forall x, x ∈ l -> f x = g x) -> omap f l = omap g l.
Proof.
  induction l as [|x l IH]; intros Heq; [done|].
  change (omap f (x :: l))
    with (match f x with Some y => y :: omap f l | None => omap f l end).
  change (omap g (x :: l))
    with (match g x with Some y => y :: omap g l | None => omap g l end).
  rewrite (Heq x) by (apply elem_of_cons; by left).
  rewrite IH; [done|]. intros y Hy. apply Heq. apply elem_of_cons. by right.
Qed.

(** One update of a replica that leaves [original] alone. *)
Lemma update_copy_links w (c : Z) (f : dague_data_copy -> dague_data_copy) :
  (forall x, original (f x) = original x) ->
  let w' := update_copy w c f in
  datas w' = datas w
  /\ gpu_mem_lru w' = gpu_mem_lru w
  /\ gpu_mem_owned_lru w' = gpu_mem_owned_lru w
  /\ (forall c0, copy_original w' (Some c0) = copy_original w (Some c0))
  /\ (forall c0, is_Some (copies w' !! c0) <-> is_Some (copies w !! c0)).
Proof.
  intros Hf w'. split_and!; try done.
  - intros c0. unfold copy_original. subst w'. simpl.
    destruct (decide (c0 = c)) as [->|Hne].
    + rewrite lookup_alter_eq. destruct (copies w !! c); simpl; [apply Hf|done].
    + by rewrite lookup_alter_ne.
  - intros c0. subst w'. simpl. apply lookup_alter_is_Some.
Qed.

Lemma update_copy_shared w (c c0 : Z) (f : dague_data_copy -> dague_data_copy) :
  (forall x, coherency_state (f x) = coherency_state x
             \/ coherency_state (f x) = DATA_COHERENCY_SHARED) ->
  shared w c0 -> shared (update_copy w c f) c0.
Proof.
  intros Hf Hs. simpl. destruct (decide (c0 = c)) as [->|Hne].
  - rewrite lookup_alter_eq. destruct (copies w !! c) as [x|]; simpl in *; [|done].
    destruct (Hf x) as [->| ->]; done.
  - by rewrite lookup_alter_ne.
Qed.

Lemma update_copy_set_shared w (c : Z) :
  is_Some (copies w !! c) ->
  shared (update_copy w c (with_coherency DATA_COHERENCY_SHARED)) c.
Proof. intros [x Hx]. simpl. by rewrite lookup_alter_eq, Hx. Qed.

Lemma requeued_set_data_out t (i j : nat) (v : option Z) (b : bool) :
  i <> j -> requeue (set_data_out t i v) b j = requeue t b j.
Proof.
  intros Hne. unfold requeued, flow_flags_at. simpl.
  by rewrite list_lookup_alter_ne.
Qed.

Lemma epilog_loop_spec (flows : list nat) :
  forall w t w' t',
    NoDup flows ->
    epilog flows w t = Some (w', t') ->
    gpu_mem_lru w' = gpu_mem_lru w ++ omap (requeue t true) flows
    /\ gpu_mem_owned_lru w' = gpu_mem_owned_lru w ++ omap (requeue t false) flows
    /\ datas w' = datas w
    /\ (forall c, copy_original w' (Some c) = copy_original w (Some c))
    /\ (forall c, is_Some (copies w' !! c) <-> is_Some (copies w !! c))
    /\ (forall c, shared w c -> shared w' c)
    /\ flow t' = flow t /\ pushout t' = pushout t
    /\ (forall i, i ∉ flows -> data t' !! i = data t !! i)
    /\ (forall i, i ∈ flows ->
          match data t !! i ≫= data_out with
          | Some c =>
              if Z.land (flow_flags_at t i) FLOW_ACCESS_WRITE =? 0
              then data t' !! i = data t !! i
              else exists h,
                  DAGUE_DATA_GET_COPY w (copy_original w (Some c)) 0 = Some h
                  /\ (data t' !! i ≫= data_out) = Some h
                  /\ (is_Some (copies w !! c) -> shared w' c)
                  /\ (is_Some (copies w !! h) -> shared w' h)
          | None => data t' !! i = data t !! i
          end).
Proof.
  induction flows as [|i flows IH]; intros w t w' t' Hnd Hloop;
    cbn [epilog_loop] in Hloop.
  - simplify_eq. rewrite !app_nil_r. split_and!; try done.
    intros i Hi. by apply elem_of_nil in Hi.
  - apply NoDup_cons in Hnd as [Hi Hnd].
    assert (forall b, requeue t b i = None ->
              omap (requeue t b) (i :: flows) = omap (requeue t b) flows) as Hskip.
    { intros b Hb. simpl. by rewrite Hb. }
    assert (forall b c0, requeue t b i = Some c0 ->
              omap (requeue t b) (i :: flows)
              = c0 :: omap (requeue t b) flows) as Hhit.
    { intros b c0 Hb. simpl. by rewrite Hb. }
    destruct (data t !! i ≫= data_out) as [c|] eqn:Hout.
    2:{ destruct (IH _ _ _ _ Hnd Hloop)
          as (H1 & H2 & H3 & H4 & H5 & H6 & H7 & H8 & H9 & H10).
        assert (forall b, requeue t b i = None) as Hnone.
        { intros b. unfold requeued. rewrite Hout. by destruct (_ && _). }
        rewrite !Hskip by done. split_and!; try done.
        - intros j Hj. apply H9. by apply not_elem_of_cons in Hj as [_ ?].
        - intros j [->|Hj]%elem_of_cons; [|by apply H10].
          rewrite Hout. by apply H9. }
    destruct (Z.eqb_spec (Z.land (flow_flags_at t i) FLOW_ACCESS_WRITE) 0)
      as [Hz|Hnz].
    { destruct (IH _ _ _ _ Hnd Hloop)
        as (H1 & H2 & H3 & H4 & H5 & H6 & H7 & H8 & H9 & H10).
      assert (forall b, requeue t b i = None) as Hnone.
      { intros b. unfold requeued. by rewrite Hz. }
      rewrite !Hskip by done. split_and!; try done.
      - intros j Hj. apply H9. by apply not_elem_of_cons in Hj as [_ ?].
      - intros j [->|Hj]%elem_of_cons; [|by apply H10].
        rewrite Hout, Hz. simpl. by apply H9. }
    destruct (DAGUE_DATA_GET_COPY w (copy_original w (Some c)) 0) as [h|] eqn:Hh;
      [|done].
    set (wa := update_copy w c (with_coherency DATA_COHERENCY_SHARED)) in *.
    set (wb := update_copy wa h (with_coherency DATA_COHERENCY_SHARED)) in *.
    set (wc := update_copy wb h (with_version (copy_version wb (Some c)))) in *.
    set (wd := update_copy wc c (fun x => with_version (version x + 1) x)) in *.
    set (t1 := set_data_out t i (Some h)) in *.
    destruct (update_copy_links w c (with_coherency DATA_COHERENCY_SHARED))
      as (A1 & A2 & A3 & A4 & A5); [done|].
    destruct (update_copy_links wa h (with_coherency DATA_COHERENCY_SHARED))
      as (B1 & B2 & B3 & B4 & B5); [done|].
    destruct (update_copy_links wb h (with_version (copy_version wb (Some c))))
      as (C1 & C2 & C3 & C4 & C5); [done|].
    destruct (update_copy_links wc c (fun x => with_version (version x + 1) x))
      as (D1 & D2 & D3 & D4 & D5); [done|].
    fold wa in A1, A2, A3, A4, A5. fold wb in B1, B2, B3, B4, B5.
    fold wc in C1, C2, C3, C4, C5. fold wd in D1, D2, D3, D4, D5.
    assert (datas wd = datas w) as Hdd by congruence.
    assert (forall c0, copy_original wd (Some c0) = copy_original w (Some c0)) as Hod.
    { intros c0. by rewrite D4, C4, B4, A4. }
    assert (forall c0, is_Some (copies wd !! c0) <-> is_Some (copies w !! c0)) as Hsd.
    { intros c0. by rewrite D5, C5, B5, A5. }
    assert (forall c0, shared w c0 -> shared wd c0) as Hmono.
    { intros c0 Hs. apply update_copy_shared; [by left|].
      apply update_copy_shared; [by left|].
      apply update_copy_shared; [by right|].
      apply update_copy_shared; [by right|]. done. }
    assert (is_Some (copies w !! c) -> shared wd c) as Hc.
    { intros Hlive. apply update_copy_shared; [by left|].
      apply update_copy_shared; [by left|].
      apply update_copy_shared; [by right|].
      by apply update_copy_set_shared. }
    assert (is_Some (copies w !! h) -> shared wd h) as Hhs.
    { intros Hlive. apply update_copy_shared; [by left|].
      apply update_copy_shared; [by left|].
      apply update_copy_set_shared. by apply A5. }
    assert (pushout t1 = pushout t) as Hpush by done.
    assert (flow t1 = flow t) as Hflow by done.
    assert (forall b, omap (requeue t1 b) flows = omap (requeue t b) flows) as Hrest.
    { intros b. apply omap_eq_on. intros j Hj. apply requeued_set_data_out.
      intros ->. done. }
    assert (forall j, j <> i -> data t1 !! j = data t !! j) as Hdata.
    { intros j Hj. subst t1. simpl. by rewrite list_lookup_alter_ne. }
    assert (is_Some (data t !! i)) as Hslot.
    { destruct (data t !! i); [by eexists|done]. }
    assert ((data t1 !! i ≫= data_out) = Some h) as Hout1.
    { subst t1. simpl. rewrite list_lookup_alter_eq. by destruct Hslot as [? ->]. }
    rewrite Hpush in Hloop.
    destruct (default false (pushout t !! i)) eqn:Hp.
    + set (we := set_gpu_mem_lru wd (dague_ulist_fifo_push (gpu_mem_lru wd) c)) in *.
      destruct (IH _ _ _ _ Hnd Hloop)
        as (H1 & H2 & H3 & H4 & H5 & H6 & H7 & H8 & H9 & H10).
      assert (requeue t true i = Some c) as Ht.
      { unfold requeued. rewrite Hp, Hout.
        by destruct (Z.land _ _ =? 0) eqn:E; [apply Z.eqb_eq in E|]. }
      assert (requeue t false i = None) as Hf.
      { unfold requeued. rewrite Hp. by destruct (negb _). }
      split_and!.
      * rewrite H1, Hrest, (Hhit true c Ht).
        change (gpu_mem_lru we) with (gpu_mem_lru wd ++ [c]).
        rewrite D2, C2, B2, A2. by rewrite <- app_assoc.
      * rewrite H2, Hrest, (Hskip false Hf).
        change (gpu_mem_owned_lru we) with (gpu_mem_owned_lru wd).
        by rewrite D3, C3, B3, A3.
      * by rewrite H3.
      * intros c0. rewrite H4. apply Hod.
      * intros c0. rewrite H5. apply Hsd.
      * intros c0 Hs. apply H6. by apply Hmono.
      * by rewrite H7.
      * by rewrite H8.
      * intros j Hj. apply not_elem_of_cons in Hj as [Hji Hj].
        rewrite H9 by done. by apply Hdata.
      * intros j [->|Hj]%elem_of_cons.
        -- rewrite Hout. destruct (Z.eqb_spec (Z.land (flow_flags_at t i)
                                                  FLOW_ACCESS_WRITE) 0); [done|].
           exists h. split; [done|]. rewrite H9 by done.
           split; [done|]. split; intros Hlive; apply H6; auto.
        -- assert (j <> i) as Hji by (intros ->; done).
           specialize (H10 j Hj). rewrite Hdata in H10 by done.
           assert (flow_flags_at t1 j = flow_flags_at t j) as Hfj by done.
           rewrite Hfj in H10.
           destruct (data t !! j ≫= data_out) as [cj|]; [|done].
           destruct (Z.land (flow_flags_at t j) FLOW_ACCESS_WRITE =? 0);
             [done|].
           destruct H10 as (hj & Hg & Ho & Hsc & Hsh). exists hj.
           change (datas we) with (datas wd) in *.
           split_and!.
           ++ rewrite <- Hg. unfold DAGUE_DATA_GET_COPY.
              change (copy_original we (Some cj)) with (copy_original wd (Some cj)).
              rewrite Hod. change (datas we) with (datas wd). by rewrite Hdd.
           ++ done.
           ++ intros Hlive. apply Hsc. change (copies we) with (copies wd).
              by apply Hsd.
           ++ intros Hlive. apply Hsh. change (copies we) with (copies wd).
              by apply Hsd.
    + set (we := set_gpu_mem_owned_lru wd
                   (dague_ulist_fifo_push (gpu_mem_owned_lru wd) c)) in *.
      destruct (IH _ _ _ _ Hnd Hloop)
        as (H1 & H2 & H3 & H4 & H5 & H6 & H7 & H8 & H9 & H10).
      assert (requeue t false i = Some c) as Hf.
      { unfold requeued. rewrite Hp, Hout.
        by destruct (Z.land _ _ =? 0) eqn:E; [apply Z.eqb_eq in E|]. }
      assert (requeue t true i = None) as Ht.
      { unfold requeued. rewrite Hp. by destruct (negb _). }
      split_and!.
      * rewrite H1, Hrest, (Hskip true Ht).
        change (gpu_mem_lru we) with (gpu_mem_lru wd).
        by rewrite D2, C2, B2, A2.
      * rewrite H2, Hrest, (Hhit false c Hf).
        change (gpu_mem_owned_lru we) with (gpu_mem_owned_lru wd ++ [c]).
        rewrite D3, C3, B3, A3. by rewrite <- app_assoc.
      * by rewrite H3.
      * intros c0. rewrite H4. apply Hod.
      * intros c0. rewrite H5. apply Hsd.
      * intros c0 Hs. apply H6. by apply Hmono.
      * by rewrite H7.
      * by rewrite H8.
      * intros j Hj. apply not_elem_of_cons in Hj as [Hji Hj].
        rewrite H9 by done. by apply Hdata.
      * intros j [->|Hj]%elem_of_cons.
        -- rewrite Hout. destruct (Z.eqb_spec (Z.land (flow_flags_at t i)
                                                  FLOW_ACCESS_WRITE) 0); [done|].
           exists h. split; [done|]. rewrite H9 by done.
           split; [done|]. split; intros Hlive; apply H6; auto.
        -- assert (j <> i) as Hji by (intros ->; done).
           specialize (H10 j Hj). rewrite Hdata in H10 by done.
           assert (flow_flags_at t1 j = flow_flags_at t j) as Hfj by done.
           rewrite Hfj in H10.
           destruct (data t !! j ≫= data_out) as [cj|]; [|done].
           destruct (Z.land (flow_flags_at t j) FLOW_ACCESS_WRITE =? 0);
             [done|].
           destruct H10 as (hj & Hg & Ho & Hsc & Hsh). exists hj.
           split_and!.
           ++ rewrite <- Hg. unfold DAGUE_DATA_GET_COPY.
              change (copy_original we (Some cj)) with (copy_original wd (Some cj)).
              rewrite Hod. change (datas we) with (datas wd). by rewrite Hdd.
           ++ done.
           ++ intros Hlive. apply Hsc. change (copies we) with (copies wd).
              by apply Hsd.
           ++ intros Hlive. apply Hsh. change (copies we) with (copies wd).
              by apply Hsd.
Qed.

(** X5: [dague_gpu_kernel_epilog], when it returns, returns 0.  The replicas
    of the flows that are written are appended, in the order of the flows,
    to the free list when [pushout] is set for the flow and to the owned
    list otherwise, and nothing else changes in the two lists.  For such a
    flow, [data_out] becomes the host replica of the datum, and both
    replicas are left SHARED.  The other flows keep their data. *)
Theorem kernel_epilog_requeues_written_replicas w t (r : Z) w' t' :
  dague_gpu_kernel_epilog FLOW_ACCESS_WRITE w t = Some (r, w', t') ->
  r = 0
  /\ gpu_mem_lru w'
     = gpu_mem_lru w ++ omap (requeue t true) (seq 0 (nb_flows t))
  /\ gpu_mem_owned_lru w'
     = gpu_mem_owned_lru w ++ omap (requeue t false) (seq 0 (nb_flows t))
  /\ (forall i c,
        (i < nb_flows t)%nat ->
        (data t !! i ≫= data_out) = Some c ->
        Z.land (flow_flags_at t i) FLOW_ACCESS_WRITE <> 0 ->
        exists h,
          DAGUE_DATA_GET_COPY w (copy_original w (Some c)) 0 = Some h
          /\ (data t' !! i ≫= data_out) = Some h
          /\ (is_Some (copies w !! c) -> shared w' c)
          /\ (is_Some (copies w !! h) -> shared w' h))
  /\ (forall i,
        (nb_flows t <= i)%nat
        \/ Z.land (flow_flags_at t i) FLOW_ACCESS_WRITE = 0
        \/ (data t !! i ≫= data_out) = None ->
        data t' !! i = data t !! i).
Proof.
  unfold dague_gpu_kernel_epilog. intros Hrun.
  destruct (epilog (seq 0 (nb_flows t)) w t) as [[w1 t1]|] eqn:Hloop; [|done].
  simpl in Hrun. simplify_eq.
  destruct (epilog_loop_spec _ _ _ _ _ (NoDup_seq 0 (nb_flows t)) Hloop)
    as (H1 & H2 & _ & _ & _ & _ & _ & _ & H9 & H10).
  split_and!; [done|done|done|..].
  - intros i c Hi Hout Hw.
    assert (i ∈ seq 0 (nb_flows t)) as Hin by (apply elem_of_seq; lia).
    specialize (H10 i Hin). rewrite Hout in H10.
    by destruct (Z.eqb_spec (Z.land (flow_flags_at t i) FLOW_ACCESS_WRITE) 0).
  - intros i Hi.
    destruct (decide (i < nb_flows t)%nat) as [Hlt|Hge].
    + assert (i ∈ seq 0 (nb_flows t)) as Hin by (apply elem_of_seq; lia).
      specialize (H10 i Hin).
      destruct Hi as [Hi|[Hi|Hi]]; [lia|..].
      * rewrite Hi in H10. simpl in H10. by destruct (data t !! i ≫= data_out).
      * by rewrite Hi in H10.
    + apply H9. rewrite elem_of_seq. lia.
Qed.

End EpilogProps.

(** The task that wrote datum 100 through the replica 20, which it owns:
    the epilog hands the host replica 10 to the successors and puts the
    replica 20 into the free list. *)
Lemma kernel_epilog_requeues_written_replicas_witness :
  let w :=
    Scenario.world
      {[ 10 := Scenario.host_replica 100 1000;
         20 := Scenario.replica 100 2 5000 Memory.DATA_COHERENCY_OWNED
                 Memory.DATA_STATUS_COMPLETE_TRANSFER 0 ]}
      {[ 100 := Scenario.datum {[ 0 := 10; 2 := 20 ]} 2 ]}
      21 [] [] [] in
  let t := Memory.set_data_out Scenario.writer 0 (Some 20) in
  exists r w' t',
    Epilog.dague_gpu_kernel_epilog 2 w t = Some (r, w', t')
    /\ r = 0
    /\ Memory.gpu_mem_lru w'
       = Memory.gpu_mem_lru w
         ++ omap (Epilog.requeued 2 t true) (seq 0 (Memory.nb_flows t))
    /\ Memory.gpu_mem_lru w' = [20]
    /\ (Memory.data t' !! 0%nat ≫= Memory.data_out) = Some 10.
Proof.
  intros w t.
  destruct (Epilog.dague_gpu_kernel_epilog 2 w t) as [[[r w'] t']|] eqn:Hrun;
    [|by vm_compute in Hrun].
  exists r, w', t'. split; [reflexivity|].
  destruct (kernel_epilog_requeues_written_replicas 2 w t r w' t' Hrun)
    as (Hr & Hlru & _).
  split; [exact Hr|]. split; [exact Hlru|].
  vm_compute in Hrun. by simplify_eq.
Defined.

(** ** Reserving and releasing the memory of a device *)

Section ReserveSizing.

Import DeviceMemory.

(** X6: [dague_cuda_memory_reserve], when it sets up a new zone: the amount to
    reserve is at least one element and at most the free memory of the
    device, and, as long as the number of segments fits its 32-bit counter,
    the size asked of [cudaMalloc] is that amount rounded up to a whole
    number of elements; so it can exceed the free memory by up to one
    element less one byte. *)
Theorem memory_reserve_rounds_up (memory_percentage number_blocks : Z)
    (eltsize initial_free_mem : Z) (has_memory : bool)
    (zone_init_ok : Z -> Z -> bool) (n total_size : Z) :
  0 < eltsize ->
  0 <= initial_free_mem ->
  initial_free_mem + eltsize <= SIZE_MAX1 ->
  (initial_free_mem + eltsize - 1) / eltsize < 2 ^ 32 ->
  dague_cuda_memory_reserve memory_percentage number_blocks eltsize
    initial_free_mem has_memory zone_init_ok
  = Some (DAGUE_SUCCESS false n total_size) ->
  exists how_much_we_allocate,
    eltsize <= how_much_we_allocate <= initial_free_mem
    /\ n = (how_much_we_allocate + eltsize - 1) / eltsize
    /\ total_size = n * eltsize
    /\ how_much_we_allocate <= total_size < how_much_we_allocate + eltsize
    /\ zone_init_ok n eltsize = true
    /\ has_memory = false.
Proof.
  intros Helt Hfree Hfit Hcount. unfold dague_cuda_memory_reserve.
  destruct (negb (number_blocks =? -1) && (number_blocks =? 0)); [done|].
  set (asked := if negb (number_blocks =? -1)
                then to_size_t (to_size_t number_blocks * eltsize)
                else to_size_t (to_size_t memory_percentage * initial_free_mem)
                     / 100).
  set (how_much := if asked >? initial_free_mem then initial_free_mem else asked).
  assert (0 <= asked) as Hasked.
  { subst asked. unfold to_size_t, SIZE_MAX1.
    destruct (negb _); [apply Z.mod_pos_bound; lia|].
    apply Z.div_pos; [apply Z.mod_pos_bound|]; lia. }
  assert (0 <= how_much <= initial_free_mem) as Hcap.
  { subst how_much. destruct (Z.gtb_spec asked initial_free_mem); lia. }
  destruct (Z.ltb_spec how_much eltsize) as [|Hone]; [done|].
  destruct has_memory; [done|].
  destruct (Z.eqb_spec eltsize 0) as [|_]; [lia|].
  set (q := (how_much + eltsize - 1) / eltsize).
  assert (to_size_t (how_much + eltsize - 1) = how_much + eltsize - 1) as Hsum.
  { unfold to_size_t. apply Z.mod_small. lia. }
  assert (0 <= q <= (initial_free_mem + eltsize - 1) / eltsize) as Hq.
  { subst q. split; [apply Z.div_pos; lia|]. apply Z.div_le_mono; lia. }
  assert (to_uint32 q = q) as Hq32.
  { unfold to_uint32. apply Z.mod_small. lia. }
  assert (how_much <= q * eltsize < how_much + eltsize) as Hround.
  { subst q.
    pose proof (Z.div_mod (how_much + eltsize - 1) eltsize ltac:(lia)) as Hdm.
    pose proof (Z.mod_pos_bound (how_much + eltsize - 1) eltsize Helt) as Hm.
    nia. }
  assert (to_size_t (q * eltsize) = q * eltsize) as Htotal.
  { unfold to_size_t. apply Z.mod_small. lia. }
  rewrite Hsum. fold q. rewrite Hq32, Htotal.
  destruct (zone_init_ok q eltsize) eqn:Hinit; [|done].
  intros [= <- <-]. exists how_much. split_and!; try done; lia.
Qed.

End ReserveSizing.

(** Half of 1000 free bytes, in elements of 64 bytes: 8 elements, 512
    bytes. *)
Lemma memory_reserve_rounds_up_witness :
  0 < 64 /\ 0 <= 1000 /\ 1000 + 64 <= DeviceMemory.SIZE_MAX1
  /\ (1000 + 64 - 1) / 64 < 2 ^ 32
  /\ DeviceMemory.dague_cuda_memory_reserve 50 (-1) 64 1000 false (fun _ _ => true)
     = Some (DeviceMemory.DAGUE_SUCCESS false 8 512)
  /\ exists how_much_we_allocate,
       64 <= how_much_we_allocate <= 1000
       /\ 8 = (how_much_we_allocate + 64 - 1) / 64
       /\ 512 = 8 * 64
       /\ how_much_we_allocate <= 512 < how_much_we_allocate + 64
       /\ (fun _ _ : Z => true) 8 64 = true
       /\ false = false.
Proof.
  assert (0 < 64) as H1 by lia.
  assert (0 <= 1000) as H2 by lia.
  assert (1000 + 64 <= DeviceMemory.SIZE_MAX1) as H3 by (vm_compute; discriminate).
  assert ((1000 + 64 - 1) / 64 < 2 ^ 32) as H4 by (vm_compute; reflexivity).
  assert (DeviceMemory.dague_cuda_memory_reserve 50 (-1) 64 1000 false
            (fun _ _ => true)
          = Some (DeviceMemory.DAGUE_SUCCESS false 8 512)) as H5
    by (vm_compute; reflexivity).
  split; [exact H1|]. split; [exact H2|]. split; [exact H3|].
  split; [exact H4|]. split; [exact H5|].
  exact (memory_reserve_rounds_up 50 (-1) 64 1000 false (fun _ _ => true) 8 512
           H1 H2 H3 H4 H5).
Defined.

(** X7: the number of segments is kept in 32 bits: with elements of one byte
    and 2^33 free bytes, all asked for, the count wraps to 0 and the zone is
    set up with no segment. *)
Example memory_reserve_segment_count_wraps :
  DeviceMemory.dague_cuda_memory_reserve 100 (-1) 1 (2 ^ 33) false (fun _ _ => true)
  = Some (DeviceMemory.DAGUE_SUCCESS false 0 0).
Proof. vm_compute. reflexivity. Qed.

Section ReleaseProps.

Import DagueList Memory DeviceMemory.

Context {zone : Type}.
Variable zone_free : zone -> Z -> zone.

Implicit Types w : @gpu_world zone.

Local Abbreviation release := (release_loop zone_free).
Local Abbreviation owned w :=
  (fun c : Z => coherency_state <$> copies w !! c = Some DATA_COHERENCY_OWNED).

#[local] Arguments copy_original : simpl never.
#[local] Arguments copy_private : simpl never.
#[local] Arguments free_private : simpl never.

(** Giving the block back and resetting [device_private]. *)
Lemma release_step w (c : Z) :
  let w' := update_copy (free_private zone_free w (copy_private w (Some c))) c
              (with_private None) in
  datas w' = datas w
  /\ gpu_mem_lru w' = gpu_mem_lru w
  /\ gpu_mem_owned_lru w' = gpu_mem_owned_lru w
  /\ (forall c0, c0 <> c -> copies w' !! c0 = copies w !! c0)
  /\ (forall c0, coherency_state <$> copies w' !! c0
                 = coherency_state <$> copies w !! c0)
  /\ copy_private w' (Some c) = None
  /\ (forall c0, copy_private w (Some c0) = None ->
        copy_private w' (Some c0) = None).
Proof.
  intros w'.
  destruct (free_private_heap zone_free w (copy_private w (Some c)))
    as (Fc & Fd & _ & Fl & Fo).
  assert (copies w' = alter (with_private None) c (copies w)) as Hc.
  { subst w'. simpl. by rewrite Fc. }
  split_and!.
  - subst w'. simpl. by rewrite Fd.
  - subst w'. simpl. by rewrite Fl.
  - subst w'. simpl. by rewrite Fo.
  - intros c0 Hne. by rewrite Hc, lookup_alter_ne.
  - intros c0. rewrite Hc. destruct (decide (c0 = c)) as [->|Hne].
    + rewrite lookup_alter_eq. by destruct (copies w !! c).
    + by rewrite lookup_alter_ne.
  - change (copies w' !! c ≫= device_private = None).
    rewrite Hc, lookup_alter_eq. by destruct (copies w !! c).
  - intros c0 Hc0. change (copies w !! c0 ≫= device_private = None) in Hc0.
    change (copies w' !! c0 ≫= device_private = None). rewrite Hc.
    destruct (decide (c0 = c)) as [->|Hne].
    + rewrite lookup_alter_eq. by destruct (copies w !! c).
    + by rewrite lookup_alter_ne.
Qed.

Lemma release_loop_spec (l : list Z) :
  forall w (warned : list Z) w' (warned' : list Z),
    release l w warned = Some (w', warned') ->
    warned' = warned ++ filter (owned w) l
    /\ (forall c, c ∈ l -> copy_private w' (Some c) = None)
    /\ (forall c, copy_private w (Some c) = None -> copy_private w' (Some c) = None)
    /\ (forall c, c ∉ l -> copies w' !! c = copies w !! c)
    /\ (forall c, coherency_state <$> copies w' !! c
                  = coherency_state <$> copies w !! c)
    /\ datas w' = datas w
    /\ gpu_mem_lru w' = gpu_mem_lru w
    /\ gpu_mem_owned_lru w' = gpu_mem_owned_lru w.
Proof.
  induction l as [|c l IH]; intros w warned w' warned' Hrun;
    cbn [release_loop] in Hrun.
  - simplify_eq. rewrite app_nil_r. split_and!; try done.
    intros c Hc. by apply elem_of_nil in Hc.
  - destruct (_ && _); [done|].
    destruct (release_step w c) as (S1 & S2 & S3 & S4 & S5 & S6 & S7).
    set (w1 := update_copy (free_private zone_free w (copy_private w (Some c))) c
                 (with_private None)) in *.
    destruct (IH _ _ _ _ Hrun) as (I1 & I2 & I3 & I4 & I5 & I6 & I7 & I8).
    assert (filter (owned w1) l = filter (owned w) l) as Hfilter.
    { apply list_filter_iff. intros c0. by rewrite S5. }
    split_and!.
    + rewrite I1, Hfilter, filter_cons. case_decide.
      * rewrite bool_decide_eq_true_2 by done. by rewrite <- app_assoc.
      * by rewrite bool_decide_eq_false_2.
    + intros c0 [->|Hc0]%elem_of_cons; [by apply I3|by apply I2].
    + intros c0 Hc0. by apply I3, S7.
    + intros c0 [Hne Hc0]%not_elem_of_cons. rewrite I4 by done. by apply S4.
    + intros c0. by rewrite I5.
    + congruence.
    + congruence.
    + congruence.
Qed.

(** X8: the release of the memory of a device empties the free list and the
    owned list; every replica that was in one of them has then no block
    ([device_private] is NULL), the replicas that were still OWNED are
    those that get the warning, in the order of the free list and then of
    the owned list, and the other replicas and the data are left as they
    were. *)
Theorem memory_release_lists_clears w w' (warned : list Z) :
  dague_cuda_memory_release_lists zone_free w = Some (w', warned) ->
  gpu_mem_lru w' = [] /\ gpu_mem_owned_lru w' = []
  /\ (forall c, c ∈ gpu_mem_lru w ++ gpu_mem_owned_lru w ->
        copy_private w' (Some c) = None)
  /\ warned = filter (owned w) (gpu_mem_lru w ++ gpu_mem_owned_lru w)
  /\ (forall c, c ∉ gpu_mem_lru w ++ gpu_mem_owned_lru w ->
        copies w' !! c = copies w !! c)
  /\ datas w' = datas w.
Proof.
  unfold dague_cuda_memory_release_lists. intros Hrun.
  destruct (release (gpu_mem_lru w) (set_gpu_mem_lru w []) [])
    as [[w1 warned1]|] eqn:Hfree; [|done].
  simpl in Hrun.
  destruct (release_loop_spec _ _ _ _ _ Hfree)
    as (A1 & A2 & A3 & A4 & A5 & A6 & A7 & A8).
  destruct (release_loop_spec _ _ _ _ _ Hrun)
    as (B1 & B2 & B3 & B4 & B5 & B6 & B7 & B8).
  simpl in A1, A4, A5, A6, A7, A8, B4, B5, B6, B7, B8.
  split_and!.
  - by rewrite B7.
  - done.
  - intros c [Hc|Hc]%elem_of_app.
    + by apply B3, A2.
    + apply B2. by rewrite A8.
  - rewrite B1, A1, filter_app, A8. simpl. f_equal.
    apply list_filter_iff. intros c. simpl. by rewrite A5.
  - intros c Hc. rewrite elem_of_app in Hc.
    rewrite B4, A4; [done|tauto|rewrite A8; tauto].
  - by rewrite B6, A6.
Qed.

End ReleaseProps.

(** The two dirty replicas of the owned list: both lose their block and
    both get the warning. *)
Lemma memory_release_lists_clears_witness :
  exists w' warned,
    DeviceMemory.dague_cuda_memory_release_lists Slab.zone_free Scenario.dirty_world
    = Some (w', warned)
    /\ Memory.gpu_mem_lru w' = [] /\ Memory.gpu_mem_owned_lru w' = []
    /\ warned = [20; 21]
    /\ Memory.memory w' = [5100; 5000]
    /\ forall c,
         c ∈ Memory.gpu_mem_lru Scenario.dirty_world
             ++ Memory.gpu_mem_owned_lru Scenario.dirty_world ->
         Memory.copy_private w' (Some c) = None.
Proof.
  destruct (DeviceMemory.dague_cuda_memory_release_lists Slab.zone_free
              Scenario.dirty_world) as [[w' warned]|] eqn:Hrun;
    [|by vm_compute in Hrun].
  exists w', warned. split; [reflexivity|].
  destruct (memory_release_lists_clears Slab.zone_free Scenario.dirty_world
              w' warned Hrun) as (H1 & H2 & H3 & _).
  split; [exact H1|]. split; [exact H2|].
  split; [vm_compute in Hrun; by simplify_eq|].
  split; [vm_compute in Hrun; by simplify_eq|].
  exact H3.
Defined.

(** A write access to the replica 20, which a task is reading. *)
Lemma stage_in_code_witness :
  let t := Memory.set_data_out Scenario.writer 0 (Some 20) in
  let run :=
    Memory.dague_gpu_data_stage_in 2 2 (fun _ => true) Scenario.always_from_host
      3 0 t Scenario.read_world in
  run = (-86, Memory.warn Scenario.read_world Memory.warn_write_with_readers, t)
  /\ (-86 = 0 \/ -86 = 1 \/ -86 = -1 \/ -86 = -86)
  /\ (-86 = -86 <->
      negb (Z.land 2 3 =? 0) = true
      /\ 0 < Memory.copy_readers Scenario.read_world
               (Memory.data t !! 0%nat ≫= Memory.data_out)).
Proof.
  intros t run.
  assert (run = (-86, Memory.warn Scenario.read_world Memory.warn_write_with_readers, t))
    as Hrun by (vm_compute; reflexivity).
  split; [exact Hrun|].
  exact (stage_in_code 2 2 (fun _ => true) Scenario.always_from_host
           (fun _ d _ => (-1, d)) 3 0 t t Scenario.read_world
           (Memory.warn Scenario.read_world Memory.warn_write_with_readers)
           (-86) Hrun).
Defined.

(** ** A task whose event completed *)

Section CompletionPath.

Import DagueList Stream.

Context {dev : Type}.
Variable DAGUE_GPU_USE_PRIORITIES : bool.
Variable dague_ulist_push_sorted : list Z -> Z -> list Z.
Variable submit : Z -> advance_task_function (dev := dev).
Variable stage_in_completed : dev -> Z -> dev * bool.

Local Abbreviation progress :=
  (progress_stream DAGUE_GPU_USE_PRIORITIES dague_ulist_push_sorted submit
     stage_in_completed).

(** X9: on a stream other than the stage-in stream, with nothing pending to
    launch: when the event of the task at the end of the ring has completed,
    [progress_stream] hands that task out and returns 0; the slot is
    emptied, the end of the ring moves one slot on, modulo the size of the
    ring, and the other slots, the start of the ring and the device are left
    as they were. *)
Theorem progress_stream_hands_out_completed
    (progress_fct : option advance_task_function) (d : dev) (s : exec_stream)
    (gtask : Z) :
  fifo_pending s = [] ->
  ring_get s (end_ s) = Some gtask ->
  0 <= end_ s ->
  let r := progress false cudaSuccess progress_fct None d s in
  rc r = 0
  /\ out_task r = Some gtask
  /\ dev_after r = d
  /\ stream_after r = release_slot s
  /\ ring_get (stream_after r) (end_ s) = None
  /\ (forall i, 0 <= i -> i <> end_ s ->
        ring_get (stream_after r) i = ring_get s i)
  /\ end_ (stream_after r) = Z.rem (end_ s + 1) (max_events s)
  /\ start (stream_after r) = start s
  /\ fifo_pending (stream_after r) = [].
Proof.
  intros Hfifo Hend Hpos r.
  assert (forall q (c : Z) (x : exec_stream),
            fifo_pending x = [] ->
            grab_a_task DAGUE_GPU_USE_PRIORITIES dague_ulist_push_sorted submit
              q d x c
            = inr {| g_fct := q; g_dev := d; g_stream := x; g_saved_rc := c |})
    as Hidle.
  { intros q c x Hx. unfold grab_a_task. rewrite Hx. simpl.
    by destruct (ring_get x (start x)). }
  assert (r = {| rc := 0; out_task := Some gtask; dev_after := d;
                 stream_after := release_slot s |}) as ->.
  { subst r. unfold progress_stream. rewrite (Hidle _ _ _ Hfifo). simpl.
    rewrite Hend. simpl. by rewrite (Hidle _ _ (release_slot s) Hfifo). }
  simpl. split_and!; try done.
  - unfold ring_get in *. simpl.
    destruct (tasks s !! Z.to_nat (end_ s)) as [x|] eqn:Hx; [|done].
    rewrite list_lookup_insert_eq; [done|]. by apply lookup_lt_Some in Hx.
  - intros i Hi Hne. unfold ring_get. simpl.
    rewrite list_lookup_insert_ne; [done|]. lia.
Qed.

End CompletionPath.

(** A ring of four slots whose last slot holds the task 9. *)
Lemma progress_stream_hands_out_completed_witness :
  let s := {| Stream.max_events := 4; Stream.tasks := [None; None; None; Some 9];
              Stream.start := 0; Stream.end_ := 3;
              Stream.fifo_pending := []; Stream.recorded := [3] |} in
  let r := Stream.progress_stream false (fun l x => x :: l)
             (fun _ (d : unit) _ => (0, d)) (fun d _ => (d, true))
             false Stream.cudaSuccess None None tt s in
  Stream.fifo_pending s = []
  /\ Stream.ring_get s (Stream.end_ s) = Some 9
  /\ 0 <= Stream.end_ s
  /\ Stream.rc r = 0
  /\ Stream.out_task r = Some 9
  /\ Stream.tasks (Stream.stream_after r) = [None; None; None; None]
  /\ Stream.end_ (Stream.stream_after r) = 0.
Proof.
  intros s r.
  assert (Stream.fifo_pending s = []) as H1 by reflexivity.
  assert (Stream.ring_get s (Stream.end_ s) = Some 9) as H2 by reflexivity.
  assert (0 <= Stream.end_ s) as H3 by (simpl; lia).
  destruct (progress_stream_hands_out_completed false (fun l x => x :: l)
              (fun _ (d : unit) _ => (0, d)) (fun d _ => (d, true))
              None tt s 9 H1 H2 H3) as (Hrc & Hout & _).
  split; [exact H1|]. split; [exact H2|]. split; [exact H3|].
  split; [exact Hrc|]. split; [exact Hout|].
  split; reflexivity.
Defined.

(** ** The stack of work buffers of a stream *)

Section WorkspaceProps.

Import Workspace.

Context {zone : Type}.
Variable zone_malloc : zone -> Z -> option (Z * zone).
Variable DAGUE_GPU_MAX_WORKSPACE : nat.

Local Abbreviation MAX := DAGUE_GPU_MAX_WORKSPACE.
Local Abbreviation fill := (fill_workspace zone_malloc).
Local Abbreviation pop := (dague_gpu_pop_workspace zone_malloc MAX).
Local Abbreviation pops := (pop_n zone_malloc MAX).

Lemma fill_workspace_length (n : nat) :
  forall (memory : zone) (size : Z), length (fill n memory size).1 = n.
Proof.
  induction n as [|n IH]; intros memory size; simpl; [done|].
  destruct (zone_malloc memory size) as [[p z]|].
  - specialize (IH z size). destruct (fill n z size). simpl in *. lia.
  - specialize (IH memory size). destruct (fill n memory size). simpl in *. lia.
Qed.

(** One pop on a stack that is set up, [S m] buffers being left on it. *)
Lemma pop_allocated (m : nat) (l : list (option Z)) (total : Z) (memory : zone)
    (size : Z) (x : option Z) :
  l !! m = Some x ->
  pop (Some {| workspace := l; stack_head := Z.of_nat (S m) - 1;
               total_workspace := total |}) memory size
  = Some (x, {| workspace := l; stack_head := Z.of_nat m - 1;
                total_workspace := total |}, memory).
Proof.
  intros Hx. unfold dague_gpu_pop_workspace.
  cbn [stack_head workspace total_workspace].
  destruct (Z.ltb_spec (Z.of_nat (S m) - 1) 0) as [|_]; [lia|].
  replace (Z.to_nat (Z.of_nat (S m) - 1)) with m by lia. rewrite Hx.
  by replace (Z.of_nat (S m) - 1 - 1) with (Z.of_nat m - 1) by lia.
Qed.

(** Pops on a stack that is set up, [m] buffers being left on it. *)
Lemma pop_n_allocated (n : nat) :
  forall (m : nat) (l : list (option Z)) (total : Z) (memory : zone) (size : Z),
    (n <= m)%nat -> (m <= length l)%nat ->
    pops n (Some {| workspace := l; stack_head := Z.of_nat m - 1;
                    total_workspace := total |}) memory size
    = Some (reverse (take n (drop (m - n) l)),
            Some {| workspace := l; stack_head := Z.of_nat (m - n) - 1;
                    total_workspace := total |},
            memory).
Proof.
  induction n as [|n IH]; intros m l total memory size Hn Hm.
  - simpl. by rewrite Nat.sub_0_r.
  - destruct m as [|m]; [lia|].
    destruct (lookup_lt_is_Some_2 l m ltac:(lia)) as [x Hx].
    cbn [pop_n]. rewrite (pop_allocated m l total memory size x Hx).
    rewrite (IH m) by lia.
    replace (S m - S n)%nat with (m - n)%nat by lia.
    assert (drop (m - n) l !! n = Some x) as Hlast.
    { rewrite lookup_drop. rewrite <- Hx. f_equal. lia. }
    by rewrite (take_S_r _ _ _ Hlast), reverse_snoc.
Qed.

(** One pop more than there are buffers left fails. *)
Lemma pop_n_exhausted (m : nat) :
  forall (l : list (option Z)) (total : Z) (memory : zone) (size : Z),
    (m <= length l)%nat ->
    pops (S m) (Some {| workspace := l; stack_head := Z.of_nat m - 1;
                        total_workspace := total |}) memory size
    = None.
Proof.
  induction m as [|m IH]; intros l total memory size Hm.
  - done.
  - destruct (lookup_lt_is_Some_2 l m ltac:(lia)) as [x Hx].
    change (pops (S (S m)) ?ws memory size)
      with (match pop ws memory size with
            | None => None
            | Some (work, s, memory') =>
                match pops (S m) (Some s) memory' size with
                | None => None
                | Some (works, ws', memory'') => Some (work :: works, ws', memory'')
                end
            end).
    rewrite (pop_allocated m l total memory size x Hx).
    by rewrite IH by lia.
Qed.

(** X10: the first calls of [dague_gpu_pop_workspace] on a stream: the first one
    asks the zone for [DAGUE_GPU_MAX_WORKSPACE] buffers, and up to that many
    calls in a row hand these buffers out, last one first; one call more
    fails the assertion on the head of the stack. *)
Theorem workspace_pops_last_first (n : nat) (memory : zone) (size : Z) :
  (0 < n <= DAGUE_GPU_MAX_WORKSPACE)%nat ->
  let filled := fill_workspace zone_malloc DAGUE_GPU_MAX_WORKSPACE memory size in
  length filled.1 = DAGUE_GPU_MAX_WORKSPACE
  /\ pop_n zone_malloc DAGUE_GPU_MAX_WORKSPACE n None memory size
     = Some (reverse (take n (drop (DAGUE_GPU_MAX_WORKSPACE - n) filled.1)),
             Some {| workspace := filled.1;
                     stack_head := Z.of_nat (DAGUE_GPU_MAX_WORKSPACE - n) - 1;
                     total_workspace := Z.of_nat DAGUE_GPU_MAX_WORKSPACE |},
             filled.2)
  /\ pop_n zone_malloc DAGUE_GPU_MAX_WORKSPACE (S DAGUE_GPU_MAX_WORKSPACE) None
       memory size = None.
Proof.
  intros Hn filled.
  pose proof (fill_workspace_length MAX memory size) as Hlen. fold filled in Hlen.
  set (s0 := {| workspace := filled.1; stack_head := Z.of_nat MAX - 1;
                total_workspace := Z.of_nat MAX |}).
  assert (forall k, pops (S k) None memory size = pops (S k) (Some s0) filled.2 size)
    as Hfirst.
  { intros k. cbn [pop_n]. unfold dague_gpu_pop_workspace. fold filled.
    by destruct filled. }
  split; [done|]. split.
  - destruct n as [|n]; [lia|]. rewrite Hfirst.
    by apply pop_n_allocated; lia.
  - rewrite Hfirst. apply pop_n_exhausted. lia.
Qed.

End WorkspaceProps.

(** Four buffers taken from a pool of five blocks: three pops hand out the
    fourth, the third and the second of them. *)
Lemma workspace_pops_last_first_witness :
  (0 < 3 <= 4)%nat
  /\ Workspace.pop_n Slab.zone_malloc 4 3 None [100; 200; 300; 400; 500] 32
     = Some ([Some 400; Some 300; Some 200],
             Some {| Workspace.workspace := [Some 100; Some 200; Some 300; Some 400];
                     Workspace.stack_head := 0;
                     Workspace.total_workspace := 4 |},
             [500])
  /\ Workspace.pop_n Slab.zone_malloc 4 5 None [100; 200; 300; 400; 500] 32 = None.
Proof.
  assert (0 < 3 <= 4)%nat as Hn by lia.
  split; [exact Hn|].
  destruct (workspace_pops_last_first Slab.zone_malloc 4 3
              [100; 200; 300; 400; 500] 32 Hn) as (_ & Hpops & Hfail).
  split; [|exact Hfail].
  rewrite Hpops. vm_compute. reflexivity.
Defined.
